(** * Verification of the SST construct helpers

    A shallow embedding of the event bus ([src/bus.js]), the functional
    stack registry ([src/constructs/FunctionalStack.js]) and the site
    build pipeline ([src/constructs/BaseSite.js],
    [src/constructs/SsrSite.js] and the [StaticSite] construct), with the
    properties the specification states about them.

    JavaScript objects used as dictionaries are finite maps ([gmap]),
    objects compared by identity carry an allocation reference, thrown
    errors are the [inl] side of a sum, and what the constructs call
    outside these files (the CDK [Token] test, the digests, the duration
    parser, the child processes) is a field of the record [externals]
    their functions take. *)

From stdpp Require Import base option list sorting gmap strings pretty fin_maps fin_sets.
From Stdlib Require Import Ascii ZArith Lia.

Open Scope string_scope.
Open Scope list_scope.

(** ** Event bus ([src/bus.js]) *)

Module Bus.

Section WithCallbacks.
(** [Props] is the type of the [properties] argument of [publish] and
    [Cb] the type of callbacks, compared as JavaScript compares
    functions, by identity. *)
Context {Props Cb : Type} `{EqDecision Cb}.

(** The envelope [{ type, properties, sourceID }] built by [publish]. *)
Record payload := Payload {
  p_type : string;
  p_properties : Props;
  p_sourceID : string
}.

(** The object [{ type, cb }] made by [subscribe].  [arr.indexOf(sub)]
    compares objects by identity: two [subscribe] calls with the same
    arguments make two objects, which [sub_ref], the allocation number,
    tells apart. *)
Record sub := Sub {
  sub_ref : nat;
  sub_type : string;
  sub_cb : Cb
}.

#[global] Instance sub_eq_dec : EqDecision sub.
Proof. solve_decision. Defined.

(** The closure of [useBus]: the [subscriptions] object, the [sourceID]
    drawn once when the bus is made, and the allocation counter.  Each
    type has one array, made on first use and changed in place from then
    on: whoever holds it sees the changes. *)
Record bus := MkBus {
  subscriptions : gmap string (list sub);
  sourceID : string;
  next_ref : nat
}.

(** [lazy(() => { ... })]: [rnd] is [crypto.randomBytes(16).toString("hex")]. *)
Definition useBus (rnd : string) : bus :=
  {| subscriptions := ∅; sourceID := rnd; next_ref := 0 |}.

(** [DO_NOT_LOG.has(type)] for [new Set(["stacks.metadata"])]. *)
Definition DO_NOT_LOG (type : string) : bool :=
  bool_decide (type = "stacks.metadata").

(** [function subscribers(type)]: the array of [type], created empty
    (and stored) when there is none yet. *)
Definition subscribers (type : string) (b : bus) : list sub * bus :=
  match subscriptions b !! type with
  | Some arr => (arr, b)
  | None =>
      ([], {| subscriptions := <[type := []]> (subscriptions b);
              sourceID := sourceID b;
              next_ref := next_ref b |})
  end.

(** [arr.indexOf(sub)], [None] for [-1]. *)
Fixpoint indexOf (s : sub) (arr : list sub) : option nat :=
  match arr with
  | [] => None
  | x :: arr' => if decide (x = s) then Some 0 else S <$> indexOf s arr'
  end.

(** [index < 0 ? arr : arr.splice(index, 1)] *)
Definition splice_out (s : sub) (arr : list sub) : list sub :=
  match indexOf s arr with
  | None => arr
  | Some index => delete index arr
  end.

Definition unsubscribe (s : sub) (b : bus) : bus :=
  let '(arr, b') := subscribers (sub_type s) b in
  {| subscriptions := <[sub_type s := splice_out s arr]> (subscriptions b');
     sourceID := sourceID b';
     next_ref := next_ref b' |}.

Definition subscribe (type : string) (cb : Cb) (b : bus) : bus * sub :=
  let s := {| sub_ref := next_ref b; sub_type := type; sub_cb := cb |} in
  let '(arr, b') := subscribers type b in
  ({| subscriptions := <[type := arr ++ [s]]> (subscriptions b');
      sourceID := sourceID b';
      next_ref := S (next_ref b') |}, s).

(** [forward(..._types)] returns [(type, cb) => this.subscribe(type, cb)]. *)
Definition forward (_types : list string) : string → Cb → bus → bus * sub :=
  λ type cb, subscribe type cb.

(** *** Calls *)

(** The calls that change who is subscribed, and all the calls a callback
    can make; [Throw] is a callback that throws at that point. *)
Inductive registration :=
| Subscribe (type : string) (cb : Cb)
| Forward (types : list string) (type : string) (cb : Cb)
| Unsubscribe (s : sub).

Inductive call :=
| Register (r : registration)
| Publish (type : string) (properties : Props)
| Throw.

Definition register (b : bus) (r : registration) : bus :=
  match r with
  | Subscribe type cb => (subscribe type cb b).1
  | Forward ts type cb => (forward ts type cb b).1
  | Unsubscribe s => unsubscribe s b
  end.

(** The array of [type] as it is now. *)
Definition registered (type : string) (b : bus) : list sub :=
  default [] (subscriptions b !! type).

(** *** Publishing *)

(** What happens from the call of [publish] on, in order: the debug
    line, unless the type is suppressed; the calls of callbacks, by the
    loop of that [publish] ([inner] is [false]) or by the loop of a
    [publish] that a callback made ([inner] is [true]); the
    registrations the callbacks make; and the exception that ends it
    all, when something throws. *)
Inductive event :=
| LogDebug (p : payload)
| Invoke (inner : bool) (s : sub) (p : payload)
| Called (r : registration)
| Thrown.

(** A callback is a JavaScript function: called with the envelope it may
    call the bus in turn, and it may throw.  [script cb p] are the calls
    it makes, [Throw] being the last of them when it throws.  No callback
    here catches what a [publish] it calls throws. *)
Variable script : Cb → payload → list call.

(** Whether [Logger.debug(`Publishing event ${JSON.stringify(payload)}`)]
    returns: [JSON.stringify] throws on properties with a cycle or a
    BigInt, and the logger is a function of another module. *)
Variable log : payload → bool.

(** What is left to do: a call to make, or the rest of the loop
    [for (const sub of subscribers(type)) sub.cb(payload)], which is at
    [index] in the array of the type.  [inner] tells the calls and the
    loops that come from a callback from the [publish] that was called. *)
Inductive frame :=
| Do (inner : bool) (c : call)
| Next (inner : bool) (p : payload) (index : nat).

(** The frames a callback leaves. *)
Definition from_callback (f : frame) : Prop :=
  match f with Do inner _ | Next inner _ _ => inner = true end.

Definition prepend (es : list event) (r : option (bus * list event))
  : option (bus * list event) :=
  (λ '(b, es'), (b, es ++ es')) <$> r.

(** The [payload] of [publish(type, properties)]. *)
Definition envelope (type : string) (properties : Props) (b : bus) : payload :=
  {| p_type := type; p_properties := properties; p_sourceID := sourceID b |}.

(** [if (!DO_NOT_LOG.has(type)) Logger.debug(...)]: the events it leaves,
    or [None] when it throws. *)
Definition debug_line (p : payload) : option (list event) :=
  if DO_NOT_LOG (p_type p) then Some []
  else if log p then Some [LogDebug p] else None.

(** Runs what is left to do.  The loop of [publish] goes through the
    array by index and reads the array afresh at every turn, as the
    iterator of a JavaScript array does: it sees what the callbacks
    called so far did to it.  An exception, from the logger or from a
    callback, leaves the loops and the callbacks it was thrown in: nothing
    of what was left to do is done.  Callbacks may subscribe or publish
    for ever; [fuel] bounds the steps, and [None] is to run out of it. *)
Fixpoint exec (fuel : nat) (todo : list frame) (b : bus)
  : option (bus * list event) :=
  match fuel with
  | O => None
  | S fuel' =>
      match todo with
      | [] => Some (b, [])
      | Do _ Throw :: _ => Some (b, [Thrown])
      | Do _ (Register r) :: todo' =>
          prepend [Called r] (exec fuel' todo' (register b r))
      | Do inner (Publish type properties) :: todo' =>
          let p := envelope type properties b in
          match debug_line p with
          | None => Some (b, [Thrown])
          | Some line =>
              prepend line (exec fuel' (Next inner p 0 :: todo') (subscribers type b).2)
          end
      | Next inner p index :: todo' =>
          match registered (p_type p) b !! index with
          | None => exec fuel' todo' b
          | Some s =>
              prepend [Invoke inner s p]
                (exec fuel'
                   ((Do true <$> script (sub_cb s) p) ++ Next inner p (S index) :: todo')
                   b)
          end
      end
  end.

(** [publish(type, properties)] *)
Definition publish (fuel : nat) (type : string) (properties : Props) (b : bus)
  : option (bus * list event) :=
  exec fuel [Do false (Publish type properties)] b.

(** The calls made on subscribers by a list of events, in order: all of
    them, and those of the [publish] that was called. *)
Definition invocations (es : list event) : list (sub * payload) :=
  omap (λ e, match e with Invoke _ s p => Some (s, p) | _ => None end) es.

Definition delivered (es : list event) : list (sub * payload) :=
  omap (λ e, match e with Invoke false s p => Some (s, p) | _ => None end) es.

(** Nothing was thrown. *)
Definition returned (es : list event) : bool :=
  forallb (λ e, match e with Thrown => false | _ => true end) es.

(** No callback unsubscribed a subscriber that the [publish] that was
    called had already called, or was calling: the loop of that [publish]
    had no subscription removed at or before its position.  [called] are
    the subscribers called so far. *)
Fixpoint undisturbed_from (called : list sub) (es : list event) : bool :=
  match es with
  | [] => true
  | Invoke false s _ :: es' => undisturbed_from (called ++ [s]) es'
  | Called (Unsubscribe s) :: es' =>
      negb (bool_decide (s ∈ called)) && undisturbed_from called es'
  | _ :: es' => undisturbed_from called es'
  end.

Definition undisturbed (es : list event) : bool := undisturbed_from [] es.

(** Oldest subscription first: [subscribe] numbers the objects it makes. *)
Definition in_subscription_order (l : list sub) : Prop :=
  StronglySorted (λ x y, (sub_ref x < sub_ref y)%nat) l.

(** The numbers of a bus tell the age of its subscriptions: every array
    is in subscription order and holds numbers already handed out. *)
Definition numbered (b : bus) : Prop :=
  ∀ type, in_subscription_order (registered type b)
          ∧ Forall (λ s, (sub_ref s < next_ref b)%nat) (registered type b).

(** *** Histories *)

Definition run (h : list registration) (b : bus) : bus := foldl register b h.

(** The specification's view: after a history, the subscriptions that
    are still registered, all types together, oldest first.  [n] counts
    the subscriptions made so far. *)
Fixpoint live_from (n : nat) (acc : list sub) (h : list registration) : list sub :=
  match h with
  | [] => acc
  | Subscribe type cb :: h' | Forward _ type cb :: h' =>
      live_from (S n) (acc ++ [Sub n type cb]) h'
  | Unsubscribe s :: h' => live_from n (splice_out s acc) h'
  end.

Definition live (h : list registration) : list sub := live_from 0 [] h.

Definition of_type (type : string) (l : list sub) : list sub :=
  filter (λ s, sub_type s = type) l.

(** [forward] with the types left out. *)
Definition unforward (r : registration) : registration :=
  match r with
  | Forward _ type cb => Subscribe type cb
  | _ => r
  end.

End WithCallbacks.

Arguments payload : clear implicits.
Arguments sub : clear implicits.
Arguments bus : clear implicits.
Arguments event : clear implicits.
Arguments registration : clear implicits.
Arguments call : clear implicits.
Arguments frame : clear implicits.

End Bus.


(** ** Functional stacks ([src/constructs/FunctionalStack.js]) *)

Module FunctionalStack.

Section WithOutputs.
(** [V] is the type of the values a stack definition produces. *)
Context {V : Type}.

(** Applications and stack definitions are JavaScript objects used as
    [Map] keys, so compared by identity: they are named by a reference. *)
Definition app := nat.

(** The [Stack] made by [new EmptyStack(app, id, props)]. *)
Record stack_handle := StackHandle {
  st_app : app;
  st_id : string
}.

(** What remains of [currentStack] when it is read: the definition's
    identity and its [name]. *)
Record fn_handle := FnHandle {
  fh_ref : nat;
  fh_name : string
}.

(** The module's four [let]/[const] bindings, and the names of the stacks
    each application already has as children.  The last one belongs to the
    [constructs] library, which refuses a second child with the name of an
    existing one. *)
Record registry := Registry {
  currentApp : option app;
  currentStack : option fn_handle;
  exportsCache : gmap nat (gmap nat V);
  stackCache : gmap nat (gmap nat stack_handle);
  children : gmap nat (gset string)
}.

Definition empty_registry : registry :=
  {| currentApp := None; currentStack := None; exportsCache := ∅;
     stackCache := ∅; children := ∅ |}.

Definition set_current (a : app) (f : fn_handle) (r : registry) : registry :=
  {| currentApp := Some a; currentStack := Some f;
     exportsCache := exportsCache r; stackCache := stackCache r;
     children := children r |}.

Definition set_exportsCache (c : gmap nat (gmap nat V)) (r : registry) : registry :=
  {| currentApp := currentApp r; currentStack := currentStack r;
     exportsCache := c; stackCache := stackCache r; children := children r |}.

Definition set_stackCache (c : gmap nat (gmap nat stack_handle)) (r : registry)
  : registry :=
  {| currentApp := currentApp r; currentStack := currentStack r;
     exportsCache := exportsCache r; stackCache := c; children := children r |}.

Definition set_children (c : gmap nat (gset string)) (r : registry) : registry :=
  {| currentApp := currentApp r; currentStack := currentStack r;
     exportsCache := exportsCache r; stackCache := stackCache r; children := c |}.

(** What the call [fn.bind(stack)(ctx)] hands back, as the two tests
    [returns && "then" in returns] see it. *)
Inductive returned :=
| RetFalsy (v : V)       (* undefined, null, false, 0, the empty string *)
| RetObject (v : V)      (* an object without a [then] property *)
| RetThenable (data : V) (* an object with one: a promise, fulfilled with [data] if ever *)
| RetPrimitive (v : V).  (* a truthy primitive, on which [in] raises a TypeError *)

Inductive outcome :=
| Throws (message : string)
| Returns (ret : returned).

(** A stack definition: a function object with a [name].  Its body gets
    the context [{ app, stack }] and may read the registry (that is what a
    call of [use] inside it does). *)
Record definition := Definition_ {
  fn_ref : nat;
  fn_name : string;
  fn_body : stack_handle → registry → outcome
}.

Definition handle_of (fn : definition) : fn_handle :=
  {| fh_ref := fn_ref fn; fh_name := fn_name fn |}.

(** The [props] argument of [stack], of which only [id] is read here. *)
Record stack_props := StackProps {
  props_id : option string
}.

Inductive error :=
| StackDuplicates (id : string)
| StackWrongOrder (wanted : string) (current : option string)
| NoAppIsSet
| NameTaken (id : string)
| TypeErrorIn
| Raised (message : string).

(** The promise [returns.then((data) => { getExports(app).set(fn, data) })]
    that [stack] returns for an asynchronous body: its callback has not run
    yet. *)
Record pending := Pending_ {
  pd_app : app;
  pd_fn : definition;
  pd_data : V
}.

Inductive result :=
| Done (a : app)
| Pending (p : pending).

(** [function getExports(app)] *)
Definition getExports (a : app) (r : registry) : gmap nat V * registry :=
  match exportsCache r !! a with
  | Some m => (m, r)
  | None => (∅, set_exportsCache (<[a := ∅]> (exportsCache r)) r)
  end.

(** [function getStacks(app)] *)
Definition getStacks (a : app) (r : registry)
  : gmap nat stack_handle * registry :=
  match stackCache r !! a with
  | Some m => (m, r)
  | None => (∅, set_stackCache (<[a := ∅]> (stackCache r)) r)
  end.

(** [getExports(app).set(fn, data)]: the inner [Map] is the one held by
    the cache, so the cache sees the update. *)
Definition exports_set (a : app) (fn : definition) (data : V) (r : registry)
  : registry :=
  let '(m, r1) := getExports a r in
  set_exportsCache (<[a := <[fn_ref fn := data]> m]> (exportsCache r1)) r1.

(** [getStacks(app).set(fn, stack)] *)
Definition stacks_set (a : app) (fn : definition) (st : stack_handle)
  (r : registry) : registry :=
  let '(m, r1) := getStacks a r in
  set_stackCache (<[a := <[fn_ref fn := st]> m]> (stackCache r1)) r1.

(** [props?.id || fn.name] *)
Definition stack_id (fn : definition) (props : option stack_props) : string :=
  match props with
  | Some {| props_id := Some i |} => if decide (i = "") then fn_name fn else i
  | _ => fn_name fn
  end.

(** [new EmptyStack(app, id, props)]: the stack becomes a child of the
    application, unless a child of that name exists.  The CDK's [Stack]
    also refuses a name that is not a letter followed by letters, digits
    and hyphens; the names here are taken to be of that form. *)
Definition new_EmptyStack (a : app) (id : string) (r : registry)
  : error + stack_handle * registry :=
  let names := default ∅ (children r !! a) in
  if decide (id ∈ names) then inl (NameTaken id)
  else inr ({| st_app := a; st_id := id |},
            set_children (<[a := {[id]} ∪ names]> (children r)) r).

(** [export function stack(app, fn, props)], up to the call of [fn]: the
    duplicate test, the new stack and its entry in the stack cache.  The
    registry is returned also when the call throws: what was assigned
    before stays assigned. *)
Definition enter (a : app) (fn : definition) (props : option stack_props)
  (r : registry) : registry * (error + stack_handle) :=
  let r := set_current a (handle_of fn) r in
  let id := stack_id fn props in
  let '(exports, r) := getExports a r in
  if decide (is_Some (exports !! fn_ref fn)) then (r, inl (StackDuplicates id))
  else
    match new_EmptyStack a id r with
    | inl e => (r, inl e)
    | inr (st, r) => (stacks_set a fn st r, inr st)
    end.

(** [export function stack(app, fn, props)] *)
Definition stack (a : app) (fn : definition) (props : option stack_props)
  (r : registry) : registry * (error + result) :=
  match enter a fn props r with
  | (r, inl e) => (r, inl e)
  | (r, inr st) =>
      match fn_body fn st r with
      | Throws m => (r, inl (Raised m))
      | Returns (RetThenable data) =>
          (r, inr (Pending {| pd_app := a; pd_fn := fn; pd_data := data |}))
      | Returns (RetPrimitive _) => (r, inl TypeErrorIn)
      | Returns (RetFalsy v) | Returns (RetObject v) =>
          (exports_set a fn v r, inr (Done a))
      end
  end.

(** The callback of the promise runs: the body's value is stored. *)
Definition settle (p : pending) (r : registry) : registry :=
  exports_set (pd_app p) (pd_fn p) (pd_data p) r.

(** [export function use(stack)] *)
Definition use (fn : definition) (r : registry) : registry * (error + V) :=
  match currentApp r with
  | None => (r, inl NoAppIsSet)
  | Some a =>
      let '(exports, r1) := getExports a r in
      match exports !! fn_ref fn with
      | None =>
          (r1, inl (StackWrongOrder (fn_name fn) (fh_name <$> currentStack r1)))
      | Some v => (r1, inr v)
      end
  end.

(** [export function getStack(stack)] *)
Definition getStack (fn : definition) (r : registry)
  : registry * (error + stack_handle) :=
  match currentApp r with
  | None => (r, inl NoAppIsSet)
  | Some a =>
      let '(stacks, r1) := getStacks a r in
      match stacks !! fn_ref fn with
      | None =>
          (r1, inl (StackWrongOrder (fn_name fn) (fh_name <$> currentStack r1)))
      | Some st => (r1, inr st)
      end
  end.

(** The value a returned object or falsy value stands for. *)
Definition plain_value (ret : returned) : option V :=
  match ret with
  | RetFalsy v | RetObject v => Some v
  | _ => None
  end.

(** The output stored for [fn] under application [a], if any. *)
Definition exported (a : app) (fn : definition) (r : registry) : option V :=
  exportsCache r !! a ≫= λ m, m !! fn_ref fn.

End WithOutputs.

Arguments registry : clear implicits.
Arguments returned : clear implicits.
Arguments outcome : clear implicits.
Arguments definition : clear implicits.
Arguments pending : clear implicits.
Arguments result : clear implicits.

End FunctionalStack.


(** ** What the site constructs share ([src/constructs/BaseSite.js]) *)

Module BaseSite.

(** A JavaScript object with string values, as [Object.entries] lists it.
    An object holds a key once. *)
Definition environment := list (string * string).

(** The template literal [`{{ ${key} }}`]. *)
Definition token_of (key : string) : string := "{{ " +:+ key +:+ " }}".


(** [{ ...a, ...b }]: the entries of [b] win. *)
Definition spread (a b : gmap string string) : gmap string string := b ∪ a.

(** *** The file system *)

(** Regular files with their contents, and directories, by path. *)
Record filesystem := FileSystem {
  files : gmap string string;
  dirs : gset string
}.

Definition all_paths (fs : filesystem) : gset string := dom (files fs) ∪ dirs fs.

(** [fs.existsSync(p)] *)
Definition existsSync (fs : filesystem) (p : string) : bool :=
  bool_decide (p ∈ all_paths fs).

(** [path.join] and [path.posix.join] on segments that need no more
    normalising than this: empty segments and ["."] vanish.  Segments
    that end in ["/"] or hold [".."] or ["//"], which Node brings to
    normal form, are outside of what is modelled. *)
Definition path_join (segments : list string) : string :=
  match filter (λ s, s ≠ "" ∧ s ≠ ".") segments with
  | [] => "."
  | s :: rest => foldl (λ acc x, acc +:+ "/" +:+ x) s rest
  end.

(** What is left of [p] once the prefix [pre] is taken off. *)
Fixpoint strip_prefix (pre p : string) : option string :=
  match pre, p with
  | EmptyString, _ => Some p
  | String a pre', String b p' =>
      if decide (a = b) then strip_prefix pre' p' else None
  | String _ _, EmptyString => None
  end.

(** The path of [p] relative to the directory [dir], when [p] is below it. *)
Definition below (dir p : string) : option string :=
  strip_prefix (dir +:+ "/") p.

Fixpoint has_slash (s : string) : bool :=
  match s with
  | EmptyString => false
  | String a s' => if decide (a = "/"%char) then true else has_slash s'
  end.

(** [fs.readdirSync(dir)]: the names of what is directly in [dir]. *)
Definition readdirSync (fs : filesystem) (dir : string) : list string :=
  omap (λ p, below dir p ≫= λ name,
               if has_slash name || bool_decide (name = "") then None
               else Some name)
       (elements (all_paths fs)).

(** [fs.statSync(p).isDirectory()] *)
Definition isDirectory (fs : filesystem) (p : string) : bool :=
  bool_decide (p ∈ dirs fs).

(** The regular files below [cwd], by relative path: what the pattern
    ["**"] matches under the options [{ dot, nodir, follow, cwd }]. *)
Definition relative_files (fs : filesystem) (cwd : string) : gset string :=
  set_omap (below cwd) (dom (files fs)).

(** [fs.rmSync(p, { recursive: true, force: true })] *)
Definition rmSync (p : string) (fs : filesystem) : filesystem :=
  let gone (q : string) : Prop := q = p ∨ is_Some (below p q) in
  {| files := filter (λ kv, ¬ gone kv.1) (files fs);
     dirs := filter (λ q, ¬ gone q) (dirs fs) |}.

(** [fs.writeFileSync(p, content)] *)
Definition writeFileSync (p content : string) (fs : filesystem) : filesystem :=
  {| files := <[p := content]> (files fs); dirs := dirs fs |}.

(** The prefixes of [p] that end before a ["/"], shortest first; [acc]
    is what has been read. *)
Fixpoint before_slashes (acc p : string) : list string :=
  match p with
  | EmptyString => []
  | String a p' =>
      (if decide (a = "/"%char) then [acc] else [])
      ++ before_slashes (acc +:+ String a EmptyString) p'
  end.

(** [path.dirname(p)] for a path that ends in a name. *)
Definition dirname (p : string) : string :=
  match last (before_slashes "" p) with
  | None => "."
  | Some d => if decide (d = "") then "/" else d
  end.

(** The directories [fs.mkdirSync(dir, { recursive: true })] needs:
    [dir] and what it is below. *)
Definition on_the_way (dir : string) : list string :=
  filter (λ d, d ≠ "") (before_slashes "" dir) ++ [dir].

(** [fs.mkdirSync(dir, { recursive: true })]: the directories that are
    missing on the way to [dir], and [dir].  [None] when a regular file
    is in the way: Node throws and has made nothing. *)
Definition mkdirSync (dir : string) (fs : filesystem) : option filesystem :=
  if bool_decide (Exists (λ d, d ∈ dom (files fs)) (on_the_way dir)) then None
  else Some {| files := files fs;
               dirs := dirs fs ∪ list_to_set (on_the_way dir) |}.

(** *** What the constructs call outside the repository *)

(** The CDK's [Token.isUnresolved]; [toCdkDuration(d).toSeconds()] of
    [util/duration.js]; the digests of [crypto]; the order in which [glob]
    lists a set of matches; whether the text of a [package.json] parses to
    something with a [scripts.build] ([None] when [JSON.parse] throws on
    it, or reading [scripts] of what it gives); the [assetHash] the CDK gives an
    [Asset], from what its file holds; the build command run by
    [execSync(command, { cwd, env })], with the file system it leaves
    ([None] when it fails); and the archiver
    [support/base-site-archiver.mjs], with its exit status. *)
Record externals := Externals {
  isUnresolved : string → bool;
  toCdkDuration : string → Z;
  sha1_hex : string → string;
  md5_hex : string → string;
  glob_order : gset string → list string;
  hasBuildScript : string → option bool;
  assetHash : option string → string;
  execSync : string → string → gmap string string → filesystem → option filesystem;
  archiver : list (string * string) → string → Z → filesystem → Z * filesystem
}.

(** [export function getBuildCmdEnvironment(siteEnvironment)] *)
Definition getBuildCmdEnvironment (X : externals)
  (siteEnvironment : option environment) : gmap string string :=
  foldl (λ buildCmdEnvironment '(key, value),
           <[key := if isUnresolved X value then token_of key else value]>
             buildCmdEnvironment)
        ∅ (default [] siteEnvironment).

(** [glob.sync("**", { dot: true, nodir: true, follow: true, cwd })] *)
Definition glob_sync (X : externals) (fs : filesystem) (cwd : string) : list string :=
  glob_order X (relative_files fs cwd).

(** *** Archive parts *)

(** [path.join(zipOutDir, `part${partId}.zip`)] *)
Definition zipFilePath (zipOutDir : string) (partId : nat) : string :=
  zipOutDir +:+ "/" +:+ ("part" +:+ pretty partId +:+ ".zip").

(** The [Asset] made for one part. *)
Record asset := Asset {
  asset_id : string;
  asset_path : string
}.

(** [new Asset(this, `Asset${partId}`, { path: zipFilePath })] *)
Definition part (zipOutDir : string) (partId : nat) : asset :=
  {| asset_id := "Asset" +:+ pretty partId;
     asset_path := zipFilePath zipOutDir partId |}.

(** The loop [for (let partId = 0;; partId++)] that both constructs end
    [createS3Assets] with, started at [partId].  It has no bound of its
    own; [fuel] bounds the iterations here, and [discover_parts] gives it
    more than the loop can use. *)
Fixpoint probe_parts (fuel : nat) (fs : filesystem) (zipOutDir : string)
  (partId : nat) : list asset :=
  match fuel with
  | O => []
  | S fuel' =>
      if existsSync fs (zipFilePath zipOutDir partId)
      then part zipOutDir partId :: probe_parts fuel' fs zipOutDir (S partId)
      else []
  end.

Definition discover_parts (fs : filesystem) (zipOutDir : string) : list asset :=
  probe_parts (S (size (all_paths fs))) fs zipOutDir 0.

(** *** Replacement rules *)

(** One entry of [ReplaceValues]. *)
Record replace_value := ReplaceValue {
  rv_files : string;
  rv_search : string;
  rv_replace : string
}.

#[global] Instance replace_value_eq_dec : EqDecision replace_value.
Proof. solve_decision. Defined.

(** One entry of [fileOptions]. *)
Record file_option := FileOption {
  fo_exclude : list string;
  fo_include : list string;
  fo_cacheControl : string;
  fo_contentType : option string
}.

(** [FileOptions: (fileOptions || []).map(...)]: the flags given to the
    uploader for one entry. *)
Definition file_option_flags (o : file_option) : list string :=
  concat (map (λ per, ["--exclude"; per]) (fo_exclude o))
  ++ concat (map (λ per, ["--include"; per]) (fo_include o))
  ++ ["--cache-control"; fo_cacheControl o]
  ++ match fo_contentType o with
     | Some c => if decide (c = "") then [] else ["--content-type"; c]
     | None => []
     end.

(** *** Effects *)

(** What a construct does to the world outside it, and the resources it
    declares, in the order it does so. *)
Inductive effect :=
| Wrote (path : string)
| Registered (stackName id : string)
| Created (kind id : string)
| FunctionBuilt (id : string)
| Executed (command cwd : string) (env : gmap string string)
| Removed (path : string)
| Archived (sources : list (string * string)) (zipOutDir : string) (limit : Z)
| AssetCreated (a : asset)
| DeploymentCreated (sources : list asset) (fileOptions : list (list string))
    (replaceValues : list replace_value)
| BehaviorAdded (pattern : string)
| InvalidationCreated (buildId : string).

Inductive error :=
| NoSiteFound (path : string)
| TimeoutTooLarge (edge : bool)
| NoPackageJson (path : string)
| NoBuildScript (path : string)
| BuildFailed (id : string)
| NoServerBuildOutput (file : string)
| NoBuildOutput (path : string)
| PackageFailed (id : string)
| WarmingNotSupported (id : string)
| SystemError (syscall path : string)
| JsonError (path : string).

(** Computations that read and write the file system, leave a trace of
    effects and may throw. *)
Definition M (A : Type) : Type :=
  filesystem → list effect * filesystem * (error + A).

Definition ret {A} (a : A) : M A := λ fs, ([], fs, inr a).

Definition bind {A B} (m : M A) (k : A → M B) : M B := λ fs,
  match m fs with
  | (es, fs1, inl e) => (es, fs1, inl e)
  | (es, fs1, inr a) =>
      match k a fs1 with
      | (es', fs2, r) => (es ++ es', fs2, r)
      end
  end.

Definition throw {A} (e : error) : M A := λ fs, ([], fs, inl e).
Definition emit (e : effect) : M unit := λ fs, ([e], fs, inr tt).
Definition read_fs : M filesystem := λ fs, ([], fs, inr fs).
Definition write_fs (fs' : filesystem) : M unit := λ _, ([], fs', inr tt).

(** [for (const x of l) f(x)] *)
Fixpoint for_each {A} (f : A → M unit) (l : list A) : M unit :=
  match l with
  | [] => ret tt
  | x :: l' => bind (f x) (λ _, for_each f l')
  end.

Definition trace {A} (r : list effect * filesystem * (error + A)) : list effect :=
  r.1.1.

Definition outcome {A} (r : list effect * filesystem * (error + A)) : error + A :=
  r.2.

Declare Scope site_scope.
Delimit Scope site_scope with site.
Notation "'let*' x := m 'in' k" := (bind m (λ x, k))
  (at level 10, x name, m at level 100, k at level 200, only parsing) : site_scope.
Notation "'let*' ( x , y ) := m 'in' k" := (bind m (λ '(x, y), k))
  (at level 10, x name, y name, m at level 100, k at level 200, only parsing)
  : site_scope.
Notation "m >> k" := (bind m (λ _, k))
  (at level 100, k at level 200, right associativity, only parsing) : site_scope.

(** The environment a build command was given, for the effect of running
    one. *)
Definition executed_env (e : effect) : option (gmap string string) :=
  match e with
  | Executed _ _ env => Some env
  | _ => None
  end.

(** The effects that start a child process. *)
Definition is_process (e : effect) : bool :=
  match e with
  | Executed _ _ _ | Archived _ _ _ => true
  | _ => false
  end.

(** The effects of the deployment path: the build command, the archives,
    the uploads and the CDN wiring. *)
Definition is_deployment (e : effect) : bool :=
  match e with
  | Executed _ _ _ | Archived _ _ _ | AssetCreated _
  | DeploymentCreated _ _ _ | BehaviorAdded _ | InvalidationCreated _ => true
  | Created _ id =>
      bool_decide (id ∈ ["S3Bucket"; "CDN"; "AwsCliLayer"; "S3Uploader";
                         "S3Handler"; "AssetFilenames"])
  | _ => false
  end.

End BaseSite.


(** ** Server-rendered sites ([src/constructs/SsrSite.js]) *)

Module SsrSite.
Import BaseSite.
Open Scope site_scope.

(** [timeout?: number | Duration] *)
Inductive timeout_value :=
| Seconds (n : Z)
| Duration (d : string).

(** The [dev] property. *)
Record dev_props := DevProps {
  deploy : option bool;
  dev_url : option string
}.

(** The [props] argument, as far as the construct reads it here. *)
Record site_props := SiteProps {
  cdk_id : option string;
  path : option string;
  timeout : option timeout_value;
  edge : option bool;
  buildCommand : option string;
  environment : option environment;
  dev : option dev_props;
  warm : option Z;
  fileOptions : option (list file_option);
  sstTestFileSizeLimitOverride : option Z
}.

(** [this.props = { path: ".", timeout: "10 seconds", ..., ...props }] *)
Definition props_path (p : site_props) : string := default "." (path p).
Definition props_timeout (p : site_props) : timeout_value :=
  default (Duration "10 seconds") (timeout p).
(** [props.edge] as a condition *)
Definition props_edge (p : site_props) : bool := default false (edge p).
(** [this.props.dev?.deploy] as a condition *)
Definition dev_deploy (p : site_props) : bool := default false (dev p ≫= deploy).
(** [this.props.dev?.url] *)
Definition props_dev_url (p : site_props) : option string := dev p ≫= dev_url.

(** The timeout of the props in seconds, and its ceiling. *)
Definition timeout_seconds (X : externals) (p : site_props) : Z :=
  match props_timeout p with
  | Seconds n => n
  | Duration d => toCdkDuration X d
  end.

Definition timeout_ceiling (p : site_props) : Z :=
  if props_edge p then 30 else 180.

(** [this.buildConfig], the result of [initBuildConfig()]. *)
Record build_config := BuildConfig {
  typesPath : string;
  serverBuildOutputFile : string;
  clientBuildOutputDir : string;
  clientBuildVersionedSubDir : string;
  clientBuildS3KeyPrefix : option string;
  prerenderedBuildOutputDir : option string;
  prerenderedBuildS3KeyPrefix : option string
}.

(** [initBuildConfig()] as [SsrSite] itself has it.  The framework
    constructs that extend [SsrSite] override it, as they do the two
    methods that declare the server function: the ones here return an
    empty object, which can be neither granted permissions nor built. *)
Definition placeholder_buildConfig : build_config :=
  {| typesPath := "."; serverBuildOutputFile := "placeholder";
     clientBuildOutputDir := "placeholder";
     clientBuildVersionedSubDir := "placeholder";
     clientBuildS3KeyPrefix := None; prerenderedBuildOutputDir := None;
     prerenderedBuildS3KeyPrefix := None |}.

(** What the construct finds around it: its stack and application, its
    place in the construct tree, the project, the process, and the URLs
    its distribution will have once there is one. *)
Record context := Context {
  stack_isActive : bool;
  stack_name : string;
  app_mode : string;
  app_isRunningSSTTest : bool;
  node_addr : string;
  artifacts : string;
  process_env : gmap string string;
  distribution_url : string;
  distribution_customDomainUrl : option string
}.

(** The fields of the object the constructor fills in. *)
Record site := Site {
  id : string;
  node_id : string;
  props : site_props;
  doNotDeploy : bool;
  buildConfig : build_config;
  has_serverLambdaForDev : bool;
  has_bucket : bool;
  has_distribution : bool
}.

(** [path.join(this.props.path, this.buildConfig.clientBuildOutputDir)] *)
Definition clientPath (s : site) : string :=
  path_join [props_path (props s); clientBuildOutputDir (buildConfig s)].

(** The closures handed to [useDeferredTasks().add]. *)
Inductive task :=
| BuildDevFunction
| DeploySite (s : site).


Section WithExternals.
Variable X : externals.
Variable ctx : context.
(** The framework's [initBuildConfig()]. *)
Variable initBuildConfig : build_config.

(** [validateSiteExists()] *)
Definition validateSiteExists (p : site_props) : M unit :=
  let* fs := read_fs in
  if existsSync fs (props_path p) then ret tt
  else throw (NoSiteFound (props_path p)).

(** [validateTimeout()] *)
Definition validateTimeout (p : site_props) : error + unit :=
  let num :=
    match props_timeout p with
    | Seconds n => n
    | Duration d => toCdkDuration X d
    end in
  let limit := if props_edge p then 30%Z else 180%Z in
  if decide (num > limit)%Z then inl (TimeoutTooLarge (props_edge p))
  else inr tt.

Definition lift {A} (r : error + A) : M A :=
  match r with inl e => throw e | inr a => ret a end.

(** [writeTypesFile()]: the file is written unless it is there already.
    Its text refers to the project root and plays no part below. *)
Definition writeTypesFile (p : site_props) (c : build_config) : M unit :=
  let typesPath := path_join [props_path p; typesPath c; "sst-env.d.ts"] in
  let* fs := read_fs in
  if existsSync fs typesPath then ret tt
  else write_fs (writeFileSync typesPath "/// <reference path />" fs) >>
       emit (Wrote typesPath).

(** [createFunctionForDev()]: a role, the placeholder function, and a
    deferred task that builds the latter. *)
Definition createFunctionForDev : M (list task) :=
  emit (Created "Role" "ServerFunctionRole") >>
  emit (Created "SsrFunction" "ServerFunction") >>
  ret [BuildDevFunction].

(** [constructor(scope, id, props)].  With the site come the tasks it
    added to the application's deferred tasks.  The server function is
    declared by the framework's [createFunctionForEdge()] or
    [createFunctionForRegional()]. *)
Definition construct (id : string) (p : site_props) : M (site * list task) :=
  let node_id := match cdk_id p with
                 | Some i => if decide (i = "") then id else i
                 | None => id
                 end in
  let doNotDeploy :=
    negb (stack_isActive ctx)
    || (bool_decide (app_mode ctx = "dev") && negb (dev_deploy p)) in
  let buildConfig := initBuildConfig in
  validateSiteExists p >>
  lift (validateTimeout p) >>
  writeTypesFile p buildConfig >>
  emit (Registered (stack_name ctx) id) >>
  if doNotDeploy then
    let* tasks := createFunctionForDev in
    ret ({| id := id; node_id := node_id; props := p; doNotDeploy := true;
            buildConfig := buildConfig; has_serverLambdaForDev := true;
            has_bucket := false; has_distribution := false |}, tasks)
  else
    let s := {| id := id; node_id := node_id; props := p; doNotDeploy := false;
                buildConfig := buildConfig; has_serverLambdaForDev := false;
                has_bucket := true; has_distribution := true |} in
    emit (Created "Bucket" "S3Bucket") >>
    emit (Created (if props_edge p then "EdgeFunction" else "SsrFunction")
                  "ServerFunction") >>
    emit (Created "CachePolicy" "ServerCache") >>
    emit (Created "CfFunction" "CloudFrontFunction") >>
    emit (Created "Distribution" "CDN") >>
    emit (Created "Policy" "ServerFunctionInvalidatorPolicy") >>
    ret (s, [DeploySite s]).

(** [get url()] *)
Definition url (s : site) : option string :=
  if doNotDeploy s then props_dev_url (props s)
  else Some (distribution_url ctx).

(** [get customDomainUrl()] *)
Definition customDomainUrl (s : site) : option string :=
  if doNotDeploy s then None else distribution_customDomainUrl ctx.

(** The entry [variables.url] of [getFunctionBinding()]. *)
Record binding_variable := BindingVariable {
  bv_type : string;
  bv_value : option string
}.

Definition getFunctionBinding_url (s : site) : binding_variable :=
  if doNotDeploy s then
    {| bv_type := "plain";
       bv_value := Some (default "localhost" (props_dev_url (props s))) |}
  else
    {| bv_type := "site_url";
       bv_value := match customDomainUrl s with
                   | Some u => if decide (u = "") then url s else Some u
                   | None => url s
                   end |}.

(** The [env] option of [execSync] in [runBuild()]. *)
Definition runBuild_env (p : site_props) : gmap string string :=
  spread (spread {["SST" := "1"]} (process_env ctx))
         (getBuildCmdEnvironment X (environment p)).

(** [runBuild()].  A [package.json] that is a directory makes
    [readFileSync] throw, and one that does not parse makes [JSON.parse]
    throw, before the build script is looked for. *)
Definition runBuild (s : site) : M unit :=
  let sitePath := props_path (props s) in
  let defaultCommand := "npm run build" in
  let buildCommand :=
    match buildCommand (props s) with
    | Some c => if decide (c = "") then defaultCommand else c
    | None => defaultCommand
    end in
  (if decide (buildCommand = defaultCommand) then
     let* fs := read_fs in
     let packageJson := path_join [sitePath; "package.json"] in
     if negb (existsSync fs packageJson) then throw (NoPackageJson sitePath)
     else
       match files fs !! packageJson with
       | None => throw (SystemError "read" packageJson)
       | Some text =>
           match hasBuildScript X text with
           | None => throw (JsonError packageJson)
           | Some true => ret tt
           | Some false => throw (NoBuildScript sitePath)
           end
       end
   else ret tt) >>
  emit (Executed buildCommand sitePath (runBuild_env (props s))) >>
  let* fs := read_fs in
  match execSync X buildCommand sitePath (runBuild_env (props s)) fs with
  | Some fs' => write_fs fs'
  | None => throw (BuildFailed (node_id s))
  end.

(** [validateBuildOutput()] *)
Definition validateBuildOutput (s : site) : M unit :=
  let serverBuildFile :=
    path_join [props_path (props s); serverBuildOutputFile (buildConfig s)] in
  let* fs := read_fs in
  if existsSync fs serverBuildFile then ret tt
  else throw (NoServerBuildOutput serverBuildFile).

(** [buildApp()] *)
Definition buildApp (s : site) : M unit :=
  (if app_isRunningSSTTest ctx then ret tt else runBuild s) >>
  validateBuildOutput s.

(** [createWarmer()] *)
Definition createWarmer (s : site) : M unit :=
  match warm (props s) with
  | None => ret tt
  | Some w =>
      if decide (w = 0)%Z then ret tt
      else if props_edge (props s) then throw (WarmingNotSupported (node_id s))
      else
        emit (Created "Function" "WarmerFunction") >>
        emit (Created "Rule" "WarmerRule") >>
        emit (Created "Policy" "PrewarmerPolicy") >>
        emit (Created "CustomResource" "Prewarmer")
  end.

(** In [createS3Assets()]: the temporary folder, the size limit and the
    directories handed to the archiver. *)
Definition zipOutDir (s : site) : string :=
  path_join [artifacts ctx; "Site-" +:+ node_id s +:+ "-" +:+ node_addr ctx].

Definition fileSizeLimit (s : site) : Z :=
  if app_isRunningSSTTest ctx then
    match sstTestFileSizeLimitOverride (props s) with
    | Some n => if decide (n = 0)%Z then 200%Z else n
    | None => 200%Z
    end
  else 200%Z.

Definition archive_sources (s : site) : list (string * string) :=
  (clientPath s, default "" (clientBuildS3KeyPrefix (buildConfig s)))
  :: match prerenderedBuildOutputDir (buildConfig s) with
     | Some d =>
         if decide (d = "") then []
         else [(path_join [props_path (props s); d],
                default "" (prerenderedBuildS3KeyPrefix (buildConfig s)))]
     | None => []
     end.

(** [createS3Assets()] *)
Definition createS3Assets (s : site) : M (list asset) :=
  let* fs := read_fs in
  write_fs (rmSync (zipOutDir s) fs) >>
  emit (Removed (zipOutDir s)) >>
  emit (Archived (archive_sources s) (zipOutDir s) (fileSizeLimit s)) >>
  let* fs := read_fs in
  let result := archiver X (archive_sources s) (zipOutDir s) (fileSizeLimit s) fs in
  write_fs result.2 >>
  if decide (result.1 ≠ 0)%Z then throw (PackageFailed (node_id s))
  else
    let assets := discover_parts result.2 (zipOutDir s) in
    for_each (λ a, emit (AssetCreated a)) assets >>
    ret assets.

(** [createS3AssetFileOptions()] *)
Definition createS3AssetFileOptions (s : site) : M (list file_option) :=
  match fileOptions (props s) with
  | Some o => ret o
  | None =>
      let prefix := default "" (clientBuildS3KeyPrefix (buildConfig s)) in
      let clientPath := clientPath s in
      let* fs := read_fs in
      ret (map (λ item,
                  if decide (item = clientBuildVersionedSubDir (buildConfig s)) then
                    {| fo_exclude := ["*"];
                       fo_include := [path_join [prefix; item; "*"]];
                       fo_cacheControl := "public,max-age=31536000,immutable";
                       fo_contentType := None |}
                  else
                    {| fo_exclude := ["*"];
                       fo_include :=
                         [path_join [prefix; item;
                                     if isDirectory fs (path_join [clientPath; item])
                                     then "*" else ""]];
                       fo_cacheControl :=
                         "public,max-age=0,s-maxage=31536000,must-revalidate";
                       fo_contentType := None |})
               (readdirSync fs clientPath))
  end.

(** [getS3ContentReplaceValues()] *)
Definition getS3ContentReplaceValues (p : site_props) : list replace_value :=
  concat
    (map (λ '(key, value),
            let token := token_of key in
            [ {| rv_files := "**/*.html"; rv_search := token; rv_replace := value |};
              {| rv_files := "**/*.js"; rv_search := token; rv_replace := value |};
              {| rv_files := "**/*.json"; rv_search := token; rv_replace := value |} ])
         (filter (λ kv, isUnresolved X kv.2 = true) (default [] (environment p)))).

(** [createS3Deployment(cliLayer, assets, fileOptions)] *)
Definition createS3Deployment (s : site) (assets : list asset)
  (fileOptions : list file_option) : M unit :=
  emit (Created "Function" "S3Uploader") >>
  emit (Created "Function" "S3Handler") >>
  emit (DeploymentCreated assets (map file_option_flags fileOptions)
          (getS3ContentReplaceValues (props s))).

(** [addStaticFileBehaviors()] *)
Definition addStaticFileBehaviors (s : site) : M unit :=
  let publicDir := clientPath s in
  let* fs := read_fs in
  for_each (λ item,
              emit (BehaviorAdded
                      (if isDirectory fs (path_join [publicDir; item])
                       then item +:+ "/*" else item)))
           (readdirSync fs publicDir).

(** [generateBuildId()]: every listed path goes through [hash.update],
    which is to hash their concatenation. *)
Definition generateBuildId (s : site) (fs : filesystem) : string :=
  let cwd := clientPath s in
  let files := glob_sync X fs cwd in
  sha1_hex X (foldl (λ hash file, hash +:+ file) "" files).

(** The task the constructor defers for a site that is deployed. *)
Definition deploy_task (s : site) : M unit :=
  buildApp s >>
  emit (FunctionBuilt "ServerFunction") >>
  createWarmer s >>
  emit (Created "AwsCliLayer" "AwsCliLayer") >>
  let* assets := createS3Assets s in
  let* assetFileOptions := createS3AssetFileOptions s in
  createS3Deployment s assets assetFileOptions >>
  addStaticFileBehaviors s >>
  let* fs := read_fs in
  emit (InvalidationCreated (generateBuildId s fs)).

Definition run_task (t : task) : M unit :=
  match t with
  | BuildDevFunction => emit (FunctionBuilt "ServerFunction")
  | DeploySite s => deploy_task s
  end.

(** The deferred tasks run one after the other; the first that throws
    ends the run. *)
Definition drain (tasks : list task) : M unit := for_each run_task tasks.

(** A construct from its declaration to the end of its deferred tasks. *)
Definition declare_and_build (id : string) (p : site_props) : M site :=
  let* (s, tasks) := construct id p in
  drain tasks >>
  ret s.

End WithExternals.

End SsrSite.


(** ** Static sites (the [StaticSite] construct) *)

Module StaticSite.
Import BaseSite.
Open Scope site_scope.

Record dev_props := DevProps {
  deploy : option bool;
  dev_url : option string
}.

Record site_props := SiteProps {
  cdk_id : option string;
  path : option string;
  buildCommand : option string;
  buildOutput : option string;
  environment : option environment;
  dev : option dev_props;
  replaceValues : option (list replace_value);
  purgeFiles : option bool;
  fileOptions : option (list file_option);
  vite_types : option string;
  sstTestFileSizeLimitOverride : option Z;
  customDomain : option string
}.

(** [this.props = { path: ".", waitForInvalidation: false, ...props }] *)
Definition props_path (p : site_props) : string := default "." (path p).
Definition dev_deploy (p : site_props) : bool := default false (dev p ≫= deploy).
Definition props_dev_url (p : site_props) : option string := dev p ≫= dev_url.

Record context := Context {
  stack_isActive : bool;
  stack_name : string;
  app_mode : string;
  app_isRunningSSTTest : bool;
  node_addr : string;
  artifacts : string;
  process_env : gmap string string;
  distribution_url : string
}.

Record site := Site {
  id : string;
  node_id : string;
  props : site_props;
  doNotDeploy : bool;
  has_bucket : bool;
  has_distribution : bool
}.

Inductive task :=
| DeploySite (s : site).

Section WithExternals.
Variable X : externals.
Variable ctx : context.

(** [generateViteTypes()]: the types file is written where
    [vite.types] says or, when a Vite configuration is found, at
    ["src/sst-env.d.ts"], after the directory it goes to has been made.
    What the file holds after its first line (the keys of [environment],
    as an interface) is left out. *)
Definition generateViteTypes (p : site_props) : M unit :=
  let sitePath := props_path p in
  let* fs := read_fs in
  let typesPath :=
    match vite_types p with
    | Some t => if decide (t = "") then None else Some t
    | None => None
    end in
  let typesPath :=
    match typesPath with
    | Some t => Some t
    | None =>
        if existsSync fs (path_join [sitePath; "vite.config.js"])
           || existsSync fs (path_join [sitePath; "vite.config.ts"])
        then Some "src/sst-env.d.ts" else None
    end in
  match typesPath with
  | None => ret tt
  | Some t =>
      let filePath := path_join [sitePath; t] in
      let fileDir := dirname filePath in
      match mkdirSync fileDir fs with
      | None => throw (SystemError "mkdir" fileDir)
      | Some fs' =>
          if isDirectory fs' filePath then throw (SystemError "open" filePath)
          else
            write_fs (writeFileSync filePath "/// <reference types=vite/client />" fs') >>
            emit (Wrote filePath)
      end
  end.

(** [constructor(scope, id, props)] *)
Definition construct (id : string) (p : site_props) : M (site * list task) :=
  let node_id := match cdk_id p with
                 | Some i => if decide (i = "") then id else i
                 | None => id
                 end in
  let doNotDeploy :=
    negb (stack_isActive ctx)
    || (bool_decide (app_mode ctx = "dev") && negb (dev_deploy p)) in
  generateViteTypes p >>
  emit (Registered (stack_name ctx) id) >>
  if doNotDeploy then
    ret ({| id := id; node_id := node_id; props := p; doNotDeploy := true;
            has_bucket := false; has_distribution := false |}, [])
  else
    let s := {| id := id; node_id := node_id; props := p; doNotDeploy := false;
                has_bucket := true; has_distribution := true |} in
    emit (Created "Bucket" "S3Bucket") >>
    emit (Created "CfFunction" "CloudFrontFunction") >>
    emit (Created "Distribution" "CDN") >>
    ret (s, [DeploySite s]).

(** [get url()] *)
Definition url (s : site) : option string :=
  if doNotDeploy s then props_dev_url (props s)
  else Some (distribution_url ctx).

(** [get customDomainUrl()] *)
Definition customDomainUrl (s : site) : option string :=
  if doNotDeploy s then None
  else match customDomain (props s) with
       | Some d => if decide (d = "") then None else Some ("https://" +:+ d)
       | None => None
       end.

Record binding_variable := BindingVariable {
  bv_type : string;
  bv_value : option string
}.

(** The entry [variables.url] of [getFunctionBinding()]. *)
Definition getFunctionBinding_url (s : site) : binding_variable :=
  if doNotDeploy s then
    {| bv_type := "plain";
       bv_value := Some (default "localhost" (props_dev_url (props s))) |}
  else
    {| bv_type := "site_url";
       bv_value := match customDomainUrl s with
                   | Some u => Some u
                   | None => url s
                   end |}.

(** The [env] option of [execSync] in [buildApp()]. *)
Definition buildApp_env (p : site_props) : gmap string string :=
  spread (process_env ctx) (getBuildCmdEnvironment X (environment p)).

(** [buildApp()] *)
Definition buildApp (s : site) : M unit :=
  let sitePath := props_path (props s) in
  let* fs := read_fs in
  if negb (existsSync fs sitePath) then throw (NoSiteFound sitePath)
  else
    match buildCommand (props s) with
    | None => ret tt
    | Some c =>
        if decide (c = "") then ret tt
        else
          emit (Executed c sitePath (buildApp_env (props s))) >>
          match execSync X c sitePath (buildApp_env (props s)) fs with
          | Some fs' => write_fs fs'
          | None => throw (BuildFailed (node_id s))
          end
    end.

Definition zipPath (s : site) : string :=
  path_join [artifacts ctx; "StaticSite-" +:+ node_id s +:+ "-" +:+ node_addr ctx].

(** In [createS3Assets()]: the build output and the size limit. *)
Definition siteOutputPath (s : site) : string :=
  path_join [props_path (props s); default "." (buildOutput (props s))].

Definition fileSizeLimit (s : site) : Z :=
  if app_isRunningSSTTest ctx then
    match sstTestFileSizeLimitOverride (props s) with
    | Some n => if decide (n = 0)%Z then 200%Z else n
    | None => 200%Z
    end
  else 200%Z.

(** [createS3Assets()] *)
Definition createS3Assets (s : site) : M (list asset) :=
  let* fs := read_fs in
  if negb (existsSync fs (siteOutputPath s))
  then throw (NoBuildOutput (siteOutputPath s))
  else
    write_fs (rmSync (zipPath s) fs) >>
    emit (Removed (zipPath s)) >>
    emit (Archived [(siteOutputPath s, "")] (zipPath s) (fileSizeLimit s)) >>
    let* fs := read_fs in
    let result := archiver X [(siteOutputPath s, "")] (zipPath s) (fileSizeLimit s) fs in
    write_fs result.2 >>
    if decide (result.1 ≠ 0)%Z then throw (PackageFailed (node_id s))
    else
      let assets := discover_parts result.2 (zipPath s) in
      for_each (λ a, emit (AssetCreated a)) assets >>
      ret assets.

(** [bundleFilenamesAsset()] *)
Definition bundleFilenamesAsset (s : site) : M (option asset) :=
  if decide (purgeFiles (props s) = Some false) then ret None
  else
    let filenamesPath := path_join [zipPath s; "filenames"] in
    let* fs := read_fs in
    if negb (existsSync fs filenamesPath) then throw (PackageFailed (node_id s))
    else
      let a := {| asset_id := "AssetFilenames"; asset_path := filenamesPath |} in
      emit (Created "Asset" "AssetFilenames") >>
      ret (Some a).

(** [getS3ContentReplaceValues()].  The rules are pushed onto
    [this.props.replaceValues] itself when the props have one. *)
Definition getS3ContentReplaceValues (p : site_props) : list replace_value :=
  default [] (replaceValues p)
  ++ concat
       (map (λ '(key, value),
               let token := token_of key in
               [ {| rv_files := "**/*.html"; rv_search := token; rv_replace := value |};
                 {| rv_files := "**/*.js"; rv_search := token; rv_replace := value |} ])
            (filter (λ kv, isUnresolved X kv.2 = true) (default [] (environment p)))).

Definition default_fileOptions : list file_option :=
  [ {| fo_exclude := ["*"]; fo_include := ["*.html"];
       fo_cacheControl := "max-age=0,no-cache,no-store,must-revalidate";
       fo_contentType := None |};
    {| fo_exclude := ["*"]; fo_include := ["*.js"; "*.css"];
       fo_cacheControl := "max-age=31536000,public,immutable";
       fo_contentType := None |} ].

(** [createS3Deployment(cliLayer, assets, filenamesAsset)] *)
Definition createS3Deployment (s : site) (assets : list asset)
  (filenamesAsset : option asset) : M unit :=
  let fileOptions := default default_fileOptions (fileOptions (props s)) in
  emit (Created "Function" "S3Uploader") >>
  emit (Created "Function" "S3Handler") >>
  emit (DeploymentCreated assets (map file_option_flags fileOptions)
          (getS3ContentReplaceValues (props s))).

(** [generateInvalidationId(assets)] *)
Definition generateInvalidationId (fs : filesystem) (assets : list asset) : string :=
  md5_hex X
    (foldr (λ a acc, assetHash X (files fs !! asset_path a) +:+ acc) "" assets).

(** The task the constructor defers for a site that is deployed. *)
Definition deploy_task (s : site) : M unit :=
  buildApp s >>
  emit (Created "AwsCliLayer" "AwsCliLayer") >>
  let* assets := createS3Assets s in
  let* filenamesAsset := bundleFilenamesAsset s in
  createS3Deployment s assets filenamesAsset >>
  let* fs := read_fs in
  emit (InvalidationCreated (generateInvalidationId fs assets)).

Definition run_task (t : task) : M unit :=
  match t with
  | DeploySite s => deploy_task s
  end.

Definition drain (tasks : list task) : M unit := for_each run_task tasks.

Definition declare_and_build (id : string) (p : site_props) : M site :=
  let* (s, tasks) := construct id p in
  drain tasks >>
  ret s.

End WithExternals.

End StaticSite.


(** ** Shapes of buses and callbacks *)

Module BusShapes.
Import Bus.

Section WithCallbacks.
Context {Props Cb : Type}.

(** What the calls keep true of a bus: no array holds a handle twice, and
    every handle was allocated before the counter's value. *)
Definition well_formed (b : bus Cb) : Prop :=
  ∀ type, NoDup (registered type b)
          ∧ ∀ s, s ∈ registered type b → (sub_ref s < next_ref b)%nat.

(** A callback that, whenever it is called, subscribes itself once more
    to the type of the event. *)
Definition resubscribes (script : Cb → payload Props → list (call Props Cb))
  (cb : Cb) : Prop :=
  ∀ p, script cb p = [Register (Subscribe (p_type p) cb)].

End WithCallbacks.

End BusShapes.


(** ** Recognising constructs (the [Construct.js] helpers) *)

Module Construct.

(** What the helpers read of a value other than [null] and [undefined]
    (on which [isSSTConstruct] raises a TypeError and the other tests
    answer [false]): the [fqn] its constructor carries under
    [Symbol.for("jsii.rtti")], if it is a string; whether it is an object
    with a [getConstructMetadata] property; and the [name] of its
    constructor. *)
Record value := Value {
  fqn : option string;
  has_getConstructMetadata : bool;
  constructor_name : string
}.

(** [fqn.startsWith(prefix)] *)
Definition startsWith (s prefix : string) : bool :=
  bool_decide (is_Some (BaseSite.strip_prefix prefix s)).

(** [export function isCDKConstructOf(construct, moduleName)] *)
Definition isCDKConstructOf (c : value) (moduleName : string) : bool :=
  match fqn c with
  | Some f => bool_decide (f = moduleName)
  | None => false
  end.

(** [export function isCDKConstruct(construct)] *)
Definition isCDKConstruct (c : value) : bool :=
  match fqn c with
  | Some f => startsWith f "@aws-cdk/" || startsWith f "aws-cdk-lib"
  | None => false
  end.

(** [export function isSSTConstruct(construct)] *)
Definition isSSTConstruct (c : value) : bool := has_getConstructMetadata c.

(** [export function isConstruct(construct)] *)
Definition isConstruct (c : value) : bool := isSSTConstruct c || isCDKConstruct c.

(** [export function isStackConstruct(construct)] *)
Definition isStackConstruct (c : value) : bool :=
  isCDKConstructOf c "aws-cdk-lib.Stack".

(** [export function isSSTDebugStack(construct)] *)
Definition isSSTDebugStack (c : value) : bool :=
  isStackConstruct c && bool_decide (constructor_name c = "DebugStack").

End Construct.


(** ** Permissions ([util/permission.js], which [SsrSite.attachPermissions] calls) *)

Module Permission.

Inductive effect := Allow | Deny.

(** An [iam.PolicyStatement]. *)
Record policy_statement := PolicyStatement {
  ps_effect : effect;
  ps_actions : list string;
  ps_resources : list string
}.

(** The [actions] argument of [buildPolicyStatement]: a string or an
    array. *)
Inductive actions :=
| Action (a : string)
| Actions (l : list string).

(** [function buildPolicyStatement(actions, resources)]: the statement
    [new iam.PolicyStatement] makes of its arguments.  The CDK refuses an
    action that fails [valid_action] below, by throwing.  The actions the
    code gives by name all pass; where it gives what the caller wrote, in
    the branch for strings of [of_permission], the test is made there. *)
Definition buildPolicyStatement (a : actions) (resources : list string)
  : policy_statement :=
  {| ps_effect := Allow;
     ps_actions := match a with Action s => [s] | Actions l => l end;
     ps_resources := resources |}.

(** The character classes [[a-zA-Z0-9]], with [-] and with [*]. *)
Definition alphanumeric (a : ascii) : bool :=
  let n := nat_of_ascii a in
  ((48 <=? n) && (n <=? 57) || (65 <=? n) && (n <=? 90)
   || (97 <=? n) && (n <=? 122))%nat.

Definition service_char (a : ascii) : bool :=
  alphanumeric a || bool_decide (a = "-"%char).

Definition action_char (a : ascii) : bool :=
  alphanumeric a || bool_decide (a = "*"%char).

Fixpoint all_chars (f : ascii → bool) (s : string) : bool :=
  match s with
  | EmptyString => true
  | String a s' => f a && all_chars f s'
  end.

(** What is before the first colon, and what is after it. *)
Fixpoint split_colon (s : string) : option (string * string) :=
  match s with
  | EmptyString => None
  | String a s' =>
      if decide (a = ":"%char) then Some (EmptyString, s')
      else (λ '(x, y), (String a x, y)) <$> split_colon s'
  end.

(** [[a-zA-Z0-9-]+] and [[a-zA-Z0-9*]+] *)
Definition service_name (s : string) : bool :=
  negb (bool_decide (s = "")) && all_chars service_char s.

Definition action_name (s : string) : bool :=
  negb (bool_decide (s = "")) && all_chars action_char s.

(** The test [new iam.PolicyStatement] makes of each action that is not
    a token: [/^(\*|[a-zA-Z0-9-]+:[a-zA-Z0-9*]+)$/.test(action)]. *)
Definition valid_action (a : string) : bool :=
  bool_decide (a = "*")
  || match split_colon a with
     | Some (service, name) => service_name service && action_name name
     | None => false
     end.

(** [Stack.of(x)], as far as it is read. *)
Record stack_of := StackOf {
  account : string;
  region : string;
  partition : string
}.

(** The SST constructs the code tests for with [instanceof], each with
    what is read of it. *)
Inductive sst_construct :=
| Api (env : stack_of) (httpApiId : string)
| ApiGatewayV1Api (env : stack_of) (restApiId : string)
| WebSocketApi (env : stack_of) (apiId : string) (_connectionsArn : string)
| AppSyncApi (env : stack_of) (apiId : string)
| Table (tableArn : string)
| Topic (topicArn : string)
| Queue (queueArn : string)
| EventBus (eventBusArn : string)
| KinesisStream (streamArn : string)
| Bucket (bucketArn : string)
| RDS (clusterArn : string) (secretArn : option string)
| Function (functionArn : string)
| Job (jobManagerArn : string).

(** The [secret] of a foreign cluster. *)
Record secret := Secret {
  secretArn : string;
  encryptionKey_keyArn : option string
}.

(** Any other object, seen through the properties the code reads. *)
Record foreign := Foreign {
  tableArn : option string; tableName : option string;
  topicArn : option string; topicName : option string;
  queueArn : option string; queueName : option string;
  eventBusArn : option string; eventBusName : option string;
  streamArn : option string; streamName : option string;
  deliveryStreamArn : option string; deliveryStreamName : option string;
  bucketArn : option string; bucketName : option string;
  clusterArn : option string;
  cluster_secret : option secret
}.

(** A construct in a grant tuple: what [isCDKConstruct] reads of it, and
    the names of its properties that are functions. *)
Record grantable := Grantable {
  g_value : Construct.value;
  g_methods : list string
}.

(** The elements of an array given as a permission. *)
Inductive item :=
| ItemConstruct (c : grantable)
| ItemString (s : string)
| ItemOther.

(** One entry of the permissions array. *)
Inductive permission :=
| PString (s : string)
| PStatement (st : policy_statement)
| PConstruct (c : sst_construct)
| PForeign (o : foreign)
| PArray (items : list item)
| PPrimitive
| PNullish.

(** The [permissions] argument. *)
Inductive permissions :=
| Everything
| Entries (l : list permission)
| NotAnArray.

Inductive error :=
| ExpectedStarOrArray
| GrantMethodIncorrect
| NotSupported
| TypeErrorOfNullish
| CannotAttachToPolicy (methodName : string)
| InvalidAction (action : string).

(** A property used as a condition: present and not the empty string. *)
Definition truthy (o : option string) : bool :=
  match o with
  | Some s => negb (bool_decide (s = ""))
  | None => false
  end.

(** [permission.indexOf(":") === -1] *)
Fixpoint has_colon (s : string) : bool :=
  match s with
  | EmptyString => false
  | String a s' => if decide (a = ":"%char) then true else has_colon s'
  end.

Definition execute_api_arn (env : stack_of) (id : string) : string :=
  "arn:" +:+ partition env +:+ ":execute-api:" +:+ region env +:+ ":"
  +:+ account env +:+ ":" +:+ id +:+ "/*".

Definition secret_actions : list string :=
  ["secretsmanager:GetSecretValue"; "secretsmanager:DescribeSecret"].

(** The branches for the SST constructs. *)
Definition of_construct (c : sst_construct) : list policy_statement :=
  match c with
  | Api env id | ApiGatewayV1Api env id =>
      [buildPolicyStatement (Action "execute-api:Invoke") [execute_api_arn env id]]
  | WebSocketApi env id connections =>
      [buildPolicyStatement (Action "execute-api:Invoke") [execute_api_arn env id];
       buildPolicyStatement (Action "execute-api:ManageConnections") [connections]]
  | AppSyncApi env id =>
      [buildPolicyStatement (Action "appsync:GraphQL")
         ["arn:" +:+ partition env +:+ ":appsync:" +:+ region env +:+ ":"
          +:+ account env +:+ ":apis/" +:+ id +:+ "/*"]]
  | Table arn => [buildPolicyStatement (Action "dynamodb:*") [arn; arn +:+ "/*"]]
  | Topic arn => [buildPolicyStatement (Action "sns:*") [arn]]
  | Queue arn => [buildPolicyStatement (Action "sqs:*") [arn]]
  | EventBus arn => [buildPolicyStatement (Action "events:*") [arn]]
  | KinesisStream arn => [buildPolicyStatement (Action "kinesis:*") [arn]]
  | Bucket arn => [buildPolicyStatement (Action "s3:*") [arn; arn +:+ "/*"]]
  | RDS arn secret =>
      buildPolicyStatement (Action "rds-data:*") [arn]
      :: match secret with
         | Some s => [buildPolicyStatement (Actions secret_actions) [s]]
         | None => []
         end
  | Function arn | Job arn => [buildPolicyStatement (Action "lambda:*") [arn]]
  end.

(** The branches for the objects recognised by their properties, in the
    order the code tries them; [None] when none applies. *)
Definition of_foreign (o : foreign) : option (list policy_statement) :=
  if truthy (tableArn o) && truthy (tableName o) then
    let arn := default "" (tableArn o) in
    Some [buildPolicyStatement (Action "dynamodb:*") [arn; arn +:+ "/*"]]
  else if truthy (topicArn o) && truthy (topicName o) then
    Some [buildPolicyStatement (Action "sns:*") [default "" (topicArn o)]]
  else if truthy (queueArn o) && truthy (queueName o) then
    Some [buildPolicyStatement (Action "sqs:*") [default "" (queueArn o)]]
  else if truthy (eventBusArn o) && truthy (eventBusName o) then
    Some [buildPolicyStatement (Action "events:*") [default "" (eventBusArn o)]]
  else if truthy (streamArn o) && truthy (streamName o) then
    Some [buildPolicyStatement (Action "kinesis:*") [default "" (streamArn o)]]
  else if truthy (deliveryStreamArn o) && truthy (deliveryStreamName o) then
    Some [buildPolicyStatement (Action "firehose:*")
            [default "" (deliveryStreamArn o)]]
  else if truthy (bucketArn o) && truthy (bucketName o) then
    let arn := default "" (bucketArn o) in
    Some [buildPolicyStatement (Action "s3:*") [arn; arn +:+ "/*"]]
  else if truthy (clusterArn o) then
    Some (buildPolicyStatement (Action "rds-data:*") [default "" (clusterArn o)]
          :: match cluster_secret o with
             | Some s =>
                 buildPolicyStatement (Actions secret_actions) [secretArn s]
                 :: match encryptionKey_keyArn s with
                    | Some k => [buildPolicyStatement (Actions ["kms:Decrypt"]) [k]]
                    | None => []
                    end
             | None => []
             end)
  else None.

(** A grant: the tuple as it was given. *)
Definition grant : Type := grantable * string.

(** What one entry adds to [statements] and to [grants], or the error it
    throws. *)
Definition of_permission (p : permission)
  : error + (list policy_statement * list grant) :=
  match p with
  | PString s =>
      let perm := if has_colon s then s else s +:+ ":*" in
      if valid_action perm then inr ([buildPolicyStatement (Action perm) ["*"]], [])
      else inl (InvalidAction perm)
  | PStatement st => inr ([st], [])
  | PConstruct c => inr (of_construct c, [])
  | PForeign o =>
      match of_foreign o with
      | Some sts => inr (sts, [])
      | None => inl NotSupported
      end
  | PArray [ItemConstruct c; ItemString methodName] =>
      if Construct.isCDKConstruct (g_value c) then
        if bool_decide (methodName ∈ g_methods c) then inr ([], [(c, methodName)])
        else inl GrantMethodIncorrect
      else inl NotSupported
  | PArray _ => inl NotSupported
  | PPrimitive => inl NotSupported
  | PNullish => inl TypeErrorOfNullish
  end.

(** [permissions.forEach((permission) => { ... })]: the entries in order,
    up to the first that throws. *)
Fixpoint of_entries (l : list permission)
  (statements : list policy_statement) (grants : list grant)
  : error + (list policy_statement * list grant) :=
  match l with
  | [] => inr (statements, grants)
  | p :: l' =>
      match of_permission p with
      | inl e => inl e
      | inr (sts, gs) => of_entries l' (statements ++ sts) (grants ++ gs)
      end
  end.

(** [function permissionsToStatementsAndGrants(permissions)] *)
Definition permissionsToStatementsAndGrants (ps : permissions)
  : error + (list policy_statement * list grant) :=
  match ps with
  | Everything => inr ([buildPolicyStatement (Action "*") ["*"]], [])
  | NotAnArray => inl ExpectedStarOrArray
  | Entries l => of_entries l [] []
  end.

(** A role or a policy: the statements added to it, and the grant methods
    called on it, oldest first. *)
Record principal := Principal {
  added : list policy_statement;
  granted : list grant
}.

(** [export function attachPermissionsToRole(role, permissions)], with
    the error thrown, if any. *)
Definition attachPermissionsToRole (role : principal) (ps : permissions)
  : principal * option error :=
  match permissionsToStatementsAndGrants ps with
  | inl e => (role, Some e)
  | inr (statements, grants) =>
      ({| added := added role ++ statements;
          granted := granted role ++ grants |}, None)
  end.

(** [export function attachPermissionsToPolicy(policy, permissions)] *)
Definition attachPermissionsToPolicy (policy : principal) (ps : permissions)
  : principal * option error :=
  match permissionsToStatementsAndGrants ps with
  | inl e => (policy, Some e)
  | inr (statements, grants) =>
      let policy' := {| added := added policy ++ statements;
                        granted := granted policy |} in
      match grants with
      | [] => (policy', None)
      | (_, methodName) :: _ => (policy', Some (CannotAttachToPolicy methodName))
      end
  end.

End Permission.


(** ** Dependencies between functional stacks ([dependsOn]) *)

Module StackDependencies.
Import FunctionalStack.

Section WithOutputs.
Context {V : Type}.

(** [getStack] of a function known by its identity and [name] only, as
    [currentStack] is. *)
Definition getStack_of (ref : nat) (name : string) (r : registry V)
  : registry V * (error + stack_handle) :=
  match currentApp r with
  | None => (r, inl NoAppIsSet)
  | Some a =>
      let '(stacks, r1) := getStacks a r in
      match stacks !! ref with
      | None => (r1, inl (StackWrongOrder name (fh_name <$> currentStack r1)))
      | Some st => (r1, inr st)
      end
  end.

(** The stack made for [fn] under application [a], if any. *)
Definition registered_stack (a : app) (fn : definition V) (r : registry V)
  : option stack_handle :=
  stackCache r !! a ≫= λ m, m !! fn_ref fn.

(** [export function dependsOn(stack)].  The result is the dependency
    [current.addDependency(target)] records: from the stack being built
    to the stack of the definition.  With no stack being built,
    [getStack(undefined)] finds no application or, failing that, reads the
    [name] of [undefined]. *)
Definition dependsOn (fn : definition V) (r : registry V)
  : registry V * (error + stack_handle * stack_handle) :=
  let current :=
    match currentStack r with
    | Some h => getStack_of (fh_ref h) (fh_name h) r
    | None =>
        match currentApp r with
        | None => (r, inl NoAppIsSet)
        | Some a => ((getStacks a r).2, inl (Raised "TypeError"))
        end
    end in
  match current with
  | (r1, inl e) => (r1, inl e)
  | (r1, inr current) =>
      match getStack fn r1 with
      | (r2, inl e) => (r2, inl e)
      | (r2, inr target) => (r2, inr (current, target))
      end
  end.

End WithOutputs.

End StackDependencies.




(** ** What the site constructs are observed to do *)

Module SiteObservations.
Import BaseSite.

(** The effects that publish a site: the deployment resource, the
    behaviours added to the distribution and the invalidation. *)
Definition is_published (e : effect) : bool :=
  match e with
  | DeploymentCreated _ _ _ | BehaviorAdded _ | InvalidationCreated _ => true
  | _ => false
  end.

(** In [SsrSite.runBuild()]: [rawBuildCommand || defaultCommand]. *)
Definition build_command (p : SsrSite.site_props) : string :=
  match SsrSite.buildCommand p with
  | Some c => if decide (c = "") then "npm run build" else c
  | None => "npm run build"
  end.

(** In [SsrSite.runBuild()]: there is a [package.json] in the site, it
    is a file that parses, and it has a build script. *)
Definition has_build_script (X : externals) (fs : filesystem) (sitePath : string)
  : bool :=
  existsSync fs (path_join [sitePath; "package.json"])
  && bool_decide (files fs !! path_join [sitePath; "package.json"]
                    ≫= hasBuildScript X = Some true).

End SiteObservations.


(** ** The viewer-request function of a static site
    (the [handler] that [StaticSite.buildDistributionBehavior] ships to
    CloudFront) *)

Module ViewerRequest.

(** [s.endsWith(suffix)] *)
Fixpoint endsWith (s suffix : string) : bool :=
  bool_decide (s = suffix)
  || match s with
     | EmptyString => false
     | String _ s' => endsWith s' suffix
     end.

(** [s.includes(sub)] *)
Fixpoint includes (s sub : string) : bool :=
  Construct.startsWith s sub
  || match s with
     | EmptyString => false
     | String _ s' => includes s' sub
     end.

(** [s.split(sep)] for a separator of one character. *)
Fixpoint split (sep : ascii) (s : string) : list string :=
  match s with
  | EmptyString => [""]
  | String c s' =>
      if decide (c = sep) then "" :: split sep s'
      else match split sep s' with
           | [] => [String c ""]
           | x :: xs => String c x :: xs
           end
  end.

(** [l.pop()] of an array of strings, read as a string. *)
Definition pop (l : list string) : string := default "" (last l).

(** [function handler(event)], from [request.uri] to the [request.uri]
    of the request it returns. *)
Definition handler (uri : string) : string :=
  if Construct.startsWith uri "/.well-known/" then uri
  else if endsWith uri "/" then uri +:+ "index.html"
  else if negb (includes (pop (split "/" uri)) ".") then uri +:+ ".html"
  else uri.

End ViewerRequest.


(** ** The replacement rules of a static site, with the array they are
    pushed onto *)

Module StaticSiteProps.
Import BaseSite.

(** The rules [StaticSite.getS3ContentReplaceValues()] pushes: two for
    each variable of the site whose value is unresolved. *)
Definition pushed_rules (X : externals) (p : StaticSite.site_props)
  : list replace_value :=
  concat
    (map (λ '(key, value),
            let token := token_of key in
            [ {| rv_files := "**/*.html"; rv_search := token; rv_replace := value |};
              {| rv_files := "**/*.js"; rv_search := token; rv_replace := value |} ])
         (filter (λ kv, isUnresolved X kv.2 = true)
                 (default [] (StaticSite.environment p)))).

(** [StaticSite.getS3ContentReplaceValues()] with what it leaves in
    [this.props]: [replaceValues] is [this.props.replaceValues] itself
    when the props have one, a new array otherwise, and the rules are
    pushed onto it. *)
Definition getS3ContentReplaceValues_in_place (X : externals)
  (p : StaticSite.site_props) : list replace_value * StaticSite.site_props :=
  match StaticSite.replaceValues p with
  | Some replaceValues =>
      (replaceValues ++ pushed_rules X p,
       {| StaticSite.cdk_id := StaticSite.cdk_id p;
          StaticSite.path := StaticSite.path p;
          StaticSite.buildCommand := StaticSite.buildCommand p;
          StaticSite.buildOutput := StaticSite.buildOutput p;
          StaticSite.environment := StaticSite.environment p;
          StaticSite.dev := StaticSite.dev p;
          StaticSite.replaceValues := Some (replaceValues ++ pushed_rules X p);
          StaticSite.purgeFiles := StaticSite.purgeFiles p;
          StaticSite.fileOptions := StaticSite.fileOptions p;
          StaticSite.vite_types := StaticSite.vite_types p;
          StaticSite.sstTestFileSizeLimitOverride :=
            StaticSite.sstTestFileSizeLimitOverride p;
          StaticSite.customDomain := StaticSite.customDomain p |})
  | None => (pushed_rules X p, p)
  end.

End StaticSiteProps.


(** ** The authentication handler ([dist/node/future/auth/handler.js]) *)

Module AuthHandler.

(** What the handler reads of the request through [usePathParam],
    [useFormValue], [useQueryParams] and [useCookies]. *)
Record request := Request {
  step : option string;
  form : gmap string string;
  query : gmap string string;
  cookies : gmap string string
}.

(** The bodies the handler writes itself: a text, the page that lists
    clients and providers, and [JSON.stringify({ access_token })]. *)
Inductive body :=
| Text (s : string)
| IndexPage (clients : list (string * string)) (providers : list string)
| AccessToken (token : option string).

Record response := Response {
  statusCode : Z;
  headers : list (string * string);
  body_of : option body
}.

(** What [createVerifier(...)(code)] gives, as far as it is read. *)
Record verified := Verified {
  v_redirect_uri : option string;
  v_client_id : option string;
  v_token : option string
}.

Section WithSessions.
(** [Claims] is what an adapter hands over on success, [Session] what
    [onSuccess] asks a session for. *)
Context {Claims Session : Type}.

(** The value an adapter resolves to, by its [type]; [Raises] is an
    adapter that throws or a property that cannot be called. *)
Inductive adapter_result :=
| Step (properties : response)
| Success (properties : Claims)
| Error
| OtherResult
| Raises.

(** What [onSuccess] resolves to, by its [type]. *)
Inductive success_reply :=
| SessionReply (s : Session)
| HttpReply (properties : response)
| OtherReply.

(** What [onError] returns: a promise, which is what its type says, or
    a value at once.  The handler does not await it. *)
Inductive error_reply :=
| Promised (r : option response)
| Direct (r : option response).

(** The [input] of [AuthHandler].  [providers name] is the property read
    [input.providers[name]], [provider_names] is
    [Object.keys(input.providers)]; [clients] is what [input.clients()]
    resolves to, an object with string values. *)
Record input := Input {
  providers : string → option (request → adapter_result);
  provider_names : list string;
  clients : option (list (string * string));
  allowClient : option (string → string → bool);
  onAuthorize : option (request → option string);
  onSuccess : string → Claims → success_reply;
  onIndex : option (request → response);
  onError : option (option string → error_reply)
}.

(** The verifier and the signers of [fast-jwt] with the keys of
    [Config], and what [new URL(...)] makes of a redirect address once
    its [hash] or [searchParams] are set ([None] when it throws). *)
Record externals := Externals {
  verify : string → option verified;
  sign : Session → string;
  sign_code : option string → option string → string → string;
  with_hash : string → string → option string;
  with_searchParams : string → list (string * string) → option string
}.

(** What the handler does besides answering. *)
Inductive effect :=
| CookiesSet (values : list (string * string)) (expired : bool)
| TokenCookieSet (token : string)
| AdapterCalled (provider : string)
| OnSuccessCalled (provider : string).

Inductive outcome :=
| Respond (r : response)
| NoResponse
| Throws.

(** A value used as a condition. *)
Definition truthy (o : option string) : bool :=
  match o with
  | Some s => negb (bool_decide (s = ""))
  | None => false
  end.

(** [String(v)] *)
Definition String_of (o : option string) : string := default "undefined" o.

(** [clients[client_id]] *)
Fixpoint get (o : list (string * string)) (key : string) : option string :=
  match o with
  | [] => None
  | (k, v) :: o' => if decide (k = key) then Some v else get o' key
  end.

Definition bad_request (text : string) : outcome :=
  Respond {| statusCode := 400; headers := []; body_of := Some (Text text) |}.

Definition redirect (href : option string) : outcome :=
  match href with
  | Some h => Respond {| statusCode := 302; headers := [("Location", h)];
                         body_of := None |}
  | None => Throws
  end.

Definition quote : string := String "034"%char EmptyString.

(** [{ ...useCookies(), ...useQueryParams() }] *)
Definition merged (req : request) : gmap string string :=
  BaseSite.spread (cookies req) (query req).

Variable X : externals.
Variable i : input.

(** The branch [step === "token"]. *)
Definition token_step (req : request) : outcome :=
  if bool_decide (form req !! "grant_type" ≠ Some "authorization_code")
  then bad_request "Invalid grant_type"
  else
    let code := form req !! "code" in
    if negb (truthy code) then bad_request "Missing code"
    else
      match verify X (default "" code) with
      | None => Throws
      | Some v =>
          if bool_decide (v_redirect_uri v ≠ form req !! "redirect_uri")
          then bad_request "redirect_uri mismatch"
          else if bool_decide (v_client_id v ≠ form req !! "client_id")
          then bad_request "client_id mismatch"
          else Respond {| statusCode := 200;
                          headers := [("content-type", "application/json")];
                          body_of := Some (AccessToken (v_token v)) |}
      end.

(** The branch [step === "authorize"]: the answer when a test fails,
    and otherwise the cookies set and the provider to go on with. *)
Definition authorize_step (req : request)
  : list effect * (outcome + option string) :=
  let provider := query req !! "provider" in
  let provider :=
    match onAuthorize i with
    | Some f => if truthy (f req) then f req else provider
    | None => provider
    end in
  if negb (truthy provider) then ([], inl (bad_request "Missing provider"))
  else
    let response_type := merged req !! "response_type" in
    let client_id := merged req !! "client_id" in
    let redirect_uri := merged req !! "redirect_uri" in
    let state := merged req !! "state" in
    if negb (truthy redirect_uri) then ([], inl (bad_request "Missing redirect_uri"))
    else if negb (truthy provider) then ([], inl (bad_request "Missing provider"))
    else if negb (truthy response_type)
    then ([], inl (bad_request "Missing response_type"))
    else if negb (truthy client_id) then ([], inl (bad_request "Missing client_id"))
    else if match clients i with
            | Some cl => bool_decide (get cl (default "" client_id) ≠ redirect_uri)
            | None => false
            end
    then ([], inl (bad_request "Invalid redirect_uri"))
    else if match allowClient i with
            | Some allow =>
                negb (allow (default "" client_id) (default "" redirect_uri))
            | None => false
            end
    then ([], inl (bad_request "Invalid redirect_uri"))
    else
      ([CookiesSet [ ("provider", default "" provider);
                     ("response_type", default "" response_type);
                     ("client_id", default "" client_id);
                     ("redirect_uri", default "" redirect_uri);
                     ("state", if truthy state then default "" state else "") ]
          false],
       inr provider).

(** From [if (!provider || !input.providers[provider])] on. *)
Definition provider_step (req : request) (provider : option string)
  : list effect * outcome :=
  match (if truthy provider then providers i (default "" provider) else None) with
  | None =>
      let fallback :=
        Respond {| statusCode := 400;
                   headers := [("Content-Type", "text/html")];
                   body_of := Some (Text ("Was not able to find provider " +:+ quote
                                          +:+ String_of provider +:+ quote)) |} in
      match onError i with
      | None => ([], fallback)
      | Some f =>
          match f provider with
          | Promised (Some r) | Direct (Some r) => ([], Respond r)
          | Promised None => ([], NoResponse)
          | Direct None => ([], fallback)
          end
      end
  | Some adapter =>
      let name := default "" provider in
      match adapter req with
      | Raises => ([AdapterCalled name], Throws)
      | Step properties => ([AdapterCalled name], Respond properties)
      | Error => ([AdapterCalled name], bad_request "an error has occured")
      | OtherResult => ([AdapterCalled name], NoResponse)
      | Success properties =>
          match onSuccess i name properties with
          | HttpReply r => ([AdapterCalled name; OnSuccessCalled name], Respond r)
          | OtherReply => ([AdapterCalled name; OnSuccessCalled name], NoResponse)
          | SessionReply s =>
              let token := sign X s in
              let response_type := merged req !! "response_type" in
              let client_id := merged req !! "client_id" in
              let redirect_uri := merged req !! "redirect_uri" in
              let state := merged req !! "state" in
              let state := if truthy state then default "" state else "" in
              ([ AdapterCalled name; OnSuccessCalled name; TokenCookieSet token;
                 CookiesSet [ ("provider", ""); ("response_type", "");
                              ("client_id", ""); ("redirect_uri", "");
                              ("state", "") ] true ],
               if bool_decide (response_type = Some "token") then
                 redirect (redirect_uri ≫= λ u,
                             with_hash X u
                               ("access_token=" +:+ token +:+ "&state=" +:+ state))
               else if bool_decide (response_type = Some "code") then
                 let code := sign_code X client_id redirect_uri token in
                 redirect (redirect_uri ≫= λ u,
                             with_searchParams X u [("code", code); ("state", state)])
               else bad_request ("Unsupported response_type: "
                                 +:+ String_of response_type))
          end
      end
  end.

(** The function [AuthHandler(input)] hands to [ApiHandler]. *)
Definition AuthHandler (req : request) : list effect * outcome :=
  if negb (truthy (step req)) then
    match onIndex i with
    | Some f => ([], Respond (f req))
    | None =>
        ([], Respond {| statusCode := 200;
                        headers := [("Content-Type", "text/html")];
                        body_of := Some (IndexPage (default [] (clients i))
                                                   (provider_names i)) |})
    end
  else if bool_decide (step req = Some "favicon.ico") then
    ([], Respond {| statusCode := 404; headers := []; body_of := None |})
  else if bool_decide (step req = Some "token") then ([], token_step req)
  else if bool_decide (step req = Some "authorize") then
    match authorize_step req with
    | (es, inl out) => (es, out)
    | (es, inr provider) =>
        let '(es', out) := provider_step req provider in (es ++ es', out)
    end
  else provider_step req (cookies req !! "provider").

End WithSessions.

Arguments adapter_result : clear implicits.
Arguments success_reply : clear implicits.
Arguments input : clear implicits.
Arguments externals : clear implicits.

End AuthHandler.
(** ** Sample data *)

Module BusSamples.
Import Bus.

(** Callbacks for the examples: ["once"] unsubscribes itself when called
    (its handle is the first one a bus hands out), the others leave the
    bus alone. *)
Definition sample_script (cb : string) (p : payload nat) : list (call nat string) :=
  if decide (cb = "once")
  then [Register (Unsubscribe (Sub 0 (p_type p) "once"))]
  else [].

(** Callbacks that call the bus: ["announcer"] publishes another event
    and subscribes ["late"] to the type it was called for, ["bouncer"]
    unsubscribes a subscriber that was made after it (the fourth handle a
    bus hands out), and ["thrower"] throws. *)
Definition chatty_script (cb : string) (p : payload nat) : list (call nat string) :=
  if decide (cb = "announcer")
  then [Publish "build.success" 9; Register (Subscribe (p_type p) "late")]
  else if decide (cb = "bouncer")
  then [Register (Unsubscribe (Sub 3 (p_type p) "third"))]
  else if decide (cb = "thrower") then [Throw]
  else [].

(** A logger that returns, and one that throws. *)
Definition sample_log (p : payload nat) : bool := true.

Definition broken_log (p : payload nat) : bool := false.

End BusSamples.

Module FunctionalStackSamples.
Import FunctionalStack.

(** Two definitions for the examples: one returns an object at once, the
    other a promise. *)
Definition Api : definition string :=
  {| fn_ref := 1; fn_name := "Api";
     fn_body := λ _ _, Returns (RetObject "api.url") |}.

Definition Database : definition string :=
  {| fn_ref := 2; fn_name := "Database";
     fn_body := λ _ _, Returns (RetThenable "table") |}.

End FunctionalStackSamples.

Module SiteSamples.
Import BaseSite.

(** Externals for the examples: CDK tokens are the strings that start
    with ["${Token["], the digests and the asset hash only tag their
    input, the empty text does not parse and every [package.json] but
    ["{}"] has a build script, the build command leaves a log, and the
    archiver leaves a single part. *)
Definition seconds_of_duration (d : string) : Z :=
  if decide (d = "10 seconds") then 10
  else if decide (d = "1 minute") then 60
  else if decide (d = "5 minutes") then 300 else 0.

Definition sample_externals : externals :=
  {| isUnresolved := λ v, bool_decide (strip_prefix "${Token[" v ≠ None);
     toCdkDuration := seconds_of_duration;
     sha1_hex := λ s, "sha1:" +:+ s;
     md5_hex := λ s, "md5:" +:+ s;
     glob_order := elements;
     hasBuildScript := λ text,
       if decide (text = "") then None
       else Some (bool_decide (text ≠ "{}"));
     assetHash := λ content, "hash:" +:+ default "" content;
     execSync := λ command cwd env fs,
       if decide (command = "exit 1") then None
       else Some (writeFileSync (cwd +:+ "/build.log") "built" fs);
     archiver := λ sources zipOutDir limit fs,
       (0%Z, writeFileSync (zipOutDir +:+ "/part0.zip") "zip" fs) |}.

Definition with_timeout (t : SsrSite.timeout_value) (e : bool)
  : SsrSite.site_props :=
  {| SsrSite.cdk_id := None; SsrSite.path := Some "web";
     SsrSite.timeout := Some t; SsrSite.edge := Some e;
     SsrSite.buildCommand := None; SsrSite.environment := None;
     SsrSite.dev := None; SsrSite.warm := None; SsrSite.fileOptions := None;
     SsrSite.sstTestFileSizeLimitOverride := None |}.

Definition sample_context : SsrSite.context :=
  {| SsrSite.stack_isActive := true; SsrSite.stack_name := "prod-app-web";
     SsrSite.app_mode := "deploy"; SsrSite.app_isRunningSSTTest := false;
     SsrSite.node_addr := "c8a1"; SsrSite.artifacts := "/app/.sst/artifacts";
     SsrSite.process_env := {[ "HOME" := "/root"; "REGION" := "eu-west-1" ]};
     SsrSite.distribution_url := "https://d111.cloudfront.net";
     SsrSite.distribution_customDomainUrl := None |}.

Definition dev_context : SsrSite.context :=
  {| SsrSite.stack_isActive := true; SsrSite.stack_name := "dev-app-web";
     SsrSite.app_mode := "dev"; SsrSite.app_isRunningSSTTest := false;
     SsrSite.node_addr := "c8a1"; SsrSite.artifacts := "/app/.sst/artifacts";
     SsrSite.process_env := ∅;
     SsrSite.distribution_url := "https://d111.cloudfront.net";
     SsrSite.distribution_customDomainUrl := None |}.

Definition sample_fs (index : string) : filesystem :=
  {| files := {[ "web/package.json" := "{ scripts: { build } }";
                 "web/placeholder/index.html" := index;
                 "web/placeholder/assets/app.js" := "js";
                 "web/notes.txt" := index ]};
     dirs := {[ "web"; "web/placeholder"; "web/placeholder/assets" ]} |}.

Definition sample_props (environment : option environment)
  (dev : option SsrSite.dev_props) : SsrSite.site_props :=
  {| SsrSite.cdk_id := None; SsrSite.path := Some "web";
     SsrSite.timeout := None; SsrSite.edge := None;
     SsrSite.buildCommand := None; SsrSite.environment := environment;
     SsrSite.dev := dev; SsrSite.warm := None; SsrSite.fileOptions := None;
     SsrSite.sstTestFileSizeLimitOverride := None |}.

Definition sample_site : SsrSite.site :=
  {| SsrSite.id := "site"; SsrSite.node_id := "site";
     SsrSite.props := sample_props None None; SsrSite.doNotDeploy := false;
     SsrSite.buildConfig := SsrSite.placeholder_buildConfig;
     SsrSite.has_serverLambdaForDev := false; SsrSite.has_bucket := true;
     SsrSite.has_distribution := true |}.

(** An archiver that leaves the parts 0 to 4 and, after a gap, a part 7. *)
Definition gapped_externals : externals :=
  {| isUnresolved := isUnresolved sample_externals;
     toCdkDuration := toCdkDuration sample_externals;
     sha1_hex := sha1_hex sample_externals;
     md5_hex := md5_hex sample_externals;
     glob_order := glob_order sample_externals;
     hasBuildScript := hasBuildScript sample_externals;
     assetHash := assetHash sample_externals;
     execSync := execSync sample_externals;
     archiver := λ sources zipOutDir limit fs,
       (0%Z, foldr (λ i, writeFileSync (zipFilePath zipOutDir i) "zip") fs
                   [0; 1; 2; 3; 4; 7]) |}.

(** A site with one resolved and one unresolved variable. *)
Definition sample_environment : environment :=
  [ ("API_URL", "${Token[TOKEN.182]}"); ("STAGE", "prod") ].


(** A static site of an application in dev mode, with its dev server
    and a place for its types. *)
Definition static_dev_context : StaticSite.context :=
  {| StaticSite.stack_isActive := true; StaticSite.stack_name := "dev-app-web";
     StaticSite.app_mode := "dev"; StaticSite.app_isRunningSSTTest := false;
     StaticSite.node_addr := "c8a2"; StaticSite.artifacts := "/app/.sst/artifacts";
     StaticSite.process_env := ∅;
     StaticSite.distribution_url := "https://d222.cloudfront.net" |}.

Definition static_dev_props : StaticSite.site_props :=
  {| StaticSite.cdk_id := None; StaticSite.path := Some "web";
     StaticSite.buildCommand := Some "npm run build";
     StaticSite.buildOutput := Some "dist";
     StaticSite.environment := None;
     StaticSite.dev := Some (StaticSite.DevProps None (Some "http://localhost:5173"));
     StaticSite.replaceValues := None; StaticSite.purgeFiles := None;
     StaticSite.fileOptions := None;
     StaticSite.vite_types := Some "types/sst-env.d.ts";
     StaticSite.sstTestFileSizeLimitOverride := None;
     StaticSite.customDomain := None |}.

End SiteSamples.


Module BusMoreSamples.
Import Bus.

(** Callbacks for the examples: ["again"] subscribes itself once more to
    the type it is called for, ["invite"] subscribes ["guest"] to it, the
    others leave the bus alone. *)
Definition busy_script (cb : string) (p : payload nat) : list (call nat string) :=
  if decide (cb = "again") then [Register (Subscribe (p_type p) "again")]
  else if decide (cb = "invite") then [Register (Subscribe (p_type p) "guest")]
  else [].

End BusMoreSamples.


Module PermissionSamples.
Import Permission.

(** A CDK topic with one grant method, a raw statement that denies, and
    an array of permissions that uses them. *)
Definition cdk_topic : grantable :=
  {| g_value := {| Construct.fqn := Some "aws-cdk-lib.aws_sns.Topic";
                   Construct.has_getConstructMetadata := false;
                   Construct.constructor_name := "Topic" |};
     g_methods := ["grantPublish"] |}.

Definition deny_delete : policy_statement :=
  {| ps_effect := Deny; ps_actions := ["s3:DeleteObject"]; ps_resources := ["*"] |}.

Definition sample_entries : list permission :=
  [ PString "s3";
    PArray [ItemConstruct cdk_topic; ItemString "grantPublish"];
    PStatement deny_delete;
    PConstruct (Queue "arn:aws:sqs:us-east-1:123:jobs") ].

(** What each of these entries resolves to. *)
Definition sample_resolved : list (list policy_statement * list grant) :=
  [ ([buildPolicyStatement (Action "s3:*") ["*"]], []);
    ([], [(cdk_topic, "grantPublish")]);
    ([deny_delete], []);
    ([buildPolicyStatement (Action "sqs:*") ["arn:aws:sqs:us-east-1:123:jobs"]], []) ].

Definition empty_principal : principal := {| added := []; granted := [] |}.

End PermissionSamples.


Module SiteMoreSamples.
Import BaseSite SiteSamples.

(** An archiver that leaves nothing, and a build folder with a part from
    an earlier run. *)
Definition idle_externals : externals :=
  {| isUnresolved := isUnresolved sample_externals;
     toCdkDuration := toCdkDuration sample_externals;
     sha1_hex := sha1_hex sample_externals;
     md5_hex := md5_hex sample_externals;
     glob_order := glob_order sample_externals;
     hasBuildScript := hasBuildScript sample_externals;
     assetHash := assetHash sample_externals;
     execSync := execSync sample_externals;
     archiver := λ sources zipOutDir limit fs, (0%Z, fs) |}.

(** A site whose build command fails, and one on the edge that asks for
    five warm instances. *)
Definition failing_site : SsrSite.site :=
  {| SsrSite.id := "site"; SsrSite.node_id := "site";
     SsrSite.props :=
       {| SsrSite.cdk_id := None; SsrSite.path := Some "web";
          SsrSite.timeout := None; SsrSite.edge := None;
          SsrSite.buildCommand := Some "exit 1"; SsrSite.environment := None;
          SsrSite.dev := None; SsrSite.warm := None; SsrSite.fileOptions := None;
          SsrSite.sstTestFileSizeLimitOverride := None |};
     SsrSite.doNotDeploy := false;
     SsrSite.buildConfig := SsrSite.placeholder_buildConfig;
     SsrSite.has_serverLambdaForDev := false; SsrSite.has_bucket := true;
     SsrSite.has_distribution := true |}.

Definition warm_edge_site : SsrSite.site :=
  {| SsrSite.id := "site"; SsrSite.node_id := "site";
     SsrSite.props :=
       {| SsrSite.cdk_id := None; SsrSite.path := Some "web";
          SsrSite.timeout := None; SsrSite.edge := Some true;
          SsrSite.buildCommand := Some "make"; SsrSite.environment := None;
          SsrSite.dev := None; SsrSite.warm := Some 5%Z;
          SsrSite.fileOptions := None;
          SsrSite.sstTestFileSizeLimitOverride := None |};
     SsrSite.doNotDeploy := false;
     SsrSite.buildConfig :=
       {| SsrSite.typesPath := "."; SsrSite.serverBuildOutputFile := "build.log";
          SsrSite.clientBuildOutputDir := "placeholder";
          SsrSite.clientBuildVersionedSubDir := "assets";
          SsrSite.clientBuildS3KeyPrefix := None;
          SsrSite.prerenderedBuildOutputDir := None;
          SsrSite.prerenderedBuildS3KeyPrefix := None |};
     SsrSite.has_serverLambdaForDev := false; SsrSite.has_bucket := true;
     SsrSite.has_distribution := true |}.

(** The files of the examples, with a part left in the site's archive
    folder by an earlier run. *)
Definition stale_fs : filesystem :=
  writeFileSync "/app/.sst/artifacts/Site-site-c8a1/part0.zip" "old"
    (sample_fs "<html>").

End SiteMoreSamples.


Module AuthSamples.
Import AuthHandler.

(** A verifier that knows one code, signers that tag their input, and
    addresses that take a hash or a query as they are. *)
Definition auth_externals : externals string :=
  {| verify := λ code,
       if decide (code = "c0de")
       then Some {| v_redirect_uri := Some "https://app.example/cb";
                    v_client_id := Some "web"; v_token := Some "jwt:ann" |}
       else None;
     sign := λ s, "jwt:" +:+ s;
     sign_code := λ client_id redirect_uri token, "code:" +:+ token;
     with_hash := λ u hash, Some (u +:+ "#" +:+ hash);
     with_searchParams := λ u params,
       Some (foldl (λ acc kv, acc +:+ "&" +:+ kv.1 +:+ "=" +:+ kv.2) (u +:+ "?") params) |}.

(** One provider, which succeeds on its callback; one client; sessions
    for everybody. *)
Definition auth_input : input string string :=
  {| providers := λ name,
       if decide (name = "github")
       then Some (λ req, if decide (step req = Some "callback")
                         then Success "ann" else Step (Response 302 [] None))
       else None;
     provider_names := ["github"];
     clients := Some [("web", "https://app.example/cb")];
     allowClient := None;
     onAuthorize := None;
     onSuccess := λ provider claims, SessionReply claims;
     onIndex := None;
     onError := Some (λ provider, Promised None) |}.

Definition token_request : request :=
  {| step := Some "token";
     form := {[ "grant_type" := "authorization_code"; "code" := "c0de";
                "redirect_uri" := "https://app.example/cb"; "client_id" := "web" ]};
     query := ∅; cookies := ∅ |}.

Definition authorize_request : request :=
  {| step := Some "authorize"; form := ∅;
     query := {[ "provider" := "github"; "response_type" := "token";
                 "client_id" := "web"; "redirect_uri" := "https://app.example/cb" ]};
     cookies := ∅ |}.


Definition unknown_request : request :=
  {| step := Some "callback"; form := ∅; query := ∅;
     cookies := {[ "provider" := "gitlab" ]} |}.

(** Requests at the step [authorize] for a provider that is not known,
    from a known client, and for no provider at all. *)
Definition unknown_authorize_request : request :=
  {| step := Some "authorize"; form := ∅;
     query := {[ "provider" := "gitlab"; "response_type" := "token";
                 "client_id" := "web"; "redirect_uri" := "https://app.example/cb" ]};
     cookies := ∅ |}.

Definition missing_authorize_request : request :=
  {| step := Some "authorize"; form := ∅;
     query := {[ "response_type" := "token"; "client_id" := "web";
                 "redirect_uri" := "https://app.example/cb" ]};
     cookies := {[ "provider" := "github" ]} |}.

End AuthSamples.


(** * Properties *)

(** ** The event bus *)

Module BusFacts.
Import Bus BusSamples.

Section WithCallbacks.
Context {Props Cb : Type} `{EqDecision Cb}.
Implicit Types (b : bus Cb) (s : sub Cb) (h : list (registration Cb)).

Lemma splice_out_cons s x (arr : list (sub Cb)) :
  splice_out s (x :: arr) = if decide (x = s) then arr else x :: splice_out s arr.
Proof.
  unfold splice_out. simpl. destruct (decide (x = s)); [done|].
  destruct (indexOf s arr); done.
Qed.

Lemma of_type_splice_out_same type s (l : list (sub Cb)) :
  sub_type s = type →
  of_type type (splice_out s l) = splice_out s (of_type type l).
Proof.
  intros Hs. unfold of_type. induction l as [|x l IH]; [done|].
  rewrite splice_out_cons. destruct (decide (x = s)) as [->|Hne].
  - rewrite filter_cons_True by done. rewrite splice_out_cons.
    by rewrite decide_True.
  - destruct (decide (sub_type x = type)) as [Hx|Hx].
    + rewrite !filter_cons_True by done. rewrite splice_out_cons.
      rewrite decide_False by done. by rewrite IH.
    + rewrite !filter_cons_False by done. exact IH.
Qed.

Lemma of_type_splice_out_other type s (l : list (sub Cb)) :
  sub_type s ≠ type →
  of_type type (splice_out s l) = of_type type l.
Proof.
  intros Hs. unfold of_type. induction l as [|x l IH]; [done|].
  rewrite splice_out_cons. destruct (decide (x = s)) as [->|Hne].
  - by rewrite filter_cons_False.
  - destruct (decide (sub_type x = type)).
    + rewrite !filter_cons_True by done. by rewrite IH.
    + rewrite !filter_cons_False by done. exact IH.
Qed.

Lemma of_type_snoc type s (l : list (sub Cb)) :
  of_type type (l ++ [s]) =
  of_type type l ++ (if decide (sub_type s = type) then [s] else []).
Proof.
  unfold of_type. rewrite filter_app. f_equal.
Qed.

(** Looking an array up creates it at most: no array changes. *)
Lemma subscribers_fst type b : (subscribers type b).1 = registered type b.
Proof.
  unfold subscribers, registered. by destruct (subscriptions b !! type).
Qed.

Lemma subscribers_registered type type' b :
  registered type (subscribers type' b).2 = registered type b.
Proof.
  unfold subscribers, registered.
  destruct (subscriptions b !! type') eqn:E; [done|]. simpl.
  destruct (decide (type' = type)) as [->|Hne].
  - by rewrite lookup_insert_eq, E.
  - by rewrite lookup_insert_ne.
Qed.

Lemma subscribers_sourceID type b : sourceID (subscribers type b).2 = sourceID b.
Proof. unfold subscribers. by destruct (subscriptions b !! type). Qed.

Lemma subscribers_next_ref type b : next_ref (subscribers type b).2 = next_ref b.
Proof. unfold subscribers. by destruct (subscriptions b !! type). Qed.

Lemma subscribe_registered type type' cb b :
  registered type (subscribe type' cb b).1 =
  registered type b ++
    (if decide (type' = type) then [Sub (next_ref b) type' cb] else []).
Proof.
  unfold subscribe.
  pose proof (subscribers_fst type' b) as Hfst.
  pose proof (subscribers_registered type type' b) as Hreg.
  destruct (subscribers type' b) as [arr b']. simpl in *.
  unfold registered at 1. simpl.
  destruct (decide (type' = type)) as [->|Hne].
  - rewrite lookup_insert_eq. simpl. by rewrite Hfst.
  - rewrite lookup_insert_ne by done. fold (registered type b').
    by rewrite Hreg, app_nil_r.
Qed.

Lemma unsubscribe_registered type s b :
  registered type (unsubscribe s b) =
  if decide (sub_type s = type) then splice_out s (registered type b)
  else registered type b.
Proof.
  unfold unsubscribe.
  pose proof (subscribers_fst (sub_type s) b) as Hfst.
  pose proof (subscribers_registered type (sub_type s) b) as Hreg.
  destruct (subscribers (sub_type s) b) as [arr b']. simpl in *.
  unfold registered at 1. simpl.
  destruct (decide (sub_type s = type)) as [<-|Hne].
  - rewrite lookup_insert_eq. simpl. by rewrite Hfst.
  - rewrite lookup_insert_ne by done. exact Hreg.
Qed.

(** No registration changes the identifier drawn when the bus was made. *)
Lemma register_sourceID b (r : registration Cb) :
  sourceID (register b r) = sourceID b.
Proof.
  destruct r as [type cb|ts type cb|s]; simpl.
  - unfold subscribe. pose proof (subscribers_sourceID type b).
    by destruct (subscribers type b).
  - unfold forward, subscribe. pose proof (subscribers_sourceID type b).
    by destruct (subscribers type b).
  - unfold unsubscribe. pose proof (subscribers_sourceID (sub_type s) b).
    by destruct (subscribers (sub_type s) b).
Qed.

Lemma run_sourceID h b : sourceID (run h b) = sourceID b.
Proof.
  revert b. induction h as [|r h IH]; intros b; [done|].
  change (run (r :: h) b) with (run h (register b r)).
  by rewrite IH, register_sourceID.
Qed.

Lemma register_next_ref b (r : registration Cb) :
  next_ref (register b r) =
  match r with
  | Unsubscribe _ => next_ref b
  | _ => S (next_ref b)
  end.
Proof.
  destruct r as [type cb|ts type cb|s]; simpl.
  - unfold subscribe. pose proof (subscribers_next_ref type b).
    destruct (subscribers type b). simpl in *. by f_equal.
  - unfold forward, subscribe. pose proof (subscribers_next_ref type b).
    destruct (subscribers type b). simpl in *. by f_equal.
  - unfold unsubscribe. pose proof (subscribers_next_ref (sub_type s) b).
    by destruct (subscribers (sub_type s) b).
Qed.

(** The per-type arrays of the bus are the chronological list of live
    subscriptions, seen one type at a time. *)
Lemma run_registered h : ∀ b (acc : list (sub Cb)),
  (∀ type, registered type b = of_type type acc) →
  ∀ type, registered type (run h b) = of_type type (live_from (next_ref b) acc h).
Proof.
  induction h as [|r h IH]; intros b acc Hinv type; [by apply Hinv|].
  change (run (r :: h) b) with (run h (register b r)).
  pose proof (register_next_ref b r) as Hnext.
  destruct r as [ty cb|ts ty cb|s]; simpl live_from; rewrite <- Hnext.
  - apply IH. intros type'. simpl.
    by rewrite subscribe_registered, of_type_snoc, Hinv.
  - apply IH. intros type'. simpl. unfold forward.
    by rewrite subscribe_registered, of_type_snoc, Hinv.
  - apply IH. intros type'. simpl.
    rewrite unsubscribe_registered. destruct (decide (sub_type s = type')).
    + by rewrite of_type_splice_out_same, Hinv.
    + by rewrite of_type_splice_out_other, Hinv.
Qed.

Lemma run_new_bus rnd h type :
  registered type (run h (useBus rnd)) = of_type type (live h).
Proof.
  apply (run_registered h (useBus rnd) []). intros type'.
  unfold registered, of_type. simpl. by rewrite lookup_empty.
Qed.

(** Every array of a bus reached from a new one is in subscription
    order. *)
Lemma splice_out_sublist s (arr : list (sub Cb)) : splice_out s arr `sublist_of` arr.
Proof.
  unfold splice_out. destruct (indexOf s arr); [apply sublist_delete|done].
Qed.

Lemma splice_out_elem_of s x (arr : list (sub Cb)) :
  x ∈ arr → x ≠ s → x ∈ splice_out s arr.
Proof.
  intros Hx Hne. induction arr as [|y arr IH]; [done|].
  rewrite splice_out_cons. apply elem_of_cons in Hx as [->|Hx].
  - rewrite decide_False by done. apply list_elem_of_here.
  - destruct (decide (y = s)); [done|]. apply list_elem_of_further. by apply IH.
Qed.

Lemma splice_out_take s (arr : list (sub Cb)) : ∀ k,
  s ∉ take k arr → take k (splice_out s arr) = take k arr.
Proof.
  induction arr as [|x arr IH]; intros k Hs; [done|].
  destruct k as [|k]; [done|]. rewrite splice_out_cons.
  simpl in Hs. apply not_elem_of_cons in Hs as [Hne Hs].
  rewrite decide_False by done. simpl. f_equal. by apply IH.
Qed.

Lemma Forall_sublist (P : sub Cb → Prop) (l1 l2 : list (sub Cb)) :
  l1 `sublist_of` l2 → Forall P l2 → Forall P l1.
Proof.
  rewrite !Forall_forall. intros Hsub Hl x Hx. apply Hl.
  by eapply elem_of_sublist.
Qed.

Lemma in_subscription_order_sublist (l1 l2 : list (sub Cb)) :
  l1 `sublist_of` l2 → in_subscription_order l2 → in_subscription_order l1.
Proof.
  unfold in_subscription_order. induction 1 as [|x l1 l2 Hsub IH|x l1 l2 Hsub IH].
  - done.
  - rewrite !StronglySorted_cons. intros [Hx Hl]. split; [|by apply IH].
    by eapply Forall_sublist.
  - rewrite StronglySorted_cons. intros [_ Hl]. by apply IH.
Qed.

Lemma useBus_numbered rnd : numbered (useBus (Cb := Cb) rnd).
Proof.
  intros type. unfold registered. simpl. rewrite lookup_empty. simpl.
  split; [constructor|done].
Qed.

Lemma subscribers_numbered type b : numbered b → numbered (subscribers type b).2.
Proof.
  intros Hb type'. by rewrite subscribers_registered, subscribers_next_ref.
Qed.

Lemma register_numbered b (r : registration Cb) : numbered b → numbered (register b r).
Proof.
  intros Hb type. destruct (Hb type) as [Hord Hlt].
  rewrite register_next_ref.
  assert (∀ ty cb,
    in_subscription_order (registered type (subscribe ty cb b).1)
    ∧ Forall (λ s, (sub_ref s < S (next_ref b))%nat)
        (registered type (subscribe ty cb b).1)) as Hsub.
  { intros ty cb. rewrite subscribe_registered. split.
    - apply StronglySorted_app_2; [|done|].
      + intros x y Hx Hy. destruct (decide (ty = type)); [|by apply elem_of_nil in Hy].
        apply list_elem_of_singleton in Hy as ->. simpl.
        by apply (proj1 (Forall_forall _ _) Hlt).
      + destruct (decide (ty = type)); repeat constructor.
    - apply Forall_app. split.
      + eapply Forall_impl; [exact Hlt|]. simpl. lia.
      + destruct (decide (ty = type)); repeat constructor. }
  destruct r as [ty cb|ts ty cb|s]; simpl; [apply Hsub..|].
  rewrite unsubscribe_registered. destruct (decide (sub_type s = type)); [|done].
  split.
  - eapply in_subscription_order_sublist; [apply splice_out_sublist|done].
  - eapply Forall_sublist; [apply splice_out_sublist|done].
Qed.

Lemma run_numbered h b : numbered b → numbered (run h b).
Proof.
  revert b. induction h as [|r h IH]; intros b Hb; [done|].
  change (run (r :: h) b) with (run h (register b r)).
  by apply IH, register_numbered.
Qed.

(** *** Delivery *)

Section WithScript.
Variable script : Cb → payload Props → list (call Props Cb).
Variable log : payload Props → bool.

Lemma prepend_nil (r : option (bus Cb * list (event Props Cb))) :
  prepend [] r = r.
Proof. by destruct r as [[b es]|]. Qed.

Lemma prepend_prepend es1 es2 (r : option (bus Cb * list (event Props Cb))) :
  prepend es1 (prepend es2 r) = prepend (es1 ++ es2) r.
Proof. destruct r as [[b es]|]; [|done]. simpl. by rewrite app_assoc. Qed.

Lemma prepend_Some es1 (r : option (bus Cb * list (event Props Cb))) b es :
  prepend es1 r = Some (b, es) → ∃ es2, r = Some (b, es2) ∧ es = es1 ++ es2.
Proof.
  destruct r as [[b2 es2]|]; [|done]. simpl. intros [= -> <-]. by exists es2.
Qed.

(** The debug line, when it is written, is one event that is neither a
    call nor an exception. *)
Lemma debug_line_Some (p : payload Props) (line : list (event Props Cb)) :
  debug_line log p = Some line →
  (DO_NOT_LOG (p_type p) = true ∨ log p = true)
  ∧ (line = [] ∨ line = [LogDebug p]).
Proof.
  unfold debug_line. destruct (DO_NOT_LOG (p_type p)); [intros [= <-]; auto|].
  destruct (log p); [intros [= <-]; auto|done].
Qed.

Lemma debug_line_returns (p : payload Props) :
  DO_NOT_LOG (p_type p) = true ∨ log p = true →
  debug_line (Cb := Cb) log p
  = Some (if DO_NOT_LOG (p_type p) then [] else [LogDebug p]).
Proof.
  unfold debug_line. destruct (DO_NOT_LOG (p_type p)); [done|].
  intros [?| ->]; done.
Qed.

(** From [index] on, as long as the callbacks it meets call nothing, the
    loop calls what the array holds, in order, and leaves the bus as it
    found it. *)
Lemma exec_next_quiet inner (p : payload Props) todo b : ∀ n index fuel,
  length (registered (p_type p) b) = (index + n)%nat →
  (∀ s, s ∈ drop index (registered (p_type p) b) → script (sub_cb s) p = []) →
  exec script log (S n + fuel) (Next inner p index :: todo) b
  = prepend ((λ s, Invoke inner s p) <$> drop index (registered (p_type p) b))
      (exec script log fuel todo b).
Proof.
  induction n as [|n IH]; intros index fuel Hlen Hquiet.
  - simpl. rewrite lookup_ge_None_2 by lia. rewrite drop_ge by lia.
    by rewrite prepend_nil.
  - assert (is_Some (registered (p_type p) b !! index)) as [s Hs]
      by (apply lookup_lt_is_Some_2; lia).
    change (S (S n) + fuel)%nat with (S (S n + fuel)). cbn [exec]. rewrite Hs.
    rewrite (drop_S _ _ _ Hs) in Hquiet |- *.
    rewrite (Hquiet s) by apply list_elem_of_here. simpl app.
    rewrite IH; [|lia|].
    + by rewrite prepend_prepend.
    + intros s' Hs'. apply Hquiet. by apply list_elem_of_further.
Qed.

Lemma invocations_app (es1 es2 : list (event Props Cb)) :
  invocations (es1 ++ es2) = invocations es1 ++ invocations es2.
Proof. unfold invocations. apply omap_app. Qed.

Lemma invocations_invoke inner (p : payload Props) (arr : list (sub Cb)) :
  invocations ((λ s, Invoke inner s p) <$> arr) = (λ s, (s, p)) <$> arr.
Proof. induction arr as [|s arr IH]; [done|]. cbn. by f_equal. Qed.

Lemma returned_app (es1 es2 : list (event Props Cb)) :
  returned (es1 ++ es2) = returned es1 && returned es2.
Proof. unfold returned. apply forallb_app. Qed.

Lemma returned_invoke inner (p : payload Props) (arr : list (sub Cb)) :
  returned ((λ s, Invoke inner s p) <$> arr) = true.
Proof. by induction arr. Qed.

(** [publish] on a bus whose subscribers for the type call nothing, when
    the debug line does not throw. *)
Lemma publish_quiet type (properties : Props) b fuel :
  let p := Payload type properties (sourceID b) in
  DO_NOT_LOG type = true ∨ log p = true →
  (∀ s, s ∈ registered type b → script (sub_cb s) p = []) →
  (length (registered type b) + 3 ≤ fuel)%nat →
  ∃ b' es,
    publish script log fuel type properties b = Some (b', es)
    ∧ invocations es = (λ s, (s, p)) <$> registered type b
    ∧ returned es = true
    ∧ (∀ type', registered type' b' = registered type' b)
    ∧ sourceID b' = sourceID b.
Proof.
  intros p Hlog Hquiet Hfuel. unfold publish.
  destruct fuel as [|fuel]; [lia|]. cbn [exec]. unfold envelope.
  fold p. rewrite (debug_line_returns p Hlog). simpl p_type.
  set (b' := (subscribers type b).2).
  assert (∀ type', registered type' b' = registered type' b) as Hreg
    by (intros type'; apply subscribers_registered).
  replace fuel with (S (length (registered type b)) + (fuel - S (length (registered type b))))%nat
    by lia.
  rewrite (exec_next_quiet false p [] b' (length (registered type b)) 0); simpl p_type.
  - destruct (fuel - S (length (registered type b)))%nat as [|k] eqn:Hk; [lia|].
    cbn [exec]. rewrite Hreg, drop_0. simpl.
    eexists _, _. split; [reflexivity|]. split_and!.
    + rewrite app_nil_r, invocations_app, invocations_invoke.
      by destruct (DO_NOT_LOG type).
    + rewrite app_nil_r, returned_app, returned_invoke.
      by destruct (DO_NOT_LOG type).
    + done.
    + apply subscribers_sourceID.
  - by rewrite Hreg.
  - intros s. rewrite Hreg, drop_0. apply Hquiet.
Qed.

(** Whatever is run keeps the arrays in subscription order. *)
Lemma exec_numbered : ∀ fuel todo b b' es,
  numbered b → exec script log fuel todo b = Some (b', es) → numbered b'.
Proof.
  induction fuel as [|fuel IH]; intros todo b b' es Hb Hrun; [done|].
  cbn [exec] in Hrun.
  destruct todo as [|[inner [r|type properties|]|inner p index] todo].
  - by injection Hrun as <- _.
  - apply prepend_Some in Hrun as (es2 & Hrun & _).
    eapply IH; [|exact Hrun]. by apply register_numbered.
  - destruct (debug_line log _); [|by injection Hrun as <- _].
    apply prepend_Some in Hrun as (es2 & Hrun & _).
    eapply IH; [|exact Hrun]. by apply subscribers_numbered.
  - by injection Hrun as <- _.
  - destruct (registered (p_type p) b !! index).
    + apply prepend_Some in Hrun as (es2 & Hrun & _). by eapply IH.
    + by eapply IH.
Qed.

(** A subscriber stays in its array until something unsubscribes it. *)
Lemma exec_keeps : ∀ fuel todo b b' es type s,
  exec script log fuel todo b = Some (b', es) →
  s ∈ registered type b →
  s ∈ registered type b' ∨ Called (Unsubscribe s) ∈ es.
Proof.
  induction fuel as [|fuel IH]; intros todo b b' es type s Hrun Hs; [done|].
  cbn [exec] in Hrun.
  destruct todo as [|[inner [r|type' properties|]|inner p index] todo].
  - injection Hrun as <- _. by left.
  - apply prepend_Some in Hrun as (es2 & Hrun & ->).
    assert (s ∈ registered type (register b r) ∨ r = Unsubscribe s) as [Hin| ->].
    { destruct r as [ty cb|ts ty cb|s']; simpl.
      - left. rewrite subscribe_registered. apply elem_of_app. by left.
      - left. unfold forward. rewrite subscribe_registered. apply elem_of_app. by left.
      - destruct (decide (s' = s)) as [->|Hne]; [by right|left].
        rewrite unsubscribe_registered. destruct (decide (sub_type s' = type)); [|done].
        apply splice_out_elem_of; [done|]. by intros ->. }
    + destruct (IH _ _ _ _ type s Hrun Hin) as [|Hes]; [by left|].
      right. by apply list_elem_of_further.
    + right. apply list_elem_of_here.
  - destruct (debug_line log _); [|injection Hrun as <- _; by left].
    apply prepend_Some in Hrun as (es2 & Hrun & ->).
    destruct (IH _ _ _ _ type s Hrun) as [|Hin]; [|by left|].
    + by rewrite subscribers_registered.
    + right. apply elem_of_app. by right.
  - injection Hrun as <- _. by left.
  - destruct (registered (p_type p) b !! index).
    + apply prepend_Some in Hrun as (es2 & Hrun & ->).
      destruct (IH _ _ _ _ type s Hrun) as [|Hin]; [done|by left|].
      right. by apply list_elem_of_further.
    + by eapply IH.
Qed.

(** The loop of the [publish] that was called, at [index] in the array
    of its type, with what the callback it called last has still to do
    before it: as long as nothing throws and no subscriber at or before
    [index] is unsubscribed, what is before [index] stays, and what the
    loop calls from there on is what the array holds from there on when
    it is done. *)
Lemma exec_loop (p : payload Props) : ∀ fuel todo index b b' es,
  Forall from_callback todo →
  exec script log fuel (todo ++ [Next false p index]) b = Some (b', es) →
  returned es = true →
  undisturbed_from (take index (registered (p_type p) b)) es = true →
  (index ≤ length (registered (p_type p) b))%nat →
  ∃ rest,
    delivered es = (λ s, (s, p)) <$> rest
    ∧ registered (p_type p) b' = take index (registered (p_type p) b) ++ rest.
Proof.
  induction fuel as [|fuel IH]; intros todo index b b' es Htodo Hrun Hret Hund Hindex;
    [done|].
  destruct todo as [|[inner [r|type' properties|]|inner p' index'] todo];
    simpl app in Hrun; cbn [exec] in Hrun.
  - destruct (registered (p_type p) b !! index) as [s|] eqn:Hs.
    + apply prepend_Some in Hrun as (es2 & Hrun & ->).
      simpl in Hret, Hund. rewrite <- (take_S_r _ _ _ Hs) in Hund.
      apply lookup_lt_Some in Hs as Hlt.
      destruct (IH (Do true <$> script (sub_cb s) p) (S index) b b' es2)
        as (rest & Hdel & Hreg); [|done|done|done|lia|].
      { apply Forall_fmap, Forall_true. done. }
      exists (s :: rest). split; [simpl; by rewrite Hdel|].
      rewrite Hreg, (take_S_r _ _ _ Hs), <- app_assoc. done.
    + destruct fuel as [|fuel]; [done|]. simpl in Hrun. injection Hrun as <- <-.
      exists []. split; [done|]. rewrite app_nil_r, take_ge; [done|].
      by apply lookup_ge_None_1.
  - apply Forall_cons in Htodo as [-> Htodo].
    apply prepend_Some in Hrun as (es2 & Hrun & ->).
    assert (take index (registered (p_type p) (register b r))
            = take index (registered (p_type p) b)
            ∧ undisturbed_from (take index (registered (p_type p) b)) es2 = true)
      as [Htake Hund2].
    { destruct r as [ty cb|ts ty cb|s]; simpl in Hund |- *.
      - rewrite subscribe_registered. by rewrite take_app_le.
      - unfold forward. rewrite subscribe_registered. by rewrite take_app_le.
      - apply andb_true_iff in Hund as [Hs Hund]. split; [|done].
        apply negb_true_iff, bool_decide_eq_false in Hs.
        rewrite unsubscribe_registered. destruct (decide (sub_type s = p_type p)); [|done].
        by apply splice_out_take. }
    destruct (IH todo index (register b r) b' es2) as (rest & Hdel & Hreg);
      [done|done|done|by rewrite Htake| |].
    { rewrite <- (length_take_le _ index Hindex) at 1. rewrite <- Htake.
      rewrite length_take. lia. }
    exists rest. split; [done|]. by rewrite Hreg, Htake.
  - apply Forall_cons in Htodo as [-> Htodo].
    destruct (debug_line log _) as [line|] eqn:Hline;
      [|by injection Hrun as _ <-].
    apply prepend_Some in Hrun as (es2 & Hrun & ->).
    apply debug_line_Some in Hline as [_ Hline].
    assert (returned es2 = true
            ∧ undisturbed_from (take index (registered (p_type p) b)) es2 = true
            ∧ delivered (line ++ es2) = delivered es2) as (Hret2 & Hund2 & Hdel2)
      by (by destruct Hline as [->| ->]).
    destruct (IH (Next true (envelope type' properties b) 0 :: todo) index
                (subscribers type' b).2 b' es2) as (rest & Hdel & Hreg).
    + by apply Forall_cons.
    + done.
    + done.
    + by rewrite subscribers_registered.
    + by rewrite subscribers_registered.
    + exists rest. rewrite Hdel2. split; [done|].
      by rewrite Hreg, subscribers_registered.
  - by injection Hrun as _ <-.
  - apply Forall_cons in Htodo as [-> Htodo].
    destruct (registered (p_type p') b !! index') as [s|].
    + apply prepend_Some in Hrun as (es2 & Hrun & ->).
      rewrite app_comm_cons, app_assoc in Hrun.
      destruct (IH ((Do true <$> script (sub_cb s) p') ++ Next true p' (S index') :: todo)
                  index b b' es2) as (rest & Hdel & Hreg);
        [|exact Hrun|done|done|done|by exists rest].
      apply Forall_app. split; [apply Forall_fmap, Forall_true; done|].
      by apply Forall_cons.
    + by eapply IH.
Qed.

(** C7, as the code has it.  A bus made with the identifier [rnd] has
    seen any sequence of subscribe, forward and unsubscribe calls; its
    subscribers for [type] are then [subs], oldest subscription first.

    When the debug line does not throw and none of [subs] calls the bus
    or throws in its callback, [publish] of [type] returns, having called
    [subs] and no other, oldest first, each with the same envelope
    [{ type, properties, sourceID }], whose [sourceID] is [rnd], and
    leaves every subscription as it was.

    Whatever the callbacks do, when [publish] returns without an
    exception, and no callback has unsubscribed a subscriber that this
    [publish] had already called or was calling, then the subscribers
    this [publish] has called are those registered for [type] when it
    returns, each once with that envelope, oldest subscription first;
    and every one of [subs] is among them, unless a callback has
    unsubscribed it. *)
Theorem publish_delivers_in_subscription_order
  (rnd : string) h (type : string) (properties : Props) :
  let b := run h (useBus rnd) in
  let p := Payload type properties rnd in
  let subs := of_type type (live h) in
  registered type b = subs
  ∧ in_subscription_order subs
  ∧ (∀ fuel,
       DO_NOT_LOG type = true ∨ log p = true →
       (∀ s, s ∈ subs → script (sub_cb s) p = []) →
       (length subs + 3 ≤ fuel)%nat →
       ∃ b' es,
         publish script log fuel type properties b = Some (b', es)
         ∧ returned es = true
         ∧ invocations es = (λ s, (s, p)) <$> subs
         ∧ (∀ type', registered type' b' = of_type type' (live h)))
  ∧ (∀ fuel b' es,
       publish script log fuel type properties b = Some (b', es) →
       returned es = true →
       undisturbed es = true →
       delivered es = (λ s, (s, p)) <$> registered type b'
       ∧ in_subscription_order (registered type b')
       ∧ (∀ s, s ∈ subs → s ∈ registered type b' ∨ Called (Unsubscribe s) ∈ es)).
Proof.
  intros b p subs.
  pose proof (run_new_bus rnd h) as Hreg.
  pose proof (run_sourceID h (useBus rnd)) as Hid. simpl in Hid.
  pose proof (run_numbered h _ (useBus_numbered rnd)) as Hnum.
  fold b in Hreg, Hid, Hnum.
  split_and!.
  - apply Hreg.
  - unfold subs. rewrite <- Hreg. apply Hnum.
  - intros fuel Hlog Hquiet Hfuel.
    destruct (publish_quiet type properties b fuel)
      as (b' & es & Hrun & Hinv & Hret & Hsame & _).
    + by rewrite Hid.
    + rewrite Hid, Hreg. apply Hquiet.
    + by rewrite Hreg.
    + exists b', es. split_and!; [done|done| |].
      * by rewrite Hinv, Hid, Hreg.
      * intros type'. by rewrite Hsame, Hreg.
  - intros fuel b' es Hrun Hret Hund.
    split_and!.
    + unfold publish in Hrun. destruct fuel as [|fuel]; [done|].
      cbn [exec] in Hrun. unfold envelope in Hrun. rewrite Hid in Hrun. fold p in Hrun.
      destruct (debug_line log p) as [line|] eqn:Hline;
        [|by injection Hrun as _ <-].
      apply prepend_Some in Hrun as (es2 & Hrun & ->).
      apply debug_line_Some in Hline as [_ Hline].
      assert (returned es2 = true ∧ undisturbed_from [] es2 = true
              ∧ delivered (line ++ es2) = delivered es2) as (Hret2 & Hund2 & Hdel2)
        by (by destruct Hline as [->| ->]).
      destruct (exec_loop p fuel [] 0 (subscribers type b).2 b' es2)
        as (rest & Hdel & Hend); [done|exact Hrun|done|done|simpl; lia|].
      simpl in Hend. by rewrite Hdel2, Hdel, Hend.
    + by apply (exec_numbered _ _ _ _ _ Hnum Hrun).
    + intros s Hs. apply (exec_keeps _ _ _ _ _ type s Hrun). by rewrite Hreg.
Qed.

End WithScript.

(** C10.  Whatever types [forward] is given, the function it returns is
    [subscribe]: applied to [(type, cb)] on any bus it leaves the same bus
    and hands back the same subscription; so a history in which every
    [forward] is replaced by the plain [subscribe] ends in the same bus. *)
Theorem forward_is_subscribe (ts : list string) (type : string) (cb : Cb) b h :
  forward ts type cb b = subscribe type cb b
  ∧ run (unforward <$> h) b = run h b.
Proof.
  split; [reflexivity|].
  revert b. induction h as [|r h IH]; intros b; [done|].
  change (run (unforward <$> r :: h) b)
    with (run (unforward <$> h) (register b (unforward r))).
  change (run (r :: h) b) with (run h (register b r)).
  rewrite IH. by destruct r.
Qed.

End WithCallbacks.

Lemma publish_delivers_in_subscription_order_witness :
  let quiet := [Subscribe "build.start" "first"; Subscribe "build.success" "other";
                Subscribe "build.start" "second"] in
  let busy := [Subscribe "build.start" "announcer"; Subscribe "build.success" "other";
               Subscribe "build.start" "bouncer"; Subscribe "build.start" "third"] in
  let p := Payload "build.start" 7 "5f2a" in
  let s0 := Sub 0 "build.start" "announcer" in
  let s2 := Sub 2 "build.start" "bouncer" in
  let s3 := Sub 3 "build.start" "third" in
  let s4 := Sub 4 "build.start" "late" in
  (∃ b' es,
     publish sample_script sample_log 5 "build.start" 7 (run quiet (useBus "5f2a"))
     = Some (b', es)
     ∧ returned es = true
     ∧ invocations es
       = [ (Sub 0 "build.start" "first", p); (Sub 2 "build.start" "second", p) ])
  ∧ of_type "build.start" (live busy) = [s0; s2; s3]
  ∧ ∃ b' es,
      publish chatty_script sample_log 12 "build.start" 7 (run busy (useBus "5f2a"))
      = Some (b', es)
      ∧ returned es = true
      ∧ undisturbed es = true
      ∧ delivered es = [(s0, p); (s2, p); (s4, p)]
      ∧ registered "build.start" b' = [s0; s2; s4]
      ∧ Called (Unsubscribe s3) ∈ es.
Proof.
  intros quiet busy p s0 s2 s3 s4.
  destruct (publish_delivers_in_subscription_order sample_script sample_log
              "5f2a" quiet "build.start" 7) as (_ & _ & Hquiet & _).
  destruct (publish_delivers_in_subscription_order chatty_script sample_log
              "5f2a" busy "build.start" 7) as (_ & _ & _ & Hbusy).
  split_and!.
  - destruct (Hquiet 5) as (b' & es & Hrun & Hret & Hinv & _).
    + by right.
    + intros s Hs. change (of_type "build.start" (live quiet))
        with [Sub 0 "build.start" "first"; Sub 2 "build.start" "second"] in Hs.
      rewrite !elem_of_cons, elem_of_nil in Hs. by destruct Hs as [->|[->|[]]].
    + vm_compute. lia.
    + by exists b', es.
  - reflexivity.
  - destruct (publish chatty_script sample_log 12 "build.start" 7
                (run busy (useBus "5f2a"))) as [[b' es]|] eqn:Hrun;
      [|by vm_compute in Hrun].
    assert (returned es = true ∧ undisturbed es = true) as [Hret Hund]
      by (vm_compute in Hrun; injection Hrun as <- <-; split; vm_compute; reflexivity).
    destruct (Hbusy 12 b' es Hrun Hret Hund) as (Hdel & _ & Hkept).
    exists b', es. split_and!; [done|done|done| | |].
    + rewrite Hdel. vm_compute in Hrun. by injection Hrun as <- <-.
    + vm_compute in Hrun. by injection Hrun as <- <-.
    + destruct (Hkept s3) as [Hin|Hcalled]; [|exfalso|done].
      * apply list_elem_of_further, list_elem_of_further, list_elem_of_here.
      * vm_compute in Hrun. injection Hrun as <- <-.
        change (s3 ∈ [s0; s2; s4]) in Hin.
        rewrite !elem_of_cons, elem_of_nil in Hin.
        by destruct Hin as [[=]|[[=]|[[=]|[]]]].
Defined.

(** Two subscribers of ["build.start"] (and one of another type): both are
    called, in the order they subscribed, with the bus's [sourceID]. *)
Example publish_build_start_two_subscribers :
  let b0 := useBus (Cb := string) "5f2a" in
  let '(b1, s1) := subscribe "build.start" "first" b0 in
  let '(b2, _) := subscribe "build.success" "other" b1 in
  let '(b3, s2) := subscribe "build.start" "second" b2 in
  snd <$> publish sample_script sample_log 5 "build.start" 7 b3 =
  Some [ LogDebug (Payload "build.start" 7 "5f2a");
         Invoke false s1 (Payload "build.start" 7 "5f2a");
         Invoke false s2 (Payload "build.start" 7 "5f2a") ]
  ∧ s1 = Sub 0 "build.start" "first" ∧ s2 = Sub 2 "build.start" "second".
Proof. vm_compute. done. Qed.

(** An unsubscribed handle is no longer called, and ["stacks.metadata"]
    is published without a debug line. *)
Example publish_after_unsubscribe :
  let b0 := useBus (Cb := string) "5f2a" in
  let '(b1, s1) := subscribe "stacks.metadata" "first" b0 in
  let '(b2, s2) := subscribe "stacks.metadata" "second" b1 in
  snd <$> publish sample_script sample_log 5 "stacks.metadata" 1 (unsubscribe s1 b2) =
  Some [ Invoke false s2 (Payload "stacks.metadata" 1 "5f2a") ].
Proof. vm_compute. done. Qed.

(** A callback that publishes and subscribes, and one that unsubscribes
    a later subscriber: the events, in order. *)
Example publish_with_calling_subscribers :
  let h := [Subscribe "build.start" "announcer"; Subscribe "build.success" "other";
            Subscribe "build.start" "bouncer"; Subscribe "build.start" "third"] in
  let p := Payload "build.start" 7 "5f2a" in
  snd <$> publish chatty_script sample_log 12 "build.start" 7 (run h (useBus "5f2a")) =
  Some [ LogDebug p;
         Invoke false (Sub 0 "build.start" "announcer") p;
         LogDebug (Payload "build.success" 9 "5f2a");
         Invoke true (Sub 1 "build.success" "other") (Payload "build.success" 9 "5f2a");
         Called (Subscribe "build.start" "late");
         Invoke false (Sub 2 "build.start" "bouncer") p;
         Called (Unsubscribe (Sub 3 "build.start" "third"));
         Invoke false (Sub 4 "build.start" "late") p ].
Proof. vm_compute. done. Qed.

(** A callback that throws ends the delivery: the subscriber after it is
    not called.  So does a debug line that throws, before any subscriber
    is called; the suppressed type has no debug line. *)
Example publish_stops_at_exception :
  let h := [Subscribe "build.start" "thrower"; Subscribe "build.start" "second";
            Subscribe "stacks.metadata" "third"] in
  let b := run h (useBus "5f2a") in
  let p := Payload "build.start" 7 "5f2a" in
  publish chatty_script sample_log 9 "build.start" 7 b
  = Some (b, [LogDebug p; Invoke false (Sub 0 "build.start" "thrower") p; Thrown])
  ∧ snd <$> publish chatty_script broken_log 9 "build.start" 7 b = Some [Thrown]
  ∧ snd <$> publish chatty_script broken_log 9 "stacks.metadata" 7 b
    = Some [Invoke false (Sub 2 "stacks.metadata" "third")
              (Payload "stacks.metadata" 7 "5f2a")].
Proof. vm_compute. done. Qed.

(** The claim as the specification words it: a subscriber that
    unsubscribes itself when called takes the turn of the one after it.
    ["second"] is registered before the [publish] and after it, nothing
    throws, and it is not called. *)
Lemma publish_skips_after_unsubscribe :
  let h := [Subscribe "build.start" "once"; Subscribe "build.start" "second"] in
  let b := run h (useBus "5f2a") in
  let p := Payload "build.start" 7 "5f2a" in
  registered "build.start" b
  = [Sub 0 "build.start" "once"; Sub 1 "build.start" "second"]
  ∧ ∃ b' es,
      publish sample_script sample_log 6 "build.start" 7 b = Some (b', es)
      ∧ es = [LogDebug p; Invoke false (Sub 0 "build.start" "once") p;
              Called (Unsubscribe (Sub 0 "build.start" "once"))]
      ∧ returned es = true
      ∧ undisturbed es = false
      ∧ registered "build.start" b' = [Sub 1 "build.start" "second"].
Proof.
  split; [vm_compute; reflexivity|].
  eexists _, _. split_and!; vm_compute; reflexivity.
Qed.

End BusFacts.
(** ** The functional stack registry *)

Module FunctionalStackFacts.
Import FunctionalStack FunctionalStackSamples.

Section WithOutputs.
Context {V : Type}.
Implicit Types (r : registry V) (fn : definition V) (a : app) (v : V).

Lemma getExports_fst a fn r : (getExports a r).1 !! fn_ref fn = exported a fn r.
Proof.
  unfold getExports, exported. destruct (exportsCache r !! a); simpl; [done|].
  apply lookup_empty.
Qed.

Lemma getExports_exported a a' fn r :
  exported a' fn (getExports a r).2 = exported a' fn r.
Proof.
  unfold getExports, exported. destruct (exportsCache r !! a) eqn:E; [done|].
  simpl. destruct (decide (a = a')) as [->|Hne].
  - rewrite lookup_insert_eq, E. simpl. apply lookup_empty.
  - by rewrite lookup_insert_ne.
Qed.

Lemma getExports_current a r :
  currentApp (getExports a r).2 = currentApp r
  ∧ currentStack (getExports a r).2 = currentStack r
  ∧ children (getExports a r).2 = children r
  ∧ stackCache (getExports a r).2 = stackCache r.
Proof. unfold getExports. by destruct (exportsCache r !! a). Qed.

Lemma getStacks_exported a a' fn r :
  exported a' fn (getStacks a r).2 = exported a' fn r.
Proof. unfold getStacks, exported. by destruct (stackCache r !! a). Qed.

Lemma getStacks_current a r :
  currentApp (getStacks a r).2 = currentApp r
  ∧ currentStack (getStacks a r).2 = currentStack r
  ∧ children (getStacks a r).2 = children r.
Proof. unfold getStacks. by destruct (stackCache r !! a). Qed.

Lemma exports_set_exported a fn v r : exported a fn (exports_set a fn v r) = Some v.
Proof.
  unfold exports_set. destruct (getExports a r) as [m r1]. unfold exported. simpl.
  rewrite lookup_insert_eq. simpl. apply lookup_insert_eq.
Qed.

Lemma exports_set_exported_ne a a' fn fn' v r :
  a ≠ a' ∨ fn_ref fn ≠ fn_ref fn' →
  exported a' fn' (exports_set a fn v r) = exported a' fn' r.
Proof.
  intros Hne. unfold exports_set.
  pose proof (getExports_fst a fn' r) as Hfst.
  pose proof (getExports_exported a a' fn' r) as Hexp.
  destruct (getExports a r) as [m r1]. simpl in *.
  rewrite <- Hexp. unfold exported. simpl.
  destruct (decide (a = a')) as [<-|Ha].
  - rewrite lookup_insert_eq. simpl.
    destruct Hne as [?|Hfn]; [done|]. rewrite lookup_insert_ne by done.
    rewrite Hfst. unfold exported in Hexp. by rewrite Hexp.
  - by rewrite lookup_insert_ne.
Qed.

Lemma exports_set_current a fn v r :
  currentApp (exports_set a fn v r) = currentApp r
  ∧ currentStack (exports_set a fn v r) = currentStack r.
Proof.
  unfold exports_set. pose proof (getExports_current a r) as (? & ? & _).
  by destruct (getExports a r).
Qed.

Lemma stacks_set_exported a a' fn fn' st r :
  exported a' fn' (stacks_set a fn st r) = exported a' fn' r.
Proof.
  unfold stacks_set. pose proof (getStacks_exported a a' fn' r).
  by destruct (getStacks a r).
Qed.

Lemma stacks_set_current a fn st r :
  currentApp (stacks_set a fn st r) = currentApp r
  ∧ currentStack (stacks_set a fn st r) = currentStack r.
Proof.
  unfold stacks_set. pose proof (getStacks_current a r) as (? & ? & _).
  by destruct (getStacks a r).
Qed.

(** [stack] refuses a definition whose output is stored for the
    application. *)
Lemma enter_duplicate a fn props r :
  is_Some (exported a fn r) →
  (enter a fn props r).2 = inl (StackDuplicates (stack_id fn props)).
Proof.
  intros Hsome. unfold enter.
  pose proof (getExports_fst a fn (set_current a (handle_of fn) r)) as Hfst.
  destruct (getExports a (set_current a (handle_of fn) r)) as [m r1].
  simpl in Hfst. change (exported a fn (set_current a (handle_of fn) r))
    with (exported a fn r) in Hfst.
  rewrite decide_True; [done|]. by rewrite Hfst.
Qed.

Lemma stack_duplicate a fn props r :
  is_Some (exported a fn r) →
  (stack a fn props r).2 = inl (StackDuplicates (stack_id fn props)).
Proof.
  intros Hsome. unfold stack. pose proof (enter_duplicate a fn props r Hsome).
  destruct (enter a fn props r) as [r1 [e|st]]; simpl in *; congruence.
Qed.

(** When [stack] gets as far as calling [fn], nothing was stored for it,
    and nothing is yet; the application and the definition are the current
    ones; and the outputs of other registrations are untouched. *)
Lemma enter_ok a fn props r r1 st :
  enter a fn props r = (r1, inr st) →
  exported a fn r = None
  ∧ (∀ a' fn', exported a' fn' r1 = exported a' fn' r)
  ∧ currentApp r1 = Some a
  ∧ currentStack r1 = Some (handle_of fn)
  ∧ st = StackHandle a (stack_id fn props)
  ∧ stack_id fn props ∉ default ∅ (children r !! a).
Proof.
  unfold enter. set (r0 := set_current a (handle_of fn) r).
  pose proof (getExports_fst a fn r0) as Hfst.
  pose proof (λ a' fn', getExports_exported a a' fn' r0) as Hexp.
  pose proof (getExports_current a r0) as (Happ & Hst & Hch & _).
  destruct (getExports a r0) as [m r'] eqn:E. simpl in *.
  destruct (decide (is_Some (m !! fn_ref fn))) as [|Hnone]; [done|].
  unfold new_EmptyStack. rewrite Hch. simpl.
  destruct (decide (stack_id fn props ∈ default ∅ (children r !! a)));
    [done|].
  intros [= <- <-]. split_and!; try done.
  - rewrite Hfst in Hnone. change (exported a fn r0) with (exported a fn r) in Hnone.
    by apply eq_None_not_Some.
  - intros a' fn'. rewrite stacks_set_exported. unfold exported at 1. simpl.
    apply Hexp.
  - by rewrite (proj1 (stacks_set_current _ _ _ _)).
  - by rewrite (proj2 (stacks_set_current _ _ _ _)).
Qed.



(** A registration that returns the application stored what the body
    returned. *)
Lemma stack_done a fn props r r1 a1 :
  stack a fn props r = (r1, inr (Done a1)) →
  ∃ st r0 ret v,
    enter a fn props r = (r0, inr st)
    ∧ fn_body fn st r0 = Returns ret ∧ plain_value ret = Some v
    ∧ a1 = a ∧ r1 = exports_set a fn v r0.
Proof.
  unfold stack. destruct (enter a fn props r) as [r0 [e|st]] eqn:E; [done|].
  destruct (fn_body fn st r0) as [m|[v|v|d|v]] eqn:B; intros [= <- <-];
    by eexists st, r0, _, v.
Qed.

(** A registration that returns a promise stored nothing. *)
Lemma stack_pending a fn props r r1 p :
  stack a fn props r = (r1, inr (Pending p)) →
  ∃ st,
    enter a fn props r = (r1, inr st)
    ∧ fn_body fn st r1 = Returns (RetThenable (pd_data p))
    ∧ pd_app p = a ∧ pd_fn p = fn.
Proof.
  unfold stack. destruct (enter a fn props r) as [r0 [e|st]] eqn:E; [done|].
  destruct (fn_body fn st r0) as [m|[v|v|d|v]] eqn:B; intros [= <- <-];
    by exists st.
Qed.

(** The part of the specification's duplicate rule that the code keeps:
    a second registration is refused once the first one has stored its
    output, at once for a synchronous body, after the promise is
    fulfilled for an asynchronous one. *)
Lemma stack_twice_completed a fn props props' r r1 res :
  stack a fn props r = (r1, inr res) →
  let r2 := match res with Done _ => r1 | Pending p => settle p r1 end in
  (stack a fn props' r2).2 = inl (StackDuplicates (stack_id fn props')).
Proof.
  intros Hstack. destruct res as [a1|p]; simpl.
  - apply stack_done in Hstack as (st & r0 & ret & v & _ & _ & _ & -> & ->).
    apply stack_duplicate. rewrite exports_set_exported. by eexists.
  - apply stack_pending in Hstack as (st & _ & _ & Ha & Hfn).
    apply stack_duplicate. unfold settle. rewrite Ha, Hfn.
    rewrite exports_set_exported. by eexists.
Qed.

(** Registrations for another application do not get in the way: the
    same definition is accepted there as long as that application has no
    stack of that name and the body neither throws nor returns a truthy
    primitive. *)
Lemma stack_other_app a a' fn props props' r r1 res :
  a ≠ a' →
  stack a fn props r = (r1, inr res) →
  exported a' fn r = None →
  stack_id fn props' ∉ default ∅ (children r1 !! a') →
  (∀ st r0, ∃ ret, fn_body fn st r0 = Returns ret
                   ∧ ∀ v, ret ≠ RetPrimitive v) →
  ∃ r2 res', stack a' fn props' r1 = (r2, inr res').
Proof.
  intros Hne Hstack Hexp Hfree Hbody.
  assert (exported a' fn r1 = None) as Hexp1.
  { destruct res as [a1|p].
    - apply stack_done in Hstack as (st & r0 & ret & v & He & _ & _ & -> & ->).
      apply enter_ok in He as (_ & Hsame & _).
      rewrite exports_set_exported_ne by auto. by rewrite Hsame.
    - apply stack_pending in Hstack as (st & He & _).
      apply enter_ok in He as (_ & Hsame & _). by rewrite Hsame. }
  unfold stack, enter. set (r0 := set_current a' (handle_of fn) r1).
  pose proof (getExports_fst a' fn r0) as Hfst.
  pose proof (getExports_current a' r0) as (_ & _ & Hch & _).
  destruct (getExports a' r0) as [m r']. simpl in *.
  change (exported a' fn r0) with (exported a' fn r1) in Hfst.
  rewrite Hexp1 in Hfst. rewrite decide_False by (rewrite Hfst; by intros [? ?]).
  unfold new_EmptyStack. rewrite Hch. simpl. rewrite decide_False by done.
  match goal with |- context [fn_body fn ?st ?r0] =>
    destruct (Hbody st r0) as (ret & -> & Hprim) end.
  destruct ret as [v|v|d|v]; try by eauto.
  by destruct (Hprim v).
Qed.


End WithOutputs.


(** The same definition registered twice, for one application and for
    two. *)
Example stack_twice_synchronous :
  let r1 := stack 7 Api None empty_registry in
  r1.2 = inr (Done 7)
  ∧ (stack 7 Api None r1.1).2 = inl (StackDuplicates "Api")
  ∧ (stack 7 Api (Some (StackProps (Some "Api2"))) r1.1).2
    = inl (StackDuplicates "Api2")
  ∧ (stack 8 Api None r1.1).2 = inr (Done 8)
  ∧ (use Api (stack 8 Api None r1.1).1).2 = inr "api.url".
Proof. vm_compute. done. Qed.

(** While the promise of an asynchronous body is not fulfilled, nothing
    is stored for the definition, and [stack] does not take a second
    registration for a duplicate. *)
Lemma stack_pending_not_detected {V} a (fn : definition V) props props' r r1 p id :
  stack a fn props r = (r1, inr (Pending p)) →
  (stack a fn props' r1).2 ≠ inl (StackDuplicates id).
Proof.
  intros Hstack. apply stack_pending in Hstack as (st & He & _).
  apply enter_ok in He as (Hnone & Hsame & _).
  unfold stack, enter. set (r0 := set_current a (handle_of fn) r1).
  pose proof (getExports_fst a fn r0) as Hfst.
  destruct (getExports a r0) as [m r']. simpl in Hfst.
  change (exported a fn r0) with (exported a fn r1) in Hfst.
  rewrite Hsame, Hnone in Hfst.
  rewrite decide_False by (rewrite Hfst; by intros [? ?]).
  unfold new_EmptyStack. destruct (decide _); [done|].
  by repeat case_match.
Qed.

(** C4, where the code departs from it.  [Database] returns a promise.
    Registered a second time for the same application before the promise
    is fulfilled, under another [id], it is accepted: [stack] returns a
    second promise, the application has two stacks for the one
    definition, and the stack cache has forgotten the first.  Under the
    same [id] the second registration does fail, but in the [constructs]
    library, on the name, and not as a duplicate stack. *)
Theorem stack_twice_while_pending_is_accepted :
  let r1 := stack 7 Database None empty_registry in
  let r2 := stack 7 Database (Some (StackProps (Some "Database2"))) r1.1 in
  r1.2 = inr (Pending (Pending_ 7 Database "table"))
  ∧ exported 7 Database r1.1 = None
  ∧ r2.2 = inr (Pending (Pending_ 7 Database "table"))
  ∧ children r2.1 !! 7 = Some {[ "Database"; "Database2" ]}
  ∧ (getStack Database r1.1).2 = inr (StackHandle 7 "Database")
  ∧ (getStack Database r2.1).2 = inr (StackHandle 7 "Database2")
  ∧ (stack 7 Database None r1.1).2 = inl (NameTaken "Database")
  ∧ (stack 7 Database None (settle (Pending_ 7 Database "table") r1.1)).2
    = inl (StackDuplicates "Database").
Proof. vm_compute. done. Qed.

End FunctionalStackFacts.


(** ** The site constructs *)

Module SiteFacts.
Import BaseSite SiteSamples.

(** *** Traces *)

Lemma bind_trace {A B} (m : M A) (k : A → M B) (fs : filesystem) :
  trace (bind m k fs) =
  trace (m fs) ++
    match outcome (m fs) with
    | inl _ => []
    | inr a => trace (k a (m fs).1.2)
    end.
Proof.
  unfold bind, trace, outcome. destruct (m fs) as [[es fs1] [e|a]]; simpl.
  - by rewrite app_nil_r.
  - by destruct (k a fs1) as [[es' fs2] r].
Qed.

Lemma bind_outcome {A B} (m : M A) (k : A → M B) (fs : filesystem) :
  outcome (bind m k fs) =
  match outcome (m fs) with
  | inl e => inl e
  | inr a => outcome (k a (m fs).1.2)
  end.
Proof.
  unfold bind, outcome. destruct (m fs) as [[es fs1] [e|a]]; simpl; [done|].
  by destruct (k a fs1) as [[es' fs2] r].
Qed.

(** A property of every effect of [m] and of every continuation holds of
    every effect of [bind m k]. *)
Lemma bind_Forall {A B} (P : effect → Prop) (m : M A) (k : A → M B) fs :
  Forall P (trace (m fs)) →
  (∀ a fs', Forall P (trace (k a fs'))) →
  Forall P (trace (bind m k fs)).
Proof.
  intros Hm Hk. rewrite bind_trace. apply Forall_app. split; [done|].
  destruct (outcome (m fs)); [constructor|apply Hk].
Qed.

Lemma for_each_Forall {A} (P : effect → Prop) (f : A → M unit) (l : list A) :
  (∀ x fs, Forall P (trace (f x fs))) →
  ∀ fs, Forall P (trace (for_each f l fs)).
Proof.
  intros Hf. induction l as [|x l IH]; intros fs; simpl.
  - constructor.
  - apply bind_Forall; [apply Hf|]. intros _ fs'. apply IH.
Qed.

(** What throws leaves no effect behind it. *)
Lemma throw_trace {A} (e : error) fs : trace (throw (A := A) e fs) = [].
Proof. done. Qed.

Create HintDb site_trace.
#[local] Hint Resolve Forall_nil : site_trace.
#[local] Hint Extern 1 (Forall _ (trace (ret _ _))) => constructor : site_trace.
#[local] Hint Extern 1 (Forall _ (trace (throw _ _))) => constructor : site_trace.
#[local] Hint Extern 1 (Forall _ (trace (read_fs _))) => constructor : site_trace.
#[local] Hint Extern 1 (Forall _ (trace (write_fs _ _))) => constructor : site_trace.
#[local] Hint Extern 1 (Forall _ (trace (emit _ _))) =>
  (apply Forall_cons; split; [reflexivity|constructor]) : site_trace.

(** Goes through a computation bind by bind, splitting on the tests it
    makes. *)
Ltac walk :=
  repeat first
    [ progress intros
    | apply bind_Forall
    | solve [auto with site_trace]
    | match goal with
      | |- Forall _ (trace ((if ?c then _ else _) _)) => destruct c
      | |- Forall _ (trace ((match ?c with _ => _ end) _)) => destruct c
      | |- Forall _ (trace (SsrSite.lift ?r _)) => destruct r; simpl
      end ].

(** *** Timeouts *)

(** The constructor starts no process, whatever its arguments. *)
Lemma SsrSite_construct_starts_no_process X ctx cfg id p fs :
  Forall (λ e, is_process e = false)
         (trace (SsrSite.construct X ctx cfg id p fs)).
Proof.
  unfold SsrSite.construct, SsrSite.validateSiteExists, SsrSite.writeTypesFile,
    SsrSite.createFunctionForDev.
  walk.
Qed.

(** C6.  [validateTimeout] throws exactly when the timeout, in seconds,
    is above 30 for a site on the edge and above 180 for a regional one,
    and returns otherwise.  It runs in the constructor, which starts no
    process at all: a site whose directory exists and whose timeout is
    above the ceiling makes the constructor throw that error before it
    has had any effect, and with no task deferred. *)
Theorem validateTimeout_ceiling (X : externals) (p : SsrSite.site_props) :
  (SsrSite.validateTimeout X p = inl (TimeoutTooLarge (SsrSite.props_edge p))
   ↔ (SsrSite.timeout_seconds X p > SsrSite.timeout_ceiling p)%Z)
  ∧ (SsrSite.validateTimeout X p = inr tt
     ↔ (SsrSite.timeout_seconds X p ≤ SsrSite.timeout_ceiling p)%Z)
  ∧ (∀ ctx cfg id fs,
       Forall (λ e, is_process e = false)
              (trace (SsrSite.construct X ctx cfg id p fs))
       ∧ (existsSync fs (SsrSite.props_path p) = true →
          (SsrSite.timeout_seconds X p > SsrSite.timeout_ceiling p)%Z →
          SsrSite.construct X ctx cfg id p fs
          = ([], fs, inl (TimeoutTooLarge (SsrSite.props_edge p))))).
Proof.
  assert (∀ q, SsrSite.validateTimeout X q =
               if decide (SsrSite.timeout_seconds X q > SsrSite.timeout_ceiling q)%Z
               then inl (TimeoutTooLarge (SsrSite.props_edge q)) else inr tt)
    as Hv by done.
  split_and!.
  - rewrite Hv. destruct (decide _); split; (done || lia || congruence).
  - rewrite Hv. destruct (decide _); split; (done || lia || congruence).
  - intros ctx cfg id fs. split.
    + apply SsrSite_construct_starts_no_process.
    + intros Hpath Hbig. unfold SsrSite.construct, SsrSite.validateSiteExists.
      unfold bind at 1. unfold bind at 1. simpl. rewrite Hpath. simpl.
      rewrite Hv, decide_True by done. reflexivity.
Qed.

Lemma validateTimeout_ceiling_witness :
  let p := with_timeout (SsrSite.Duration "5 minutes") false in
  let fs := {| files := ∅; dirs := {[ "web" ]} |} in
  (existsSync fs (SsrSite.props_path p) = true
   ∧ (SsrSite.timeout_seconds sample_externals p > SsrSite.timeout_ceiling p)%Z)
  ∧ ∀ ctx cfg id,
      SsrSite.construct sample_externals ctx cfg id p fs
      = ([], fs, inl (TimeoutTooLarge false)).
Proof.
  intros p fs.
  assert (existsSync fs (SsrSite.props_path p) = true
          ∧ (SsrSite.timeout_seconds sample_externals p > SsrSite.timeout_ceiling p)%Z) as Hpre
    by (split; vm_compute; reflexivity).
  split; [exact Hpre|]. intros ctx cfg id.
  exact (proj2 (proj2 (proj2 (validateTimeout_ceiling sample_externals p))
                  ctx cfg id fs) (proj1 Hpre) (proj2 Hpre)).
Defined.

(** The two ceilings at work: 31 seconds are too many on the edge, 180
    are not for a regional site, and a minute is fine on neither side of
    the edge flag only when it is off. *)
Example validateTimeout_examples :
  SsrSite.validateTimeout sample_externals (with_timeout (SsrSite.Seconds 31) true)
  = inl (TimeoutTooLarge true)
  ∧ SsrSite.validateTimeout sample_externals (with_timeout (SsrSite.Seconds 30) true)
    = inr tt
  ∧ SsrSite.validateTimeout sample_externals
      (with_timeout (SsrSite.Duration "1 minute") true)
    = inl (TimeoutTooLarge true)
  ∧ SsrSite.validateTimeout sample_externals
      (with_timeout (SsrSite.Duration "1 minute") false)
    = inr tt
  ∧ SsrSite.validateTimeout sample_externals (with_timeout (SsrSite.Seconds 180) false)
    = inr tt
  ∧ SsrSite.validateTimeout sample_externals
      (with_timeout (SsrSite.Duration "5 minutes") false)
    = inl (TimeoutTooLarge false).
Proof. vm_compute. done. Qed.

(** *** Sites that are not deployed *)

Lemma SsrSite_doNotDeploy_in_dev ctx p :
  SsrSite.app_mode ctx = "dev" → SsrSite.dev_deploy p = false →
  negb (SsrSite.stack_isActive ctx)
  || (bool_decide (SsrSite.app_mode ctx = "dev") && negb (SsrSite.dev_deploy p))
  = true.
Proof.
  intros -> ->. rewrite bool_decide_eq_true_2 by done. apply orb_true_r.
Qed.

Lemma StaticSite_doNotDeploy_in_dev ctx p :
  StaticSite.app_mode ctx = "dev" → StaticSite.dev_deploy p = false →
  negb (StaticSite.stack_isActive ctx)
  || (bool_decide (StaticSite.app_mode ctx = "dev")
      && negb (StaticSite.dev_deploy p))
  = true.
Proof.
  intros -> ->. rewrite bool_decide_eq_true_2 by done. apply orb_true_r.
Qed.

(** The site a constructor returns in that case, and the tasks it
    deferred. *)
Lemma SsrSite_construct_placeholder X ctx cfg id p fs s tasks :
  SsrSite.app_mode ctx = "dev" → SsrSite.dev_deploy p = false →
  outcome (SsrSite.construct X ctx cfg id p fs) = inr (s, tasks) →
  SsrSite.doNotDeploy s = true ∧ SsrSite.props s = p
  ∧ SsrSite.has_bucket s = false ∧ SsrSite.has_distribution s = false
  ∧ tasks = [SsrSite.BuildDevFunction].
Proof.
  intros Hmode Hdev. unfold SsrSite.construct.
  rewrite (SsrSite_doNotDeploy_in_dev ctx p Hmode Hdev).
  unfold SsrSite.validateSiteExists, SsrSite.lift, SsrSite.writeTypesFile,
    SsrSite.createFunctionForDev, outcome, bind, ret, throw, emit, read_fs,
    write_fs.
  simpl. repeat case_match; simplify_eq/=; try done.
  all: by intros [= <- <-].
Qed.

Lemma StaticSite_construct_placeholder ctx id p fs s tasks :
  StaticSite.app_mode ctx = "dev" → StaticSite.dev_deploy p = false →
  outcome (StaticSite.construct ctx id p fs) = inr (s, tasks) →
  StaticSite.doNotDeploy s = true ∧ StaticSite.props s = p
  ∧ StaticSite.has_bucket s = false ∧ StaticSite.has_distribution s = false
  ∧ tasks = [].
Proof.
  intros Hmode Hdev. unfold StaticSite.construct.
  rewrite (StaticSite_doNotDeploy_in_dev ctx p Hmode Hdev).
  unfold StaticSite.generateViteTypes, outcome, bind, ret, throw, emit,
    read_fs, write_fs.
  simpl. repeat case_match; simplify_eq/=; try done.
  all: by intros [= <- <-].
Qed.

Lemma SsrSite_declared X ctx cfg id p fs s :
  outcome (SsrSite.declare_and_build X ctx cfg id p fs) = inr s →
  ∃ tasks, outcome (SsrSite.construct X ctx cfg id p fs) = inr (s, tasks).
Proof.
  unfold SsrSite.declare_and_build. rewrite bind_outcome.
  destruct (outcome (SsrSite.construct X ctx cfg id p fs)) as [e|[s' tasks]];
    [done|].
  rewrite bind_outcome. destruct (outcome (SsrSite.drain _ _ _ _)); [done|].
  intros [= <-]. by exists tasks.
Qed.

Lemma StaticSite_declared X ctx id p fs s :
  outcome (StaticSite.declare_and_build X ctx id p fs) = inr s →
  ∃ tasks, outcome (StaticSite.construct ctx id p fs) = inr (s, tasks).
Proof.
  unfold StaticSite.declare_and_build. rewrite bind_outcome.
  destruct (outcome (StaticSite.construct ctx id p fs)) as [e|[s' tasks]];
    [done|].
  rewrite bind_outcome. destruct (outcome (StaticSite.drain _ _ _ _)); [done|].
  intros [= <-]. by exists tasks.
Qed.

(** C1.  A site declared while the application is in dev mode, with
    [dev.deploy] false (or left out), goes from its constructor to the end
    of its deferred tasks without running the build command, archiving
    anything, declaring a bucket, an upload or deployment resource or a
    distribution, adding a CDN behaviour or invalidating anything.  It has
    neither bucket nor distribution.  Its [url] is the [dev.url] of the
    props it was given, and nothing ([undefined]) when they have none;
    the URL it hands to functions bound to it is that [dev.url], and
    ["localhost"] when they have none.  This holds of server-rendered and
    of static sites. *)
Theorem placeholder_site_never_deploys :
  (∀ X ctx cfg id p fs,
     SsrSite.app_mode ctx = "dev" → SsrSite.dev_deploy p = false →
     Forall (λ e, is_deployment e = false)
            (trace (SsrSite.declare_and_build X ctx cfg id p fs))
     ∧ ∀ s, outcome (SsrSite.declare_and_build X ctx cfg id p fs) = inr s →
         SsrSite.has_bucket s = false ∧ SsrSite.has_distribution s = false
         ∧ SsrSite.url ctx s
           = match SsrSite.dev p with
             | Some d => SsrSite.dev_url d
             | None => None
             end
         ∧ SsrSite.getFunctionBinding_url ctx s
           = SsrSite.BindingVariable "plain"
               (Some match SsrSite.dev p with
                     | Some {| SsrSite.dev_url := Some u |} => u
                     | _ => "localhost"
                     end))
  ∧ (∀ X ctx id p fs,
       StaticSite.app_mode ctx = "dev" → StaticSite.dev_deploy p = false →
       Forall (λ e, is_deployment e = false)
              (trace (StaticSite.declare_and_build X ctx id p fs))
       ∧ ∀ s, outcome (StaticSite.declare_and_build X ctx id p fs) = inr s →
           StaticSite.has_bucket s = false ∧ StaticSite.has_distribution s = false
           ∧ StaticSite.url ctx s
             = match StaticSite.dev p with
               | Some d => StaticSite.dev_url d
               | None => None
               end
           ∧ StaticSite.getFunctionBinding_url ctx s
             = StaticSite.BindingVariable "plain"
                 (Some match StaticSite.dev p with
                       | Some {| StaticSite.dev_url := Some u |} => u
                       | _ => "localhost"
                       end)).
Proof.
  split.
  - intros X ctx cfg id p fs Hmode Hdev. split.
    + unfold SsrSite.declare_and_build. rewrite bind_trace.
      apply Forall_app. split.
      * unfold SsrSite.construct.
        rewrite (SsrSite_doNotDeploy_in_dev ctx p Hmode Hdev).
        unfold SsrSite.validateSiteExists, SsrSite.writeTypesFile,
          SsrSite.createFunctionForDev.
        walk.
      * destruct (outcome (SsrSite.construct X ctx cfg id p fs))
          as [e|[s tasks]] eqn:E; [constructor|].
        apply SsrSite_construct_placeholder in E as (_ & _ & _ & _ & ->);
          [|done..].
        unfold SsrSite.drain. simpl. walk.
    + intros s Hs. apply SsrSite_declared in Hs as [tasks Hs].
      apply SsrSite_construct_placeholder in Hs as (Hd & Hp & Hb & Hc & _);
        [|done..].
      unfold SsrSite.url, SsrSite.getFunctionBinding_url, SsrSite.props_dev_url.
      rewrite Hd, Hp. split_and!; [done|done| |].
      * by destruct (SsrSite.dev p).
      * by destruct (SsrSite.dev p) as [[? [u|]]|].
  - intros X ctx id p fs Hmode Hdev. split.
    + unfold StaticSite.declare_and_build. rewrite bind_trace.
      apply Forall_app. split.
      * unfold StaticSite.construct.
        rewrite (StaticSite_doNotDeploy_in_dev ctx p Hmode Hdev).
        unfold StaticSite.generateViteTypes.
        walk.
      * destruct (outcome (StaticSite.construct ctx id p fs))
          as [e|[s tasks]] eqn:E; [constructor|].
        apply StaticSite_construct_placeholder in E as (_ & _ & _ & _ & ->);
          [|done..].
        unfold StaticSite.drain. simpl. walk.
    + intros s Hs. apply StaticSite_declared in Hs as [tasks Hs].
      apply StaticSite_construct_placeholder in Hs as (Hd & Hp & Hb & Hc & _);
        [|done..].
      unfold StaticSite.url, StaticSite.getFunctionBinding_url,
        StaticSite.props_dev_url.
      rewrite Hd, Hp. split_and!; [done|done| |].
      * by destruct (StaticSite.dev p).
      * by destruct (StaticSite.dev p) as [[? [u|]]|].
Qed.

(** *** Archive parts *)

Lemma string_length_app (s t : string) :
  String.length (s +:+ t) = String.length s + String.length t.
Proof. induction s as [|c s IH]; simpl; [done|]. by rewrite IH. Qed.

Lemma string_app_inj_r (t s1 s2 : string) : s1 +:+ t = s2 +:+ t → s1 = s2.
Proof.
  revert s2. induction s1 as [|c s1 IH]; intros [|c' s2] Heq; simpl in *.
  - done.
  - apply (f_equal String.length) in Heq.
    rewrite ?string_length_app in Heq. simpl in Heq.
    rewrite ?string_length_app in Heq. lia.
  - apply (f_equal String.length) in Heq.
    rewrite ?string_length_app in Heq. simpl in Heq.
    rewrite ?string_length_app in Heq. lia.
  - injection Heq as -> Heq. f_equal. by apply IH.
Qed.

(** Two parts have two names. *)
Lemma zipFilePath_inj (zipOutDir : string) : Inj (=) (=) (zipFilePath zipOutDir).
Proof.
  intros i j Heq. unfold zipFilePath in Heq.
  do 3 apply String.app_inj in Heq.
  apply string_app_inj_r in Heq. by apply pretty_nat_inj in Heq.
Qed.

(** With fuel to spare the loop lists the parts up to the first one that
    is missing. *)
Lemma probe_parts_run fs zipOutDir n : ∀ fuel partId,
  n < fuel →
  (∀ i, (partId ≤ i < partId + n)%nat → existsSync fs (zipFilePath zipOutDir i) = true) →
  existsSync fs (zipFilePath zipOutDir (partId + n)) = false →
  probe_parts fuel fs zipOutDir partId = part zipOutDir <$> seq partId n.
Proof.
  induction n as [|n IH]; intros fuel partId Hfuel Hparts Hgap.
  - destruct fuel as [|fuel]; [lia|]. simpl.
    rewrite Nat.add_0_r in Hgap. by rewrite Hgap.
  - destruct fuel as [|fuel]; [lia|]. simpl.
    rewrite Hparts by lia. f_equal. apply IH; [lia| |].
    + intros i Hi. apply Hparts. lia.
    + replace (S partId + n) with (partId + S n) by lia. done.
Qed.

(** The parts that exist are files or directories, each under its own
    name: there are no more of them than the file system holds. *)
Lemma parts_bounded fs zipOutDir n :
  (∀ i, i < n → existsSync fs (zipFilePath zipOutDir i) = true) →
  (n ≤ size (all_paths fs))%nat.
Proof.
  intros Hparts.
  assert (NoDup (zipFilePath zipOutDir <$> seq 0 n)) as Hnodup.
  { apply (@NoDup_fmap_2 _ _ _ (zipFilePath_inj zipOutDir)), NoDup_seq. }
  rewrite <- (length_seq n 0) at 1.
  rewrite <- (length_fmap (zipFilePath zipOutDir)).
  rewrite <- (size_list_to_set (C := gset string)) by done.
  apply subseteq_size. intros q Hq.
  apply elem_of_list_to_set, list_elem_of_fmap in Hq as (i & -> & Hi).
  apply elem_of_seq in Hi. specialize (Hparts i ltac:(lia)).
  unfold existsSync in Hparts. by apply bool_decide_eq_true in Hparts.
Qed.

(** The fuel [discover_parts] starts with is never used up. *)
Lemma discover_parts_spec fs zipOutDir n :
  (∀ i, i < n → existsSync fs (zipFilePath zipOutDir i) = true) →
  existsSync fs (zipFilePath zipOutDir n) = false →
  discover_parts fs zipOutDir = part zipOutDir <$> seq 0 n.
Proof.
  intros Hparts Hgap. unfold discover_parts.
  apply probe_parts_run; [|intros i Hi; apply Hparts; lia|done].
  pose proof (parts_bounded fs zipOutDir n Hparts). lia.
Qed.

(** Some part is always missing, so the loop always ends, and at the
    first missing part. *)
Lemma discover_parts_total fs zipOutDir :
  ∃ n, (∀ i, i < n → existsSync fs (zipFilePath zipOutDir i) = true)
       ∧ existsSync fs (zipFilePath zipOutDir n) = false
       ∧ discover_parts fs zipOutDir = part zipOutDir <$> seq 0 n.
Proof.
  assert (∀ k, (∀ i, i < k → existsSync fs (zipFilePath zipOutDir i) = true) →
               ∃ n, (∀ i, i < n → existsSync fs (zipFilePath zipOutDir i) = true)
                    ∧ existsSync fs (zipFilePath zipOutDir n) = false) as Hfind.
  { intros k Hk. pose proof (parts_bounded fs zipOutDir k Hk) as Hbound.
    remember (S (size (all_paths fs)) - k) as d eqn:Hd.
    revert k Hk Hbound Hd. induction d as [|d IH]; intros k Hk Hbound Hd; [lia|].
    destruct (existsSync fs (zipFilePath zipOutDir k)) eqn:Ek.
    - assert (∀ i, i < S k → existsSync fs (zipFilePath zipOutDir i) = true)
        as Hk'.
      { intros i Hi. destruct (decide (i = k)) as [->|]; [done|].
        apply Hk. lia. }
      apply (IH (S k) Hk'); [by apply (parts_bounded fs zipOutDir)|lia].
    - by exists k. }
  destruct (Hfind 0) as (n & Hparts & Hgap); [intros i Hi; lia|].
  exists n. split_and!; try done. by apply discover_parts_spec.
Qed.

Lemma for_each_emit {A} (g : A → M unit) (f : A → effect) (l : list A) fs :
  (∀ a fs', g a fs' = ([f a], fs', inr tt)) →
  for_each g l fs = (f <$> l, fs, inr tt).
Proof.
  intros Hg. induction l as [|a l IH]; [done|].
  cbn [for_each]. unfold bind. by rewrite Hg, IH.
Qed.

(** [createS3Assets] from end to end: the folder is cleared, the archiver
    runs, and when it exits with 0 the assets are the parts found in what
    it left. *)
Lemma SsrSite_createS3Assets_run X ctx s fs :
  let dir := SsrSite.zipOutDir ctx s in
  let result :=
    archiver X (SsrSite.archive_sources s) dir (SsrSite.fileSizeLimit ctx s)
      (rmSync dir fs) in
  let started :=
    [Removed dir;
     Archived (SsrSite.archive_sources s) dir (SsrSite.fileSizeLimit ctx s)] in
  SsrSite.createS3Assets X ctx s fs =
  if decide (result.1 ≠ 0)%Z
  then (started, result.2, inl (PackageFailed (SsrSite.node_id s)))
  else (started ++ (AssetCreated <$> discover_parts result.2 dir), result.2,
        inr (discover_parts result.2 dir)).
Proof.
  intros dir result started. unfold SsrSite.createS3Assets.
  unfold bind at 1 2 3 4 5. cbn [read_fs write_fs emit]. fold dir. fold result.
  destruct (decide (result.1 ≠ 0)%Z); [done|].
  unfold bind. cbn [write_fs ret].
  rewrite (for_each_emit _ AssetCreated) by done.
  cbn. by rewrite ?app_nil_r.
Qed.

Lemma StaticSite_createS3Assets_run X ctx s fs :
  let dir := StaticSite.zipPath ctx s in
  let sources := [(StaticSite.siteOutputPath s, "")] in
  let result :=
    archiver X sources dir (StaticSite.fileSizeLimit ctx s) (rmSync dir fs) in
  let started :=
    [Removed dir; Archived sources dir (StaticSite.fileSizeLimit ctx s)] in
  existsSync fs (StaticSite.siteOutputPath s) = true →
  StaticSite.createS3Assets X ctx s fs =
  if decide (result.1 ≠ 0)%Z
  then (started, result.2, inl (PackageFailed (StaticSite.node_id s)))
  else (started ++ (AssetCreated <$> discover_parts result.2 dir), result.2,
        inr (discover_parts result.2 dir)).
Proof.
  intros dir sources result started Hout. unfold StaticSite.createS3Assets.
  unfold bind at 1. cbn [read_fs]. rewrite Hout. cbn [negb].
  unfold bind at 1 2 3 4 5. cbn [read_fs write_fs emit].
  fold dir. fold sources. fold result.
  destruct (decide (result.1 ≠ 0)%Z); [done|].
  unfold bind. cbn [write_fs ret].
  rewrite (for_each_emit _ AssetCreated) by done.
  cbn. by rewrite ?app_nil_r.
Qed.

(** C2.  When the archiver has exited with 0 and left the parts 0 to
    [n - 1] but no part [n], [createS3Assets] returns exactly [n] assets,
    one per part, in order, whatever else the archiver left, parts of a
    higher number included.  This holds of server-rendered and of static
    sites. *)
Theorem createS3Assets_stops_at_first_missing_part (X : externals) (n : nat) :
  (∀ ctx s fs,
     let dir := SsrSite.zipOutDir ctx s in
     let result :=
       archiver X (SsrSite.archive_sources s) dir (SsrSite.fileSizeLimit ctx s)
         (rmSync dir fs) in
     result.1 = 0%Z →
     (∀ i, i < n → existsSync result.2 (zipFilePath dir i) = true) →
     existsSync result.2 (zipFilePath dir n) = false →
     outcome (SsrSite.createS3Assets X ctx s fs) = inr (part dir <$> seq 0 n)
     ∧ length (part dir <$> seq 0 n) = n)
  ∧ (∀ ctx s fs,
       let dir := StaticSite.zipPath ctx s in
       let result :=
         archiver X [(StaticSite.siteOutputPath s, "")] dir
           (StaticSite.fileSizeLimit ctx s) (rmSync dir fs) in
       existsSync fs (StaticSite.siteOutputPath s) = true →
       result.1 = 0%Z →
       (∀ i, i < n → existsSync result.2 (zipFilePath dir i) = true) →
       existsSync result.2 (zipFilePath dir n) = false →
       outcome (StaticSite.createS3Assets X ctx s fs) = inr (part dir <$> seq 0 n)
       ∧ length (part dir <$> seq 0 n) = n).
Proof.
  split.
  - intros ctx s fs dir result Hstatus Hparts Hgap. split.
    + rewrite SsrSite_createS3Assets_run. fold dir. fold result.
      rewrite decide_False by (intros Hne; by apply Hne).
      unfold outcome. simpl. f_equal. by apply discover_parts_spec.
    + by rewrite length_fmap, length_seq.
  - intros ctx s fs dir result Hout Hstatus Hparts Hgap. split.
    + rewrite StaticSite_createS3Assets_run by done. fold dir. fold result.
      rewrite decide_False by (intros Hne; by apply Hne).
      unfold outcome. simpl. f_equal. by apply discover_parts_spec.
    + by rewrite length_fmap, length_seq.
Qed.

(** *** Build identifiers *)

(** What is listed does not depend on what the files hold. *)
Lemma relative_files_dom fs1 fs2 cwd :
  dom (files fs1) = dom (files fs2) →
  relative_files fs1 cwd = relative_files fs2 cwd.
Proof. unfold relative_files. by intros ->. Qed.

(** C3.  The build identifier of a server-rendered site is a function of
    the set of relative paths of the files in its client output: two file
    systems with the same files there, whatever they hold, give the same
    identifier. *)
Theorem generateBuildId_depends_on_listing_only
  (X : externals) (s : SsrSite.site) (fs1 fs2 : filesystem) :
  relative_files fs1 (SsrSite.clientPath s) = relative_files fs2 (SsrSite.clientPath s) →
  SsrSite.generateBuildId X s fs1 = SsrSite.generateBuildId X s fs2.
Proof.
  intros Hsame. unfold SsrSite.generateBuildId, glob_sync.
  by rewrite Hsame.
Qed.

Lemma createS3Assets_stops_at_first_missing_part_witness :
  let dir := "/app/.sst/artifacts/Site-site-c8a1" in
  let r := SsrSite.createS3Assets gapped_externals sample_context sample_site
             (sample_fs "<html>") in
  existsSync r.1.2 (zipFilePath dir 7) = true
  ∧ outcome r = inr (part dir <$> seq 0 5)
  ∧ length (part dir <$> seq 0 5) = 5.
Proof.
  split; [vm_compute; reflexivity|].
  apply (proj1 (createS3Assets_stops_at_first_missing_part gapped_externals 5)
           sample_context sample_site (sample_fs "<html>")).
  - vm_compute; reflexivity.
  - intros i Hi. do 5 (destruct i as [|i]; [vm_compute; reflexivity|]). lia.
  - vm_compute; reflexivity.
Defined.

Lemma generateBuildId_depends_on_listing_only_witness :
  files (sample_fs "<html>old</html>") !! "web/placeholder/index.html"
  = Some "<html>old</html>"
  ∧ files (sample_fs "<html>new</html>") !! "web/placeholder/index.html"
    = Some "<html>new</html>"
  ∧ SsrSite.generateBuildId sample_externals sample_site
      (sample_fs "<html>old</html>")
    = SsrSite.generateBuildId sample_externals sample_site
        (sample_fs "<html>new</html>").
Proof.
  split; [vm_compute; reflexivity|]. split; [vm_compute; reflexivity|].
  apply (generateBuildId_depends_on_listing_only sample_externals sample_site).
  vm_compute; reflexivity.
Defined.

(** A site that is deployed does all that a placeholder site does not. *)
Example deployed_site_deploys :
  let r := SsrSite.declare_and_build sample_externals sample_context
             SsrSite.placeholder_buildConfig "site" (sample_props None None)
             (sample_fs "<html>") in
  filter (λ e, is_deployment e = true) (trace r) =
  [ Created "Bucket" "S3Bucket"; Created "Distribution" "CDN";
    Executed "npm run build" "web"
      {[ "SST" := "1"; "HOME" := "/root"; "REGION" := "eu-west-1" ]};
    Created "AwsCliLayer" "AwsCliLayer";
    Archived [("web/placeholder", "")] "/app/.sst/artifacts/Site-site-c8a1" 200;
    AssetCreated (part "/app/.sst/artifacts/Site-site-c8a1" 0);
    Created "Function" "S3Uploader"; Created "Function" "S3Handler";
    DeploymentCreated [part "/app/.sst/artifacts/Site-site-c8a1" 0]
      [ ["--exclude"; "*"; "--include"; "index.html"; "--cache-control";
         "public,max-age=0,s-maxage=31536000,must-revalidate"];
        ["--exclude"; "*"; "--include"; "assets/*"; "--cache-control";
         "public,max-age=0,s-maxage=31536000,must-revalidate"] ]
      [];
    BehaviorAdded "index.html"; BehaviorAdded "assets/*";
    InvalidationCreated "sha1:index.htmlassets/app.js" ].
Proof. vm_compute. reflexivity. Qed.

Lemma placeholder_site_never_deploys_witness :
  let p := sample_props None
             (Some (SsrSite.DevProps (Some false) (Some "http://localhost:3000"))) in
  let r := SsrSite.declare_and_build sample_externals dev_context
             SsrSite.placeholder_buildConfig "site" p (sample_fs "<html>") in
  let r' := StaticSite.declare_and_build sample_externals static_dev_context
              "docs" static_dev_props (sample_fs "<html>") in
  (SsrSite.app_mode dev_context = "dev" ∧ SsrSite.dev_deploy p = false
   ∧ StaticSite.app_mode static_dev_context = "dev"
   ∧ StaticSite.dev_deploy static_dev_props = false)
  ∧ Forall (λ e, is_deployment e = false) (trace r)
  ∧ (∃ s, outcome r = inr s
          ∧ SsrSite.url dev_context s = Some "http://localhost:3000"
          ∧ SsrSite.getFunctionBinding_url dev_context s
            = SsrSite.BindingVariable "plain" (Some "http://localhost:3000"))
  ∧ trace r' = [Wrote "web/types/sst-env.d.ts"; Registered "dev-app-web" "docs"]
  ∧ ∃ s, outcome r' = inr s
         ∧ StaticSite.has_bucket s = false
         ∧ StaticSite.url static_dev_context s = Some "http://localhost:5173"
         ∧ StaticSite.getFunctionBinding_url static_dev_context s
           = StaticSite.BindingVariable "plain" (Some "http://localhost:5173").
Proof.
  intros p r r'. split; [split_and!; reflexivity|].
  pose proof (proj1 placeholder_site_never_deploys sample_externals dev_context
                SsrSite.placeholder_buildConfig "site" p (sample_fs "<html>")
                eq_refl eq_refl) as [Htrace Hsite].
  pose proof (proj2 placeholder_site_never_deploys sample_externals
                static_dev_context "docs" static_dev_props (sample_fs "<html>")
                eq_refl eq_refl) as [_ Hstatic].
  split_and!.
  - exact Htrace.
  - destruct (outcome r) as [e|s] eqn:E; [vm_compute in E; discriminate|].
    exists s. split; [reflexivity|].
    destruct (Hsite s E) as (_ & _ & Hurl & Hbinding). by split.
  - vm_compute. reflexivity.
  - destruct (outcome r') as [e|s] eqn:E; [vm_compute in E; discriminate|].
    exists s. split; [reflexivity|].
    destruct (Hstatic s E) as (Hbucket & _ & Hurl & Hbinding). by split_and!.
Defined.

(** The claim as the specification words it: with no [dev.url] the
    site's [url] is not ["localhost"], it is [undefined]; ["localhost"]
    is what the functions bound to the site are given. *)
Lemma placeholder_url_is_undefined :
  let p := sample_props None (Some (SsrSite.DevProps (Some false) None)) in
  let r := SsrSite.declare_and_build sample_externals dev_context
             SsrSite.placeholder_buildConfig "site" p (sample_fs "<html>") in
  SsrSite.app_mode dev_context = "dev"
  ∧ SsrSite.dev p = Some (SsrSite.DevProps (Some false) None)
  ∧ ∃ s, outcome r = inr s
         ∧ SsrSite.doNotDeploy s = true
         ∧ SsrSite.url dev_context s = None
         ∧ SsrSite.getFunctionBinding_url dev_context s
           = SsrSite.BindingVariable "plain" (Some "localhost").
Proof.
  intros p r. split_and!; [reflexivity..|].
  eexists. split_and!; vm_compute; reflexivity.
Qed.

(** The types file of a static site goes to a directory that is made
    for it; a regular file in the way makes the constructor throw. *)
Example generateViteTypes_makes_the_directory :
  let fs := sample_fs "<html>" in
  let r := StaticSite.generateViteTypes static_dev_props fs in
  existsSync fs "web/types" = false
  ∧ outcome r = inr tt
  ∧ existsSync r.1.2 "web/types" = true
  ∧ files r.1.2 !! "web/types/sst-env.d.ts"
    = Some "/// <reference types=vite/client />"
  ∧ outcome (StaticSite.generateViteTypes static_dev_props
               (writeFileSync "web/types" "" fs))
    = inl (SystemError "mkdir" "web/types").
Proof. vm_compute. done. Qed.

(** *** The environment of the build command *)

Lemma getBuildCmdEnvironment_snoc X (env : environment) key value :
  getBuildCmdEnvironment X (Some (env ++ [(key, value)]))
  = <[key := (if isUnresolved X value then token_of key else value)]> (getBuildCmdEnvironment X (Some env)).
Proof. unfold getBuildCmdEnvironment. simpl. by rewrite foldl_app. Qed.

Lemma getBuildCmdEnvironment_absent X (env : environment) key :
  key ∉ env.*1 → getBuildCmdEnvironment X (Some env) !! key = None.
Proof.
  induction env as [|[k v] env IH] using rev_ind; intros Hkey; [done|].
  rewrite getBuildCmdEnvironment_snoc. rewrite fmap_app in Hkey.
  rewrite not_elem_of_app in Hkey. destruct Hkey as [Henv Hk].
  rewrite lookup_insert_ne; [by apply IH|]. simpl in Hk. set_solver.
Qed.

Lemma getBuildCmdEnvironment_declared X (env : environment) key value :
  NoDup env.*1 → (key, value) ∈ env →
  getBuildCmdEnvironment X (Some env) !! key = Some ((if isUnresolved X value then token_of key else value)).
Proof.
  induction env as [|[k v] env IH] using rev_ind; intros Hnodup Hin.
  - by apply elem_of_nil in Hin.
  - rewrite getBuildCmdEnvironment_snoc. rewrite fmap_app in Hnodup.
    apply NoDup_app in Hnodup as (Hnodup & Hfresh & _).
    apply elem_of_app in Hin as [Hin|Hin].
    + assert (key ≠ k) as Hne.
      { intros ->. apply (Hfresh k); [|simpl; set_solver].
        apply list_elem_of_fmap. by exists (k, value). }
      rewrite lookup_insert_ne by done. by apply IH.
    + apply list_elem_of_singleton in Hin as [= -> ->].
      by rewrite lookup_insert_eq.
Qed.

(** Every build command a site runs gets the environment [runBuild_env]
    describes. *)
Lemma SsrSite_runBuild_uses_env X ctx s fs :
  Forall (λ e, ∀ env, executed_env e = Some env →
                      env = SsrSite.runBuild_env X ctx (SsrSite.props s))
         (trace (SsrSite.runBuild X ctx s fs)).
Proof.
  unfold SsrSite.runBuild.
  repeat first
    [ progress intros
    | apply bind_Forall
    | match goal with
      | |- Forall _ (trace (emit _ _)) =>
          apply Forall_cons; split; [by intros ? [= <-]|constructor]
      | |- Forall _ (trace (ret _ _)) => constructor
      | |- Forall _ (trace (throw _ _)) => constructor
      | |- Forall _ (trace (read_fs _)) => constructor
      | |- Forall _ (trace (write_fs _ _)) => constructor
      | |- Forall _ (trace ((if ?c then _ else _) _)) => destruct c
      | |- Forall _ (trace ((match ?c with _ => _ end) _)) => destruct c
      end ].
Qed.

Lemma StaticSite_buildApp_uses_env X ctx s fs :
  Forall (λ e, ∀ env, executed_env e = Some env →
                      env = StaticSite.buildApp_env X ctx (StaticSite.props s))
         (trace (StaticSite.buildApp X ctx s fs)).
Proof.
  unfold StaticSite.buildApp.
  repeat first
    [ progress intros
    | apply bind_Forall
    | match goal with
      | |- Forall _ (trace (emit _ _)) =>
          apply Forall_cons; split; [by intros ? [= <-]|constructor]
      | |- Forall _ (trace (ret _ _)) => constructor
      | |- Forall _ (trace (throw _ _)) => constructor
      | |- Forall _ (trace (read_fs _)) => constructor
      | |- Forall _ (trace (write_fs _ _)) => constructor
      | |- Forall _ (trace ((if ?c then _ else _) _)) => destruct c
      | |- Forall _ (trace ((match ?c with _ => _ end) _)) => destruct c
      end ].
Qed.

(** C8, as the code has it.  The environment of the build command holds,
    for every variable the site declares, the variable's value when it is
    resolved and the token [{{ KEY }}] when it is not; for every other
    name, what the process environment holds for it; and, for a
    server-rendered site only, [SST=1] when neither defines [SST].  Every
    build command the site runs gets this environment. *)
Theorem build_command_environment (X : externals) (env : environment) :
  NoDup env.*1 →
  (∀ ctx p, default [] (SsrSite.environment p) = env →
     (∀ key value, (key, value) ∈ env →
        SsrSite.runBuild_env X ctx p !! key
        = Some (if isUnresolved X value then token_of key else value))
     ∧ (∀ key, key ∉ env.*1 →
          SsrSite.runBuild_env X ctx p !! key
          = match SsrSite.process_env ctx !! key with
            | Some inherited => Some inherited
            | None => if decide (key = "SST") then Some "1" else None
            end)
     ∧ (∀ s fs, SsrSite.props s = p →
          Forall (λ e, ∀ env', executed_env e = Some env' →
                               env' = SsrSite.runBuild_env X ctx p)
                 (trace (SsrSite.runBuild X ctx s fs))))
  ∧ (∀ ctx p, default [] (StaticSite.environment p) = env →
       (∀ key value, (key, value) ∈ env →
          StaticSite.buildApp_env X ctx p !! key
          = Some (if isUnresolved X value then token_of key else value))
       ∧ (∀ key, key ∉ env.*1 →
            StaticSite.buildApp_env X ctx p !! key
            = StaticSite.process_env ctx !! key)
       ∧ (∀ s fs, StaticSite.props s = p →
            Forall (λ e, ∀ env', executed_env e = Some env' →
                                 env' = StaticSite.buildApp_env X ctx p)
                   (trace (StaticSite.buildApp X ctx s fs)))).
Proof.
  intros Hnodup.
  assert (∀ o : option environment, default [] o = env →
            getBuildCmdEnvironment X o = getBuildCmdEnvironment X (Some env))
    as Hdefault by (by intros [e|] <-).
  split; intros ctx p Henv.
  - split_and!.
    + intros key value Hin. unfold SsrSite.runBuild_env, spread.
      rewrite (Hdefault _ Henv). apply lookup_union_Some_l.
      by apply getBuildCmdEnvironment_declared.
    + intros key Hkey. unfold SsrSite.runBuild_env, spread.
      rewrite (Hdefault _ Henv).
      rewrite lookup_union_r by by apply getBuildCmdEnvironment_absent.
      destruct (SsrSite.process_env ctx !! key) as [v|] eqn:E.
      * by apply lookup_union_Some_l.
      * rewrite lookup_union_r by done. destruct (decide (key = "SST")) as [->|].
        -- apply lookup_singleton_eq.
        -- by apply lookup_singleton_ne.
    + intros s fs <-. apply SsrSite_runBuild_uses_env.
  - split_and!.
    + intros key value Hin. unfold StaticSite.buildApp_env, spread.
      rewrite (Hdefault _ Henv). apply lookup_union_Some_l.
      by apply getBuildCmdEnvironment_declared.
    + intros key Hkey. unfold StaticSite.buildApp_env, spread.
      rewrite (Hdefault _ Henv).
      by rewrite lookup_union_r by by apply getBuildCmdEnvironment_absent.
    + intros s fs <-. apply StaticSite_buildApp_uses_env.
Qed.

Lemma build_command_environment_witness :
  NoDup sample_environment.*1
  ∧ SsrSite.runBuild_env sample_externals sample_context
      (sample_props (Some sample_environment) None) !! "API_URL"
    = Some "{{ API_URL }}"
  ∧ SsrSite.runBuild_env sample_externals sample_context
      (sample_props (Some sample_environment) None) !! "STAGE"
    = Some "prod"
  ∧ SsrSite.runBuild_env sample_externals sample_context
      (sample_props (Some sample_environment) None) !! "HOME"
    = Some "/root".
Proof.
  assert (NoDup sample_environment.*1) as Hnodup.
  { apply (bool_decide_unpack _). vm_compute. exact I. }
  split; [exact Hnodup|].
  destruct (proj1 (build_command_environment sample_externals
                     sample_environment Hnodup)
              sample_context (sample_props (Some sample_environment) None)
              eq_refl) as (Hdeclared & Hother & _).
  split_and!.
  - apply (Hdeclared "API_URL" "${Token[TOKEN.182]}").
    apply (bool_decide_unpack _). vm_compute. exact I.
  - apply (Hdeclared "STAGE" "prod").
    apply (bool_decide_unpack _). vm_compute. exact I.
  - apply (Hother "HOME"). apply (bool_decide_unpack _). vm_compute. exact I.
Defined.

(** The claim as the specification words it, without the marker: the
    command of a server-rendered site finds an [SST] in its environment
    that is neither inherited nor declared by the site. *)
Lemma build_command_environment_has_marker :
  let p := sample_props None None in
  SsrSite.process_env dev_context !! "SST" = None
  ∧ default [] (SsrSite.environment p) = []
  ∧ spread (SsrSite.process_env dev_context)
      (getBuildCmdEnvironment sample_externals (SsrSite.environment p)) !! "SST"
    = None
  ∧ SsrSite.runBuild_env sample_externals dev_context p !! "SST" = Some "1"
  ∧ trace (SsrSite.runBuild sample_externals dev_context sample_site
             (sample_fs "<html>"))
    = [Executed "npm run build" "web" {[ "SST" := "1" ]}].
Proof. vm_compute. done. Qed.

(** *** Replacement rules *)





End SiteFacts.


(** * Further properties *)

(** ** The event bus: subscriptions *)

Module BusSubscriptions.
Import Bus BusFacts BusShapes.

Section WithCallbacks.
Context {Props Cb : Type} `{EqDecision Cb}.
Implicit Types (b : bus Cb) (s : sub Cb) (h : list (registration Cb)).

Lemma indexOf_None s (arr : list (sub Cb)) : s ∉ arr → indexOf s arr = None.
Proof.
  induction arr as [|x arr IH]; intros Hs; [done|]. simpl.
  apply not_elem_of_cons in Hs as [Hne Hs].
  rewrite decide_False by done. by rewrite IH.
Qed.

Lemma splice_out_absent s (arr : list (sub Cb)) : s ∉ arr → splice_out s arr = arr.
Proof. intros Hs. unfold splice_out. by rewrite indexOf_None. Qed.

(** In an array without repetition, [splice_out] takes out the handle and
    nothing else. *)
Lemma splice_out_filter s (arr : list (sub Cb)) :
  NoDup arr → splice_out s arr = filter (λ x, x ≠ s) arr.
Proof.
  induction arr as [|x arr IH]; intros Hnodup; [done|].
  apply NoDup_cons in Hnodup as [Hx Hnodup].
  rewrite splice_out_cons. destruct (decide (x = s)) as [->|Hne].
  - rewrite filter_cons_False by (intros Hs; by apply Hs).
    rewrite <- IH by done. by rewrite splice_out_absent.
  - rewrite filter_cons_True by done. by rewrite IH.
Qed.

Lemma splice_out_subseteq s (arr : list (sub Cb)) x :
  x ∈ splice_out s arr → x ∈ arr.
Proof.
  induction arr as [|y arr IH]; [done|]. rewrite splice_out_cons.
  destruct (decide (y = s)).
  - apply list_elem_of_further.
  - rewrite !elem_of_cons. intros [->|Hx]; auto.
Qed.

Lemma splice_out_NoDup s (arr : list (sub Cb)) :
  NoDup arr → NoDup (splice_out s arr).
Proof.
  induction arr as [|y arr IH]; [done|]. intros Hnodup.
  apply NoDup_cons in Hnodup as [Hy Hnodup]. rewrite splice_out_cons.
  destruct (decide (y = s)); [done|].
  apply NoDup_cons. split; [|by apply IH].
  intros Hin. by apply Hy, (splice_out_subseteq s).
Qed.

(** X1.  [unsubscribe] of a handle that is not in the array of its type
    leaves every subscription of the bus as it was, whatever the bus. *)
Theorem unsubscribe_absent_changes_nothing b s :
  s ∉ registered (sub_type s) b →
  ∀ type, registered type (unsubscribe s b) = registered type b.
Proof.
  intros Hs type. rewrite unsubscribe_registered.
  destruct (decide (sub_type s = type)) as [<-|]; [|done].
  by apply splice_out_absent.
Qed.

Lemma useBus_well_formed rnd : well_formed (useBus (Cb := Cb) rnd).
Proof.
  intros type. unfold registered. simpl. rewrite lookup_empty. simpl.
  split; [constructor|]. intros s Hs. by apply elem_of_nil in Hs.
Qed.

Lemma register_well_formed b (r : registration Cb) :
  well_formed b → well_formed (register b r).
Proof.
  intros Hwf type. destruct (Hwf type) as [Hnodup Hfresh].
  rewrite register_next_ref.
  assert (∀ ty cb,
            NoDup (registered type (subscribe ty cb b).1)
            ∧ ∀ s, s ∈ registered type (subscribe ty cb b).1 →
                   sub_ref s < S (next_ref b)) as Hsub.
  { intros ty cb. rewrite subscribe_registered.
    destruct (decide (ty = type)) as [->|].
    - split.
      + apply NoDup_app. split_and!; [done| |apply NoDup_singleton].
        intros s Hs Hs'. apply list_elem_of_singleton in Hs' as ->.
        apply Hfresh in Hs. simpl in Hs. lia.
      + intros s [Hs|Hs]%elem_of_app.
        * apply Hfresh in Hs. lia.
        * apply list_elem_of_singleton in Hs as ->. simpl. lia.
    - rewrite app_nil_r. split; [done|]. intros s Hs. apply Hfresh in Hs. lia. }
  destruct r as [ty cb|ts ty cb|s]; simpl; [apply Hsub|apply Hsub|].
  rewrite unsubscribe_registered. destruct (decide (sub_type s = type)).
  - split; [by apply splice_out_NoDup|].
    intros x Hx. by apply Hfresh, (splice_out_subseteq s).
  - done.
Qed.

Lemma run_well_formed h b : well_formed b → well_formed (run h b).
Proof.
  revert b. induction h as [|r h IH]; intros b Hwf; [done|].
  change (run (r :: h) b) with (run h (register b r)).
  by apply IH, register_well_formed.
Qed.

(** X2.  After any sequence of subscribe, forward and unsubscribe calls
    on a new bus, [unsubscribe] of a handle takes that handle out of the
    array of its type and nothing else, the other subscribers keeping
    their order, and leaves the arrays of the other types alone. *)
Theorem unsubscribe_removes_only_the_handle (rnd : string) h s (type : string) :
  registered type (unsubscribe s (run h (useBus rnd)))
  = if decide (sub_type s = type)
    then filter (λ x, x ≠ s) (registered type (run h (useBus rnd)))
    else registered type (run h (useBus rnd)).
Proof.
  rewrite unsubscribe_registered. destruct (decide (sub_type s = type)); [|done].
  apply splice_out_filter.
  apply (run_well_formed h (useBus rnd) (useBus_well_formed rnd) type).
Qed.

(** X3.  After any such sequence of calls, subscribing and then
    unsubscribing the handle [subscribe] returned leaves every
    subscription as it was before the two calls, also when the same
    callback is subscribed to the same type more than once. *)
Theorem subscribe_then_unsubscribe (rnd : string) h (type : string) (cb : Cb) :
  let b := run h (useBus rnd) in
  ∀ type', registered type' (unsubscribe (subscribe type cb b).2 (subscribe type cb b).1)
           = registered type' b.
Proof.
  intros b type'.
  assert ((subscribe type cb b).2 = Sub (next_ref b) type cb) as Hs.
  { unfold subscribe. by destruct (subscribers type b). }
  rewrite Hs, unsubscribe_registered, subscribe_registered. simpl.
  destruct (decide (type = type')) as [<-|]; [|by rewrite app_nil_r].
  destruct (run_well_formed h (useBus rnd) (useBus_well_formed rnd) type)
    as [Hnodup Hfresh]. fold b in Hnodup, Hfresh.
  assert (Sub (next_ref b) type cb ∉ registered type b) as Hnew.
  { intros Hin. apply Hfresh in Hin. simpl in Hin. lia. }
  induction (registered type b) as [|x arr IH]; simpl.
  - rewrite splice_out_cons. by rewrite decide_True.
  - apply not_elem_of_cons in Hnew as [Hne Hnew].
    apply NoDup_cons in Hnodup as [_ Hnodup].
    rewrite splice_out_cons, decide_False by done. f_equal.
    apply IH; [done| |done].
    intros s Hs'. apply Hfresh. by apply list_elem_of_further.
Qed.

End WithCallbacks.

Lemma unsubscribe_absent_changes_nothing_witness :
  let b := (subscribe "build.start" "first" (useBus "5f2a")).1 in
  let stale := Sub 7 "build.start" "first" in
  (stale ∉ registered "build.start" b)
  ∧ (∀ type, registered type (unsubscribe stale b) = registered type b).
Proof.
  intros b stale.
  assert (stale ∉ registered (sub_type stale) b) as Habsent
    by (apply (bool_decide_unpack _); vm_compute; exact I).
  split; [exact Habsent|].
  exact (unsubscribe_absent_changes_nothing b stale Habsent).
Defined.

End BusSubscriptions.

(** ** The event bus: callbacks that call the bus *)

Module BusDelivery.
Import Bus BusSamples BusFacts BusShapes BusMoreSamples.

Section WithScript.
Context {Props Cb : Type} `{EqDecision Cb}.
Variable script : Cb → payload Props → list (call Props Cb).
Variable log : payload Props → bool.
Implicit Types (b : bus Cb) (s : sub Cb) (p : payload Props).

Lemma prepend_None (es : list (event Props Cb)) : prepend es None = None.
Proof. done. Qed.

(** The loop never gets to the end of an array that grows by one at
    every turn. *)
Lemma exec_next_resubscribing inner p : ∀ fuel todo b index,
  (∀ s, s ∈ registered (p_type p) b → resubscribes script (sub_cb s)) →
  (index < length (registered (p_type p) b))%nat →
  exec script log fuel (Next inner p index :: todo) b = None.
Proof.
  induction fuel as [fuel IH] using lt_wf_ind. intros todo b index Hall Hlt.
  destruct fuel as [|fuel]; [done|]. cbn [exec].
  destruct (lookup_lt_is_Some_2 _ _ Hlt) as [s Hs]. rewrite Hs.
  rewrite (Hall s) by by eapply list_elem_of_lookup_2. simpl app.
  destruct fuel as [|fuel]; [done|]. cbn [exec register].
  rewrite IH; [done|lia| |].
  - intros x. rewrite subscribe_registered, decide_True by done.
    intros [Hx|Hx]%elem_of_app; [by apply Hall|].
    apply list_elem_of_singleton in Hx as ->. simpl.
    apply Hall. by eapply list_elem_of_lookup_2.
  - rewrite subscribe_registered, decide_True by done.
    rewrite length_app. simpl. lia.
Qed.

(** X4.  When the subscribers of a type (there is one at least) have
    callbacks that subscribe themselves again to that type on each call,
    [publish] for that type, once past its debug line, does not return:
    the loop finds a new subscriber at every turn, and no number of steps
    ends it. *)
Theorem publish_never_returns_when_callbacks_resubscribe
  (type : string) (properties : Props) b :
  DO_NOT_LOG type = true ∨ log (Payload type properties (sourceID b)) = true →
  registered type b ≠ [] →
  (∀ s, s ∈ registered type b → resubscribes script (sub_cb s)) →
  ∀ fuel, publish script log fuel type properties b = None.
Proof.
  intros Hlog Hsome Hall fuel. unfold publish. destruct fuel as [|fuel]; [done|].
  cbn [exec]. unfold envelope.
  rewrite (debug_line_returns log (Payload type properties (sourceID b)) Hlog).
  rewrite exec_next_resubscribing; [done| |].
  - intros s. simpl. rewrite subscribers_registered. apply Hall.
  - simpl. rewrite subscribers_registered.
    destruct (registered type b); [done|simpl; lia].
Qed.

(** As long as the callbacks it meets call nothing, the loop calls what
    the array holds, in order. *)
Lemma exec_next_quiet_prefix inner p todo b : ∀ n index fuel,
  (index + n ≤ length (registered (p_type p) b))%nat →
  (∀ s, s ∈ take n (drop index (registered (p_type p) b)) →
        script (sub_cb s) p = []) →
  exec script log (n + fuel)%nat (Next inner p index :: todo) b
  = prepend ((λ s, Invoke inner s p) <$> take n (drop index (registered (p_type p) b)))
      (exec script log fuel (Next inner p (index + n)%nat :: todo) b).
Proof.
  induction n as [|n IH]; intros index fuel Hlen Hquiet.
  - simpl. rewrite Nat.add_0_r. by rewrite prepend_nil.
  - assert (is_Some (registered (p_type p) b !! index)) as [s Hs]
      by (apply lookup_lt_is_Some_2; lia).
    change (S n + fuel) with (S (n + fuel)). cbn [exec]. rewrite Hs.
    rewrite (drop_S _ _ _ Hs) in Hquiet |- *. simpl take in Hquiet |- *.
    rewrite (Hquiet s) by apply list_elem_of_here. simpl app.
    rewrite IH; [|lia|].
    + rewrite prepend_prepend. by replace (S index + n) with (index + S n) by lia.
    + intros s' Hs'. apply Hquiet. by apply list_elem_of_further.
Qed.

(** X5.  A subscriber that a callback adds to the type being delivered
    is called in that same delivery: when the last subscriber of the
    type subscribes [guest] to it from its callback, the other
    callbacks (that of [guest] too) call nothing, and the debug line
    does not throw, [publish] calls the subscribers it found, in order,
    and then the new one. *)
Theorem publish_calls_subscriber_added_during_delivery
  (type : string) (properties : Props) b arr host (guest : Cb) (fuel : nat) :
  let p := Payload type properties (sourceID b) in
  DO_NOT_LOG type = true ∨ log p = true →
  registered type b = arr ++ [host] →
  (∀ s, s ∈ arr → script (sub_cb s) p = []) →
  script (sub_cb host) p = [Register (Subscribe type guest)] →
  script guest p = [] →
  (length arr + 6 ≤ fuel)%nat →
  ∃ b' es,
    publish script log fuel type properties b = Some (b', es)
    ∧ invocations es
      = (λ s, (s, p)) <$> (arr ++ [host; Sub (next_ref b) type guest])
    ∧ registered type b' = arr ++ [host; Sub (next_ref b) type guest].
Proof.
  intros p Hlog Harr Hquiet Hhost Hguest Hfuel. unfold publish.
  destruct fuel as [|fuel]; [lia|]. cbn [exec]. unfold envelope. fold p.
  rewrite (debug_line_returns log p Hlog).
  assert (p_type p = type) as Hp by done. clearbody p.
  set (b0 := (subscribers type b).2).
  assert (registered type b0 = arr ++ [host]) as Harr0
    by by (unfold b0; rewrite subscribers_registered).
  assert (next_ref b0 = next_ref b) as Hnext by apply subscribers_next_ref.
  replace fuel with (length arr + (fuel - length arr)) by lia.
  rewrite (exec_next_quiet_prefix false p [] b0 (length arr) 0);
    rewrite ?Hp, ?Harr0, ?drop_0, ?take_app_length;
    [|rewrite length_app; simpl; lia|exact Hquiet].
  destruct (fuel - length arr) as [|k] eqn:Hk; [lia|]. cbn [exec].
  rewrite Hp, Harr0. simpl Nat.add.
  rewrite lookup_app_r, Nat.sub_diag by lia. cbn [lookup list_lookup].
  cbv iota beta. rewrite Hhost. cbn [fmap list_fmap app].
  destruct k as [|k]; [lia|]. cbn [exec register].
  set (b1 := (subscribe type guest b0).1).
  assert (registered type b1 = arr ++ [host; Sub (next_ref b) type guest]) as Harr1.
  { unfold b1. rewrite subscribe_registered, decide_True, Harr0, Hnext by done.
    by rewrite <- app_assoc. }
  replace k with (2 + (k - 2)) by lia.
  rewrite (exec_next_quiet script log false p [] b1 1 (S (length arr)) (k - 2));
    rewrite ?Hp, ?Harr1.
  - destruct (k - 2) as [|j] eqn:Hj; [lia|]. cbn [exec].
    eexists _, _. split; [reflexivity|]. split; [|exact Harr1].
    rewrite drop_app_ge by lia.
    replace (S (length arr) - length arr) with 1 by lia. cbn [drop].
    rewrite app_nil_r, !invocations_app, !invocations_invoke, fmap_app.
    by destruct (DO_NOT_LOG type).
  - rewrite length_app. simpl. lia.
  - intros s. rewrite drop_app_ge by lia.
    replace (S (length arr) - length arr) with 1 by lia. cbn [drop].
    intros Hs. apply list_elem_of_singleton in Hs as ->. exact Hguest.
Qed.

End WithScript.

Lemma publish_never_returns_when_callbacks_resubscribe_witness :
  let b := (subscribe "build.start" "again" (useBus "5f2a")).1 in
  registered "build.start" b = [Sub 0 "build.start" "again"]
  ∧ (∀ fuel, publish busy_script sample_log fuel "build.start" 7 b = None).
Proof.
  intros b. split; [reflexivity|].
  apply (publish_never_returns_when_callbacks_resubscribe busy_script sample_log).
  - by right.
  - vm_compute. discriminate.
  - intros s Hs. change (registered "build.start" b)
      with [Sub 0 "build.start" "again"] in Hs.
    apply list_elem_of_singleton in Hs as ->. intros p. reflexivity.
Defined.

Lemma publish_calls_subscriber_added_during_delivery_witness :
  let b := run [Subscribe "build.start" "first"; Subscribe "build.start" "invite"]
               (useBus "5f2a") in
  let p := Payload "build.start" 7 "5f2a" in
  ∃ b' es,
    publish busy_script sample_log 7 "build.start" 7 b = Some (b', es)
    ∧ invocations es
      = [ (Sub 0 "build.start" "first", p); (Sub 1 "build.start" "invite", p);
          (Sub 2 "build.start" "guest", p) ].
Proof.
  intros b p.
  destruct (publish_calls_subscriber_added_during_delivery busy_script sample_log
              "build.start" 7 b [Sub 0 "build.start" "first"]
              (Sub 1 "build.start" "invite") "guest" 7)
    as (b' & es & Hrun & Hinv & _).
  - by right.
  - reflexivity.
  - intros s Hs. apply list_elem_of_singleton in Hs as ->. reflexivity.
  - reflexivity.
  - reflexivity.
  - simpl. lia.
  - by exists b', es.
Defined.

End BusDelivery.


(** ** Functional stacks: the stack cache and [dependsOn] *)

Module FunctionalStackMore.
Import FunctionalStack StackDependencies FunctionalStackFacts FunctionalStackSamples.

Section WithOutputs.
Context {V : Type}.
Implicit Types (r : registry V) (fn : definition V) (a : app) (v : V).

Lemma getStacks_fst a fn r :
  (getStacks a r).1 !! fn_ref fn = registered_stack a fn r.
Proof.
  unfold getStacks, registered_stack. destruct (stackCache r !! a); simpl; [done|].
  apply lookup_empty.
Qed.

Lemma getStacks_registered a a' fn r :
  registered_stack a' fn (getStacks a r).2 = registered_stack a' fn r.
Proof.
  unfold getStacks, registered_stack. destruct (stackCache r !! a) eqn:E; [done|].
  simpl. destruct (decide (a = a')) as [->|Hne].
  - rewrite lookup_insert_eq, E. simpl. apply lookup_empty.
  - by rewrite lookup_insert_ne.
Qed.

Lemma getExports_registered a a' fn r :
  registered_stack a' fn (getExports a r).2 = registered_stack a' fn r.
Proof.
  unfold registered_stack. by rewrite (proj2 (proj2 (proj2 (getExports_current a r)))).
Qed.

Lemma stacks_set_registered a fn st r :
  registered_stack a fn (stacks_set a fn st r) = Some st.
Proof.
  unfold stacks_set. destruct (getStacks a r) as [m r1]. unfold registered_stack.
  simpl. rewrite lookup_insert_eq. simpl. apply lookup_insert_eq.
Qed.

Lemma stacks_set_registered_ne a a' fn fn' st r :
  a ≠ a' ∨ fn_ref fn ≠ fn_ref fn' →
  registered_stack a' fn' (stacks_set a fn st r) = registered_stack a' fn' r.
Proof.
  intros Hne. unfold stacks_set.
  pose proof (getStacks_fst a fn' r) as Hfst.
  pose proof (getStacks_registered a a' fn' r) as Hreg.
  destruct (getStacks a r) as [m r1]. simpl in *.
  rewrite <- Hreg. unfold registered_stack. simpl.
  destruct (decide (a = a')) as [<-|Ha].
  - rewrite lookup_insert_eq. simpl.
    destruct Hne as [?|Hfn]; [done|]. rewrite lookup_insert_ne by done.
    rewrite Hfst. unfold registered_stack in Hreg. by rewrite Hreg.
  - by rewrite lookup_insert_ne.
Qed.

Lemma exports_set_registered a a' fn fn' v r :
  registered_stack a' fn' (exports_set a fn v r) = registered_stack a' fn' r.
Proof.
  unfold exports_set. pose proof (getExports_registered a a' fn' r) as Hreg.
  by destruct (getExports a r) as [m r1].
Qed.

Lemma exports_set_children a fn v r :
  children (exports_set a fn v r) = children r.
Proof.
  unfold exports_set. pose proof (getExports_current a r) as (_ & _ & Hch & _).
  by destruct (getExports a r) as [m r1].
Qed.

(** [getStack] reads the stack cache of the current application. *)
Lemma getStack_registered a fn r :
  currentApp r = Some a →
  (getStack fn r).2
  = match registered_stack a fn r with
    | Some st => inr st
    | None => inl (StackWrongOrder (fn_name fn) (fh_name <$> currentStack r))
    end.
Proof.
  intros Happ. unfold getStack. rewrite Happ.
  pose proof (getStacks_fst a fn r) as Hfst.
  pose proof (getStacks_current a r) as (_ & Hst & _).
  destruct (getStacks a r) as [m r1]. simpl in *. rewrite Hfst, Hst.
  by destruct (registered_stack a fn r).
Qed.

Lemma getStack_keeps a fn r a' fn' :
  currentApp r = Some a →
  currentApp (getStack fn r).1 = Some a
  ∧ currentStack (getStack fn r).1 = currentStack r
  ∧ registered_stack a' fn' (getStack fn r).1 = registered_stack a' fn' r.
Proof.
  intros Happ. unfold getStack. rewrite Happ.
  pose proof (getStacks_current a r) as (Ha & Hst & _).
  pose proof (getStacks_registered a a' fn' r) as Hreg.
  destruct (getStacks a r) as [m r1]. simpl in *.
  rewrite Happ in Ha. by destruct (m !! fn_ref fn).
Qed.

(** What [enter] leaves when it gets as far as the call of [fn]: the
    stack is in the cache. *)
Lemma enter_registered a fn props r r0 st :
  enter a fn props r = (r0, inr st) →
  registered_stack a fn r0 = Some st
  ∧ ∀ a' fn', a ≠ a' ∨ fn_ref fn ≠ fn_ref fn' →
              registered_stack a' fn' r0 = registered_stack a' fn' r.
Proof.
  unfold enter. set (r1 := set_current a (handle_of fn) r).
  pose proof (λ a' fn', getExports_registered a a' fn' r1) as Hreg.
  destruct (getExports a r1) as [m r2]. simpl in Hreg.
  destruct (decide (is_Some (m !! fn_ref fn))); [done|].
  destruct (new_EmptyStack a (stack_id fn props) r2) as [e|[st' r3]] eqn:En;
    [done|].
  intros [= <- <-]. unfold new_EmptyStack in En.
  destruct (decide _) in En; [done|]. injection En as <- <-.
  split.
  - apply stacks_set_registered.
  - intros a' fn' Hne. rewrite stacks_set_registered_ne by done.
    unfold registered_stack at 1. simpl. apply Hreg.
Qed.

(** X6.  A registration refused for a duplicate has changed the module's
    state all the same: the application and the definition of the refused
    call are the current ones from then on (so [use] and [getStack] read
    that application's caches), while the stored outputs, the stack cache
    and the stacks of every application are as before. *)
Theorem refused_registration_switches_current a fn props r :
  is_Some (exported a fn r) →
  let r' := (stack a fn props r).1 in
  (stack a fn props r).2 = inl (StackDuplicates (stack_id fn props))
  ∧ currentApp r' = Some a
  ∧ currentStack r' = Some (handle_of fn)
  ∧ (∀ a' fn', exported a' fn' r' = exported a' fn' r)
  ∧ (∀ a' fn', registered_stack a' fn' r' = registered_stack a' fn' r)
  ∧ children r' = children r.
Proof.
  intros Hsome r'. split; [by apply stack_duplicate|].
  subst r'. unfold stack.
  pose proof (enter_duplicate a fn props r Hsome) as Hdup.
  unfold enter in *. set (r1 := set_current a (handle_of fn) r) in *.
  pose proof (getExports_current a r1) as (Happ & Hst & Hch & _).
  pose proof (λ a' fn', getExports_exported a a' fn' r1) as Hexp.
  pose proof (λ a' fn', getExports_registered a a' fn' r1) as Hreg.
  destruct (getExports a r1) as [m r2]. simpl in *.
  destruct (decide (is_Some (m !! fn_ref fn))); simpl.
  - by split_and!.
  - destruct (new_EmptyStack a (stack_id fn props) r2) as [e|[st r3]];
      simpl in Hdup; done.
Qed.

(** X7.  As soon as [stack] calls the body, [getStack] of the definition
    gives the new stack, named after [props.id] or the function: the body
    can ask for it, and so can whoever comes after the call, whether the
    body returned, returned a promise that is still pending, or threw. *)
Theorem getStack_as_soon_as_the_body_runs a fn props r r0 st :
  enter a fn props r = (r0, inr st) →
  st = StackHandle a (stack_id fn props)
  ∧ (getStack fn r0).2 = inr st
  ∧ (getStack fn (stack a fn props r).1).2 = inr st.
Proof.
  intros Henter.
  pose proof (enter_ok _ _ _ _ _ _ Henter) as (_ & _ & Happ & _ & Hst & _).
  pose proof (enter_registered _ _ _ _ _ _ Henter) as [Hreg _].
  split; [done|]. split.
  - by rewrite (getStack_registered a), Hreg.
  - unfold stack. rewrite Henter.
    destruct (fn_body fn st r0) as [msg|[v|v|d|v]]; simpl;
      rewrite (getStack_registered a);
      rewrite ?exports_set_registered, ?Hreg;
      try done; by rewrite (proj1 (exports_set_current _ _ _ _)).
Qed.

(** X8.  [dependsOn] called by the body of a definition records the
    dependency from the stack being built to the stack of the definition
    it names, when the application has a stack for the latter, and fails
    with the wrong-order error naming the two definitions when it has
    none. *)
Theorem dependsOn_from_the_body a current props r r0 st target :
  enter a current props r = (r0, inr st) →
  (dependsOn target r0).2
  = match registered_stack a target r0 with
    | Some t => inr (st, t)
    | None => inl (StackWrongOrder (fn_name target) (Some (fn_name current)))
    end.
Proof.
  intros Henter.
  pose proof (enter_ok _ _ _ _ _ _ Henter) as (_ & _ & Happ & Hcur & _).
  pose proof (enter_registered _ _ _ _ _ _ Henter) as [Hreg _].
  unfold dependsOn. rewrite Hcur.
  change (getStack_of (fh_ref (handle_of current)) (fh_name (handle_of current)) r0)
    with (getStack current r0).
  pose proof (getStack_registered a current r0 Happ) as Hc. rewrite Hreg in Hc.
  pose proof (getStack_keeps a current r0 a target Happ) as (Happ1 & Hcur1 & Hreg1).
  destruct (getStack current r0) as [r1 [e|c]]; simpl in *; [done|].
  injection Hc as ->.
  pose proof (getStack_registered a target r1 Happ1) as Ht.
  rewrite Hreg1, Hcur1, Hcur in Ht.
  destruct (getStack target r1) as [r2 [e|t]]; simpl in *;
    destruct (registered_stack a target r0); by simplify_eq.
Qed.

End WithOutputs.

Lemma refused_registration_switches_current_witness :
  let r := (stack 8 Database None (stack 7 Api None empty_registry).1).1 in
  (currentApp r = Some 8 ∧ is_Some (exported 7 Api r))
  ∧ (stack 7 Api None r).2 = inl (StackDuplicates "Api")
  ∧ currentApp (stack 7 Api None r).1 = Some 7
  ∧ currentStack (stack 7 Api None r).1 = Some (FnHandle 1 "Api").
Proof.
  intros r.
  assert (is_Some (exported 7 Api r)) as Hsome by (vm_compute; eauto).
  split; [split; [reflexivity|exact Hsome]|].
  pose proof (refused_registration_switches_current 7 Api None r Hsome)
    as (Herr & Happ & Hcur & _).
  by split_and!.
Defined.

Lemma getStack_as_soon_as_the_body_runs_witness :
  let r := (stack 7 Api None empty_registry).1 in
  ∃ r0, enter 7 Database None r = (r0, inr (StackHandle 7 "Database"))
        ∧ (stack 7 Database None r).2
          = inr (Pending (Pending_ 7 Database "table"))
        ∧ (getStack Database (stack 7 Database None r).1).2
          = inr (StackHandle 7 "Database").
Proof.
  intros r. eexists. split; [vm_compute; reflexivity|].
  split; [vm_compute; reflexivity|].
  refine (proj2 (proj2 (getStack_as_soon_as_the_body_runs 7 Database None r _
                          (StackHandle 7 "Database") _))).
  vm_compute. reflexivity.
Defined.

Lemma dependsOn_from_the_body_witness :
  let r := (stack 7 Api None empty_registry).1 in
  ∃ r0, enter 7 Database None r = (r0, inr (StackHandle 7 "Database"))
        ∧ (dependsOn Api r0).2
          = inr (StackHandle 7 "Database", StackHandle 7 "Api").
Proof.
  intros r. eexists. split; [vm_compute; reflexivity|].
  rewrite (dependsOn_from_the_body 7 Database None r _ (StackHandle 7 "Database") Api);
    vm_compute; reflexivity.
Defined.

(** [dependsOn] of a definition the application has no stack for. *)
Example dependsOn_unregistered :
  let r := (stack 7 Api None empty_registry).1 in
  (dependsOn Database (enter 7 Api None empty_registry).1).2
  = inl (StackWrongOrder "Database" (Some "Api"))
  ∧ (dependsOn Api r).2 = inr (StackHandle 7 "Api", StackHandle 7 "Api").
Proof. vm_compute. done. Qed.

End FunctionalStackMore.


(** ** Permissions *)

Module PermissionFacts.
Import Permission PermissionSamples.

Implicit Types (l : list permission) (p : permission) (st : policy_statement)
  (sts : list policy_statement) (gs : list grant).

(** The accumulators only grow at their end. *)
Lemma of_entries_acc l : ∀ sts gs,
  of_entries l sts gs
  = match of_entries l [] [] with
    | inl e => inl e
    | inr (sts', gs') => inr (sts ++ sts', gs ++ gs')
    end.
Proof.
  induction l as [|p l IH]; intros sts gs; simpl.
  - by rewrite !app_nil_r.
  - destruct (of_permission p) as [e|[sts1 gs1]]; [done|].
    rewrite (IH (sts ++ sts1) (gs ++ gs1)), (IH sts1 gs1).
    destruct (of_entries l [] []) as [e|[sts2 gs2]]; [done|].
    simpl. by rewrite !app_assoc.
Qed.

Lemma of_entries_app l1 l2 : ∀ sts gs,
  of_entries (l1 ++ l2) sts gs
  = match of_entries l1 sts gs with
    | inl e => inl e
    | inr (sts', gs') => of_entries l2 sts' gs'
    end.
Proof.
  induction l1 as [|p l1 IH]; intros sts gs; simpl; [done|].
  destruct (of_permission p) as [e|[sts1 gs1]]; [done|]. apply IH.
Qed.

Lemma of_entries_resolved l : ∀ rs,
  Forall2 (λ p r, of_permission p = inr r) l rs →
  of_entries l [] [] = inr (concat rs.*1, concat rs.*2).
Proof.
  induction l as [|p l IH]; intros rs Hall.
  - by apply Forall2_nil_inv_l in Hall as ->.
  - apply Forall2_cons_inv_l in Hall as ([sts1 gs1] & rs' & Hp & Hall & ->).
    simpl. rewrite Hp, of_entries_acc, (IH rs' Hall). done.
Qed.

(** X9.  The entries of the array are resolved in order and the first
    one that is not supported decides: the error is its error, whatever
    comes after it, and the role gets none of the statements of the
    entries before it. *)
Theorem first_unsupported_entry_decides l1 p l2 (e : error) (role : principal) :
  Forall (λ q, ∃ r, of_permission q = inr r) l1 →
  of_permission p = inl e →
  permissionsToStatementsAndGrants (Entries (l1 ++ p :: l2)) = inl e
  ∧ attachPermissionsToRole role (Entries (l1 ++ p :: l2)) = (role, Some e).
Proof.
  intros Hall Hp.
  assert (permissionsToStatementsAndGrants (Entries (l1 ++ p :: l2)) = inl e) as He.
  { simpl. rewrite of_entries_app.
    assert (∃ rs, Forall2 (λ q r, of_permission q = inr r) l1 rs) as [rs Hrs].
    { induction Hall as [|q l1 [r Hq] _ [rs IH]]; [by exists []|].
      exists (r :: rs). by constructor. }
    rewrite (of_entries_resolved l1 rs Hrs). simpl. by rewrite Hp. }
  split; [done|]. unfold attachPermissionsToRole. by rewrite He.
Qed.

(** X10.  When every entry is supported, the statements are those of the
    entries and the grants their tuples, in the order of the array, and
    [attachPermissionsToRole] adds the former to the role and calls the
    grant methods of the latter, after what the role had. *)
Theorem entries_resolve_in_order l rs (role : principal) :
  Forall2 (λ p r, of_permission p = inr r) l rs →
  permissionsToStatementsAndGrants (Entries l) = inr (concat rs.*1, concat rs.*2)
  ∧ attachPermissionsToRole role (Entries l)
    = ({| added := added role ++ concat rs.*1;
          granted := granted role ++ concat rs.*2 |}, None).
Proof.
  intros Hall.
  assert (permissionsToStatementsAndGrants (Entries l)
          = inr (concat rs.*1, concat rs.*2)) as Hr
    by by apply of_entries_resolved.
  split; [done|]. unfold attachPermissionsToRole. by rewrite Hr.
Qed.

Lemma of_permission_statement p sts gs st :
  of_permission p = inr (sts, gs) → st ∈ sts →
  p = PStatement st
  ∨ (ps_effect st = Allow ∧ ps_actions st ≠ [] ∧ ps_resources st ≠ []).
Proof.
  destruct p as [s|st'|c|o|items| |]; simpl.
  - destruct (valid_action _); [|done].
    intros [= <- <-] Hst. apply list_elem_of_singleton in Hst as ->. by right.
  - intros [= <- <-] Hst. apply list_elem_of_singleton in Hst as ->. by left.
  - intros [= <- <-] Hst. right.
    destruct c as [env i|env i|env i cs|env i|arn|arn|arn|arn|arn|arn|arn [sec|]|arn|arn];
      simpl in Hst; rewrite ?elem_of_cons, ?elem_of_nil in Hst;
      repeat (destruct Hst as [->|Hst]); try done.
  - unfold of_foreign.
    repeat (case_match; simplify_eq); try done;
      intros [= <- <-] Hst; right;
      rewrite ?elem_of_cons, ?elem_of_nil in Hst;
      repeat (destruct Hst as [->|Hst]); done.
  - intros Hp Hst. repeat (case_match; simplify_eq).
    by apply elem_of_nil in Hst.
  - done.
  - done.
Qed.

Lemma of_permission_grant p sts gs c m :
  of_permission p = inr (sts, gs) → (c, m) ∈ gs →
  p = PArray [ItemConstruct c; ItemString m]
  ∧ Construct.isCDKConstruct (g_value c) = true
  ∧ m ∈ g_methods c.
Proof.
  destruct p as [s|st'|c'|o|items| |]; simpl;
    try (intros [= <- <-] Hg; by apply elem_of_nil in Hg); try done.
  - destruct (valid_action _); [|done]. intros [= <- <-] Hg.
    by apply elem_of_nil in Hg.
  - destruct (of_foreign o); [|done]. intros [= <- <-] Hg.
    by apply elem_of_nil in Hg.
  - intros Hp Hg. repeat (case_match; simplify_eq).
    apply list_elem_of_singleton in Hg. simplify_eq.
    split_and!; try done. by eapply bool_decide_eq_true_1.
Qed.

(** What a successful resolution holds comes from some entry. *)
Lemma of_entries_origin l : ∀ sts gs,
  of_entries l [] [] = inr (sts, gs) →
  (∀ st, st ∈ sts →
     ∃ p sts' gs', p ∈ l ∧ of_permission p = inr (sts', gs') ∧ st ∈ sts')
  ∧ (∀ g, g ∈ gs →
       ∃ p sts' gs', p ∈ l ∧ of_permission p = inr (sts', gs') ∧ g ∈ gs').
Proof.
  induction l as [|p l IH]; intros sts gs; simpl.
  - intros [= <- <-]. split; intros x Hx; by apply elem_of_nil in Hx.
  - destruct (of_permission p) as [e|[sts1 gs1]] eqn:Hp; [done|].
    rewrite of_entries_acc.
    destruct (of_entries l [] []) as [e|[sts2 gs2]] eqn:Hl; [done|].
    intros [= <- <-]. destruct (IH sts2 gs2 eq_refl) as [IHs IHg].
    split.
    + intros st [Hst|Hst]%elem_of_app.
      * exists p, sts1, gs1. split_and!; [apply list_elem_of_here|done|done].
      * destruct (IHs st Hst) as (q & sts' & gs' & Hq & Hres & Hin).
        exists q, sts', gs'. split_and!; [by apply list_elem_of_further|done|done].
    + intros g [Hg|Hg]%elem_of_app.
      * exists p, sts1, gs1. split_and!; [apply list_elem_of_here|done|done].
      * destruct (IHg g Hg) as (q & sts' & gs' & Hq & Hres & Hin).
        exists q, sts', gs'. split_and!; [by apply list_elem_of_further|done|done].
Qed.

(** X11.  The code writes no statement that denies, and none without an
    action or a resource: every statement of a successful resolution is
    one the caller gave as a policy statement, or allows at least one
    action on at least one resource. *)
Theorem statements_allow_unless_given (ps : permissions) sts gs st :
  permissionsToStatementsAndGrants ps = inr (sts, gs) →
  st ∈ sts →
  (∃ l, ps = Entries l ∧ PStatement st ∈ l)
  ∨ (ps_effect st = Allow ∧ ps_actions st ≠ [] ∧ ps_resources st ≠ []).
Proof.
  destruct ps as [|l|]; simpl; [| |done].
  - intros [= <- <-] Hst. apply list_elem_of_singleton in Hst as ->. by right.
  - intros Hres Hst.
    destruct (proj1 (of_entries_origin l sts gs Hres) st Hst)
      as (p & sts' & gs' & Hp & Hres' & Hin).
    destruct (of_permission_statement p sts' gs' st Hres' Hin) as [->|?]; [|by right].
    left. by exists l.
Qed.

(** X12.  A grant is kept only when the first element of its tuple is a
    CDK construct and the second the name of one of its methods: the
    grants of a successful resolution are tuples of the array of that
    kind, so that [attachPermissionsToRole] never calls what is not a
    function. *)
Theorem grants_name_methods (ps : permissions) sts gs (c : grantable) (m : string) :
  permissionsToStatementsAndGrants ps = inr (sts, gs) →
  (c, m) ∈ gs →
  Construct.isCDKConstruct (g_value c) = true
  ∧ m ∈ g_methods c
  ∧ ∃ l, ps = Entries l ∧ PArray [ItemConstruct c; ItemString m] ∈ l.
Proof.
  destruct ps as [|l|]; simpl; [| |done].
  - intros [= <- <-] Hg. by apply elem_of_nil in Hg.
  - intros Hres Hg.
    destruct (proj2 (of_entries_origin l sts gs Hres) (c, m) Hg)
      as (p & sts' & gs' & Hp & Hres' & Hin).
    destruct (of_permission_grant p sts' gs' c m Hres' Hin) as (-> & Hcdk & Hm).
    split_and!; try done. by exists l.
Qed.

(** X13.  [attachPermissionsToPolicy] refuses grant tuples, but late:
    when every entry is supported and one of them is a grant tuple, the
    policy has received all the statements of all the entries, those
    after the tuple too, by the time the error for the first tuple is
    thrown. *)
Theorem policy_gets_statements_before_grant_error l rs (policy : principal)
  (c : grantable) (m : string) (rest : list grant) :
  Forall2 (λ p r, of_permission p = inr r) l rs →
  concat rs.*2 = (c, m) :: rest →
  attachPermissionsToPolicy policy (Entries l)
  = ({| added := added policy ++ concat rs.*1; granted := granted policy |},
     Some (CannotAttachToPolicy m)).
Proof.
  intros Hall Hgrants. unfold attachPermissionsToPolicy.
  simpl. rewrite (of_entries_resolved l rs Hall). by rewrite Hgrants.
Qed.

Lemma has_colon_app (s t : string) :
  has_colon (s +:+ t) = has_colon s || has_colon t.
Proof.
  induction s as [|a s IH]; simpl; [done|]. by destruct (decide (a = ":"%char)).
Qed.

Lemma split_colon_app (s t : string) :
  has_colon s = false → split_colon (s +:+ String ":" t) = Some (s, t).
Proof.
  induction s as [|a s IH]; simpl; [done|].
  destruct (decide (a = ":"%char)); [done|]. intros Hs. by rewrite (IH Hs).
Qed.

(** The action made of a string without a colon passes the test of the
    CDK exactly when the string is made of letters, digits and hyphens,
    one at least. *)
Lemma valid_action_of_service (s : string) :
  has_colon s = false → valid_action (s +:+ ":*") = service_name s.
Proof.
  intros Hs. unfold valid_action.
  rewrite (split_colon_app s "*" Hs).
  rewrite bool_decide_eq_false_2.
  - simpl. by rewrite andb_true_r.
  - by destruct s as [|a [|b s]].
Qed.

(** The actions the code gives by name are actions the CDK accepts. *)
Lemma of_construct_valid c :
  Forall (λ st, forallb valid_action (ps_actions st) = true) (of_construct c).
Proof.
  destruct c as [env i|env i|env i cs|env i|arn|arn|arn|arn|arn|arn|arn [sec|]|arn|arn];
    repeat constructor.
Qed.

Lemma of_foreign_valid o sts :
  of_foreign o = Some sts →
  Forall (λ st, forallb valid_action (ps_actions st) = true) sts.
Proof.
  unfold of_foreign. intros Ho.
  repeat (case_match; simplify_eq); repeat constructor.
Qed.

(** X14.  A string without a colon stands for all the actions of the
    service it names: it gives what the same string followed by [:*]
    gives.  When the string is a service name for the CDK (letters,
    digits and hyphens, one at least), that is the statement allowing the
    action [s:*] on every resource; when it is not (the empty string,
    ["*"], a name with an underscore), the statement is refused. *)
Theorem service_name_stands_for_all_actions (s : string) :
  has_colon s = false →
  of_permission (PString s) = of_permission (PString (s +:+ ":*"))
  ∧ of_permission (PString s)
    = if service_name s
      then inr ([ {| ps_effect := Allow; ps_actions := [s +:+ ":*"];
                     ps_resources := ["*"] |} ], [])
      else inl (InvalidAction (s +:+ ":*")).
Proof.
  intros Hs. simpl. rewrite Hs, has_colon_app, Hs. simpl.
  rewrite (valid_action_of_service s Hs). split; [done|].
  by destruct (service_name s).
Qed.

Lemma sample_entries_resolved :
  Forall2 (λ p r, of_permission p = inr r) sample_entries sample_resolved.
Proof. repeat constructor. Defined.

Lemma first_unsupported_entry_decides_witness :
  let l := [PString "s3"] ++ PPrimitive :: [PStatement deny_delete] in
  permissionsToStatementsAndGrants (Entries l) = inl NotSupported
  ∧ attachPermissionsToRole empty_principal (Entries l)
    = (empty_principal, Some NotSupported).
Proof.
  apply (first_unsupported_entry_decides [PString "s3"] PPrimitive
           [PStatement deny_delete] NotSupported empty_principal).
  - repeat constructor. by eexists.
  - reflexivity.
Defined.

Lemma entries_resolve_in_order_witness :
  permissionsToStatementsAndGrants (Entries sample_entries)
  = inr ([ buildPolicyStatement (Action "s3:*") ["*"]; deny_delete;
           buildPolicyStatement (Action "sqs:*") ["arn:aws:sqs:us-east-1:123:jobs"] ],
         [(cdk_topic, "grantPublish")])
  ∧ attachPermissionsToRole empty_principal (Entries sample_entries)
    = ({| added := [ buildPolicyStatement (Action "s3:*") ["*"]; deny_delete;
                     buildPolicyStatement (Action "sqs:*")
                       ["arn:aws:sqs:us-east-1:123:jobs"] ];
          granted := [(cdk_topic, "grantPublish")] |}, None).
Proof.
  exact (entries_resolve_in_order sample_entries sample_resolved empty_principal
           sample_entries_resolved).
Defined.

Lemma statements_allow_unless_given_witness :
  permissionsToStatementsAndGrants (Entries sample_entries)
  = inr ([ buildPolicyStatement (Action "s3:*") ["*"]; deny_delete;
           buildPolicyStatement (Action "sqs:*") ["arn:aws:sqs:us-east-1:123:jobs"] ],
         [(cdk_topic, "grantPublish")])
  ∧ ((∃ l, Entries sample_entries = Entries l ∧ PStatement deny_delete ∈ l)
     ∨ (ps_effect deny_delete = Allow ∧ ps_actions deny_delete ≠ []
        ∧ ps_resources deny_delete ≠ [])).
Proof.
  split; [reflexivity|].
  apply (statements_allow_unless_given (Entries sample_entries)
           [ buildPolicyStatement (Action "s3:*") ["*"]; deny_delete;
             buildPolicyStatement (Action "sqs:*") ["arn:aws:sqs:us-east-1:123:jobs"] ]
           [(cdk_topic, "grantPublish")] deny_delete eq_refl).
  apply list_elem_of_further, list_elem_of_here.
Defined.

Lemma grants_name_methods_witness :
  Construct.isCDKConstruct (g_value cdk_topic) = true
  ∧ "grantPublish" ∈ g_methods cdk_topic
  ∧ ∃ l, Entries sample_entries = Entries l
         ∧ PArray [ItemConstruct cdk_topic; ItemString "grantPublish"] ∈ l.
Proof.
  apply (grants_name_methods (Entries sample_entries)
           [ buildPolicyStatement (Action "s3:*") ["*"]; deny_delete;
             buildPolicyStatement (Action "sqs:*") ["arn:aws:sqs:us-east-1:123:jobs"] ]
           [(cdk_topic, "grantPublish")] cdk_topic "grantPublish" eq_refl).
  apply list_elem_of_here.
Defined.

Lemma policy_gets_statements_before_grant_error_witness :
  attachPermissionsToPolicy empty_principal (Entries sample_entries)
  = ({| added := [ buildPolicyStatement (Action "s3:*") ["*"]; deny_delete;
                   buildPolicyStatement (Action "sqs:*")
                     ["arn:aws:sqs:us-east-1:123:jobs"] ];
        granted := [] |},
     Some (CannotAttachToPolicy "grantPublish")).
Proof.
  exact (policy_gets_statements_before_grant_error sample_entries sample_resolved
           empty_principal cdk_topic "grantPublish" [] sample_entries_resolved
           eq_refl).
Defined.

Lemma service_name_stands_for_all_actions_witness :
  (has_colon "rds-data" = false ∧ has_colon "my_service" = false
   ∧ has_colon "*" = false)
  ∧ of_permission (PString "rds-data") = of_permission (PString "rds-data:*")
  ∧ of_permission (PString "rds-data")
    = inr ([ {| ps_effect := Allow; ps_actions := ["rds-data:*"];
                ps_resources := ["*"] |} ], [])
  ∧ of_permission (PString "my_service") = inl (InvalidAction "my_service:*")
  ∧ of_permission (PString "*") = inl (InvalidAction "*:*").
Proof.
  split; [split_and!; reflexivity|].
  destruct (service_name_stands_for_all_actions "rds-data" eq_refl) as [Hsame Hgiven].
  destruct (service_name_stands_for_all_actions "my_service" eq_refl) as [_ Hrefused].
  destruct (service_name_stands_for_all_actions "*" eq_refl) as [_ Hstar].
  split_and!; [exact Hsame|exact Hgiven|exact Hrefused|exact Hstar].
Defined.

End PermissionFacts.


(** ** The site constructs: what is checked when, and what a failure leaves *)

Module SiteMore.
Import BaseSite SiteObservations SiteFacts SiteSamples SiteMoreSamples.

(** *** Failing computations *)

Lemma bind_fs {A B} (m : M A) (k : A → M B) (fs : filesystem) :
  (bind m k fs).1.2
  = match outcome (m fs) with
    | inl _ => (m fs).1.2
    | inr a => (k a (m fs).1.2).1.2
    end.
Proof.
  unfold bind, outcome. destruct (m fs) as [[es fs1] [e|a]]; simpl; [done|].
  by destruct (k a fs1) as [[es' fs2] r].
Qed.

(** A property of the effects of [m], and of the effects of every
    continuation that fails, holds of the effects of [bind m k] when it
    fails. *)
Lemma bind_fails_quietly {A B} (P : effect → Prop) (m : M A) (k : A → M B) fs :
  Forall P (trace (m fs)) →
  (∀ a fs' e, outcome (k a fs') = inl e → Forall P (trace (k a fs'))) →
  ∀ e, outcome (bind m k fs) = inl e → Forall P (trace (bind m k fs)).
Proof.
  intros Hm Hk e. rewrite bind_outcome, bind_trace.
  destruct (outcome (m fs)) as [e'|a].
  - intros _. by rewrite app_nil_r.
  - intros He. apply Forall_app. split; [done|]. by apply (Hk a _ e).
Qed.

(** Goes through a computation bind by bind to show a property of all its
    effects, for properties that hold of an effect by computation. *)
Ltac quiet :=
  repeat first
    [ progress intros
    | apply bind_Forall
    | apply for_each_Forall
    | match goal with
      | |- Forall _ (trace (emit _ _)) =>
          apply Forall_cons; split; [reflexivity|constructor]
      | |- Forall _ (trace (ret _ _)) => constructor
      | |- Forall _ (trace (throw _ _)) => constructor
      | |- Forall _ (trace (read_fs _)) => constructor
      | |- Forall _ (trace (write_fs _ _)) => constructor
      | |- Forall _ (trace ((if ?c then _ else _) _)) => destruct c
      | |- Forall _ (trace ((match ?c with _ => _ end) _)) => destruct c
      end ].

(** *** The site directory *)

(** What the parts of a computation never throw, the computation never
    throws. *)
Lemma bind_throws_only {A B} (P : error → Prop) (m : M A) (k : A → M B) fs :
  (∀ e, outcome (m fs) = inl e → P e) →
  (∀ a fs' e, outcome (k a fs') = inl e → P e) →
  ∀ e, outcome (bind m k fs) = inl e → P e.
Proof.
  intros Hm Hk e. rewrite bind_outcome.
  destruct (outcome (m fs)) as [e'|a] eqn:E.
  - intros [= <-]. by apply Hm.
  - apply Hk.
Qed.

(** X15.  The constructor of a server-rendered site throws "No site
    found" when the site path does not exist, and only then; it does so
    before it has validated, written or declared anything, whatever the
    other properties are. *)
Theorem missing_site_directory
  (X : externals) ctx cfg id (p : SsrSite.site_props) (fs : filesystem) :
  (existsSync fs (SsrSite.props_path p) = false →
   SsrSite.construct X ctx cfg id p fs
   = ([], fs, inl (NoSiteFound (SsrSite.props_path p))))
  ∧ (∀ q, outcome (SsrSite.construct X ctx cfg id p fs) = inl (NoSiteFound q) →
          existsSync fs (SsrSite.props_path p) = false
          ∧ q = SsrSite.props_path p).
Proof.
  split.
  - intros Hpath.
    unfold SsrSite.construct, SsrSite.validateSiteExists.
    unfold bind at 1. unfold bind at 1. cbn [read_fs]. by rewrite Hpath.
  - intros q. unfold SsrSite.construct.
    destruct (existsSync fs (SsrSite.props_path p)) eqn:Hpath.
    + intros Hq. exfalso.
      cut (∀ e, outcome (SsrSite.construct X ctx cfg id p fs) = inl e →
                e ≠ NoSiteFound q); [intros Hnever; by apply (Hnever _ Hq)|].
      clear Hq. unfold SsrSite.construct. apply bind_throws_only.
      { unfold SsrSite.validateSiteExists, outcome, bind, read_fs. simpl.
        by rewrite Hpath. }
      intros [] fs1. apply bind_throws_only.
      { unfold SsrSite.lift, SsrSite.validateTimeout.
        destruct (decide _); intros e [= <-]. done. }
      intros [] fs2. apply bind_throws_only.
      { unfold SsrSite.writeTypesFile, outcome, bind, read_fs. simpl.
        by destruct (existsSync fs2 _). }
      intros [] fs3. apply bind_throws_only; [done|].
      intros [] fs4. by destruct (_ || _).
    + unfold SsrSite.validateSiteExists, outcome, bind, ret, throw, read_fs.
      simpl. rewrite Hpath. simpl. by intros [= <-].
Qed.

Lemma missing_site_directory_witness :
  let fs := {| files := {[ "notes.txt" := "n" ]}; dirs := ∅ |} in
  let p := with_timeout (SsrSite.Duration "5 minutes") false in
  existsSync fs (SsrSite.props_path p) = false
  ∧ SsrSite.construct sample_externals sample_context
      SsrSite.placeholder_buildConfig "site" p fs
    = ([], fs, inl (NoSiteFound "web"))
  ∧ SsrSite.validateTimeout sample_externals p = inl (TimeoutTooLarge false).
Proof.
  intros fs p.
  assert (existsSync fs (SsrSite.props_path p) = false) as Hpath
    by (vm_compute; reflexivity).
  split; [exact Hpath|]. split; [|reflexivity].
  exact (proj1 (missing_site_directory sample_externals sample_context
                  SsrSite.placeholder_buildConfig "site" p fs) Hpath).
Defined.

(** *** The build command *)

(** X16.  [runBuild] of a server-rendered site starts the build command
    once or not at all.  With the default command, a site without a
    [package.json], or with one that cannot be read or parsed or that has
    no build script, makes [runBuild] throw with no process started and
    the files untouched: "No package.json found" when the file is
    missing, "No build script found" when it parses and has none, and the
    error of [readFileSync] or of [JSON.parse] otherwise.  In every other
    case, a command of the site's own included, the command is started
    exactly once, in the site directory, and [runBuild] throws when it
    fails. *)
Theorem runBuild_starts_the_command_or_nothing
  (X : externals) (ctx : SsrSite.context) (s : SsrSite.site) (fs : filesystem) :
  let command := build_command (SsrSite.props s) in
  let sitePath := SsrSite.props_path (SsrSite.props s) in
  let packageJson := path_join [sitePath; "package.json"] in
  let env := SsrSite.runBuild_env X ctx (SsrSite.props s) in
  let run := SsrSite.runBuild X ctx s fs in
  if bool_decide (command = "npm run build")
     && negb (has_build_script X fs sitePath)
  then trace run = [] ∧ run.1.2 = fs
       ∧ ∃ e, outcome run = inl e
              ∧ (existsSync fs packageJson = false → e = NoPackageJson sitePath)
              ∧ (existsSync fs packageJson = true → files fs !! packageJson = None →
                 e = SystemError "read" packageJson)
              ∧ (∀ text, files fs !! packageJson = Some text →
                   match hasBuildScript X text with
                   | None => e = JsonError packageJson
                   | Some has => has = false ∧ e = NoBuildScript sitePath
                   end)
  else trace run = [Executed command sitePath env]
       ∧ match execSync X command sitePath env fs with
         | Some fs' => run.1.2 = fs' ∧ outcome run = inr tt
         | None => run.1.2 = fs ∧ outcome run = inl (BuildFailed (SsrSite.node_id s))
         end.
Proof.
  intros command sitePath packageJson env run. subst run. unfold SsrSite.runBuild.
  fold sitePath. fold env. fold packageJson.
  change (match SsrSite.buildCommand (SsrSite.props s) with
          | Some c => if decide (c = "") then "npm run build" else c
          | None => "npm run build"
          end) with command.
  unfold has_build_script. fold packageJson.
  assert (is_Some (files fs !! packageJson) → existsSync fs packageJson = true)
    as Hfile.
  { intros Hsome. apply bool_decide_eq_true. unfold all_paths.
    apply elem_of_union_l. by apply elem_of_dom. }
  destruct (decide (command = "npm run build")) as [Hc|Hc];
    [rewrite (bool_decide_eq_true_2 _ Hc)|rewrite (bool_decide_eq_false_2 _ Hc)];
    simpl.
  - destruct (existsSync fs packageJson) eqn:Hpj; simpl.
    + destruct (files fs !! packageJson) as [text|] eqn:Htext;
        unfold mbind, option_bind; simpl.
      * destruct (hasBuildScript X text) as [[|]|] eqn:Hbs; simpl.
        -- unfold bind, trace, outcome. simpl. rewrite Hpj, Htext, Hbs. simpl.
           destruct (execSync X command sitePath env fs); by simpl.
        -- unfold bind, trace, outcome. simpl. rewrite Hpj, Htext, Hbs. simpl.
           split_and!; try done. eexists. split_and!; try done.
           intros text' [= <-]. by rewrite Hbs.
        -- unfold bind, trace, outcome. simpl. rewrite Hpj, Htext, Hbs. simpl.
           split_and!; try done. eexists. split_and!; try done.
           intros text' [= <-]. by rewrite Hbs.
      * unfold bind, trace, outcome. simpl. rewrite Hpj, Htext. simpl.
        split_and!; try done. eexists. split_and!; done.
    + unfold bind, trace, outcome. simpl. rewrite Hpj. simpl.
      split_and!; try done. eexists. split_and!; try done.
      intros text Htext. exfalso. cut (false = true); [done|].
      apply Hfile. by eexists.
  - unfold bind, trace, outcome. simpl.
    destruct (execSync X command sitePath env fs); by simpl.
Qed.

Lemma runBuild_starts_the_command_or_nothing_witness :
  let env := SsrSite.runBuild_env sample_externals sample_context
               (SsrSite.props sample_site) in
  let run fs := SsrSite.runBuild sample_externals sample_context sample_site fs in
  let bare := {| files := ∅; dirs := {[ "web" ]} |} in
  trace (run (sample_fs "<html>")) = [Executed "npm run build" "web" env]
  ∧ (trace (run bare) = [] ∧ outcome (run bare) = inl (NoPackageJson "web"))
  ∧ outcome (run (writeFileSync "web/package.json" "{}" bare))
    = inl (NoBuildScript "web")
  ∧ outcome (run (writeFileSync "web/package.json" "" bare))
    = inl (JsonError "web/package.json").
Proof.
  intros env run bare.
  assert (∀ fs, has_build_script sample_externals fs "web" = false →
            trace (run fs) = []
            ∧ ∃ e, outcome (run fs) = inl e
              ∧ (existsSync fs "web/package.json" = false → e = NoPackageJson "web")
              ∧ (∀ text, files fs !! "web/package.json" = Some text →
                   match hasBuildScript sample_externals text with
                   | None => e = JsonError "web/package.json"
                   | Some has => has = false ∧ e = NoBuildScript "web"
                   end)) as Hnone.
  { intros fs Hfs.
    pose proof (runBuild_starts_the_command_or_nothing sample_externals
                  sample_context sample_site fs) as Hrun.
    cbv zeta in Hrun.
    change (SsrSite.props_path (SsrSite.props sample_site)) with "web" in Hrun.
    rewrite Hfs in Hrun.
    change (bool_decide (build_command (SsrSite.props sample_site) = "npm run build")
            && negb false) with true in Hrun.
    destruct Hrun as (Htrace & _ & e & He & Hmissing & _ & Htext).
    split; [exact Htrace|]. exists e. by split_and!. }
  split_and!.
  - pose proof (runBuild_starts_the_command_or_nothing sample_externals
                  sample_context sample_site (sample_fs "<html>")) as Hrun.
    cbv zeta in Hrun.
    replace (bool_decide (build_command (SsrSite.props sample_site) = "npm run build")
             && negb (has_build_script sample_externals (sample_fs "<html>")
                        (SsrSite.props_path (SsrSite.props sample_site))))
      with false in Hrun by (vm_compute; reflexivity).
    exact (proj1 Hrun).
  - by destruct (Hnone bare) as (Htrace & _); [vm_compute; reflexivity|].
  - destruct (Hnone bare) as (_ & e & He & Hmissing & _);
      [vm_compute; reflexivity|].
    rewrite He, Hmissing; [done|]. vm_compute. reflexivity.
  - destruct (Hnone (writeFileSync "web/package.json" "{}" bare))
      as (_ & e & He & _ & Htext); [vm_compute; reflexivity|].
    rewrite He. by destruct (Htext "{}" eq_refl) as [_ ->].
  - destruct (Hnone (writeFileSync "web/package.json" "" bare))
      as (_ & e & He & _ & Htext); [vm_compute; reflexivity|].
    rewrite He. by rewrite (Htext "" eq_refl).
Defined.

(** *** Failures of the deferred task *)

Lemma for_each_emit_outcome {A} (f : A → effect) (l : list A) fs :
  for_each (λ a, emit (f a)) l fs = (f <$> l, fs, inr tt).
Proof. by apply for_each_emit. Qed.

Lemma SsrSite_createS3AssetFileOptions_returns s fs :
  ∃ o, SsrSite.createS3AssetFileOptions s fs = ([], fs, inr o).
Proof.
  unfold SsrSite.createS3AssetFileOptions.
  destruct (SsrSite.fileOptions (SsrSite.props s)); by eexists.
Qed.

(** Once the assets are there, nothing of what is left of the task of a
    server-rendered site throws one of the construct's errors. *)
Lemma SsrSite_publishing_returns X s assets fs :
  outcome
    (bind (SsrSite.createS3AssetFileOptions s) (λ assetFileOptions,
       bind (SsrSite.createS3Deployment X s assets assetFileOptions) (λ _,
         bind (SsrSite.addStaticFileBehaviors s) (λ _,
           bind read_fs (λ fs',
             emit (InvalidationCreated (SsrSite.generateBuildId X s fs'))))))
       fs)
  = inr tt.
Proof.
  destruct (SsrSite_createS3AssetFileOptions_returns s fs) as [o Ho].
  rewrite bind_outcome, Ho. unfold outcome at 1. cbn [snd fst].
  unfold SsrSite.createS3Deployment, SsrSite.addStaticFileBehaviors.
  rewrite !bind_outcome. cbn.
  rewrite for_each_emit_outcome. done.
Qed.

Lemma StaticSite_publishing_returns X s assets filenamesAsset fs :
  outcome
    (bind (StaticSite.createS3Deployment X s assets filenamesAsset) (λ _,
       bind read_fs (λ fs',
         emit (InvalidationCreated (StaticSite.generateInvalidationId X fs' assets))))
       fs)
  = inr tt.
Proof. done. Qed.

(** X17.  When the deferred task of a site throws one of the errors of
    the construct (no site, no build script, a failed build, no build
    output, a failed archive, warming on the edge), the site has not been
    published in part: no deployment resource has been created, no
    behaviour added to the distribution and no invalidation requested.
    This holds of server-rendered and of static sites. *)
Theorem failed_task_publishes_nothing (X : externals) :
  (∀ ctx s fs e,
     outcome (SsrSite.deploy_task X ctx s fs) = inl e →
     Forall (λ ef, is_published ef = false)
            (trace (SsrSite.deploy_task X ctx s fs)))
  ∧ (∀ ctx s fs e,
       outcome (StaticSite.deploy_task X ctx s fs) = inl e →
       Forall (λ ef, is_published ef = false)
              (trace (StaticSite.deploy_task X ctx s fs))).
Proof.
  split.
  - intros ctx s fs e. unfold SsrSite.deploy_task. revert e.
    apply bind_fails_quietly.
    { unfold SsrSite.buildApp, SsrSite.runBuild, SsrSite.validateBuildOutput. quiet. }
    intros _ fs1. apply bind_fails_quietly; [quiet|].
    intros _ fs2. apply bind_fails_quietly.
    { unfold SsrSite.createWarmer. quiet. }
    intros _ fs3. apply bind_fails_quietly; [quiet|].
    intros _ fs4. apply bind_fails_quietly.
    { unfold SsrSite.createS3Assets. quiet. }
    intros assets fs5 e He. by rewrite SsrSite_publishing_returns in He.
  - intros ctx s fs e. unfold StaticSite.deploy_task. revert e.
    apply bind_fails_quietly.
    { unfold StaticSite.buildApp. quiet. }
    intros _ fs1. apply bind_fails_quietly; [quiet|].
    intros _ fs2. apply bind_fails_quietly.
    { unfold StaticSite.createS3Assets. quiet. }
    intros assets fs3. apply bind_fails_quietly.
    { unfold StaticSite.bundleFilenamesAsset. quiet. }
    intros filenamesAsset fs4 e He.
    by rewrite StaticSite_publishing_returns in He.
Qed.

Lemma failed_task_publishes_nothing_witness :
  let run := SsrSite.deploy_task sample_externals sample_context failing_site
               (sample_fs "<html>") in
  outcome run = inl (BuildFailed "site")
  ∧ Forall (λ ef, is_published ef = false) (trace run).
Proof.
  intros run.
  assert (outcome run = inl (BuildFailed "site")) as Hfail
    by (vm_compute; reflexivity).
  split; [exact Hfail|].
  exact (proj1 (failed_task_publishes_nothing sample_externals) sample_context
           failing_site (sample_fs "<html>") (BuildFailed "site") Hfail).
Defined.

(** X18.  A server-rendered site on the edge that asks for warm
    instances is refused by its deferred task, not by its constructor:
    the build has run and the server function has been built by the time
    the error is thrown (unless the build itself failed), and nothing is
    archived or uploaded. *)
Theorem warming_on_the_edge_is_refused_after_the_build
  (X : externals) (ctx : SsrSite.context) (s : SsrSite.site) (fs : filesystem)
  (w : Z) :
  SsrSite.warm (SsrSite.props s) = Some w → w ≠ 0%Z →
  SsrSite.props_edge (SsrSite.props s) = true →
  let built := SsrSite.buildApp X ctx s fs in
  SsrSite.deploy_task X ctx s fs
  = match outcome built with
    | inl e => (trace built, built.1.2, inl e)
    | inr _ => (trace built ++ [FunctionBuilt "ServerFunction"], built.1.2,
                inl (WarmingNotSupported (SsrSite.node_id s)))
    end.
Proof.
  intros Hwarm Hw Hedge built. subst built. unfold SsrSite.deploy_task.
  unfold bind at 1. unfold trace, outcome.
  destruct (SsrSite.buildApp X ctx s fs) as [[es fs1] [e|[]]]; [done|].
  unfold SsrSite.createWarmer. rewrite Hwarm, Hedge.
  rewrite decide_False by done. unfold bind. simpl. done.
Qed.

Lemma warming_on_the_edge_is_refused_after_the_build_witness :
  let env := SsrSite.runBuild_env sample_externals sample_context
               (SsrSite.props warm_edge_site) in
  (SsrSite.warm (SsrSite.props warm_edge_site) = Some 5%Z
   ∧ SsrSite.props_edge (SsrSite.props warm_edge_site) = true)
  ∧ trace (SsrSite.deploy_task sample_externals sample_context warm_edge_site
             (sample_fs "<html>"))
    = [Executed "make" "web" env; FunctionBuilt "ServerFunction"]
  ∧ outcome (SsrSite.deploy_task sample_externals sample_context warm_edge_site
               (sample_fs "<html>"))
    = inl (WarmingNotSupported "site").
Proof.
  intros env. split; [by split|].
  rewrite (warming_on_the_edge_is_refused_after_the_build sample_externals
             sample_context warm_edge_site (sample_fs "<html>") 5 eq_refl
             ltac:(discriminate) eq_refl).
  split; vm_compute; reflexivity.
Defined.

(** *** The archive folder *)

Lemma strip_prefix_app (a b c : string) :
  strip_prefix (a +:+ b) (a +:+ c) = strip_prefix b c.
Proof.
  induction a as [|x a IH]; simpl; [done|]. by rewrite decide_True.
Qed.

Lemma below_zipFilePath (dir : string) (i : nat) :
  is_Some (below dir (zipFilePath dir i)).
Proof.
  unfold below, zipFilePath. rewrite strip_prefix_app. simpl. by eexists.
Qed.

(** What [rmSync] removed is not there. *)
Lemma existsSync_rmSync (dir q : string) (fs : filesystem) :
  is_Some (below dir q) → existsSync (rmSync dir fs) q = false.
Proof.
  intros Hbelow. unfold existsSync. apply bool_decide_eq_false.
  unfold all_paths, rmSync. simpl. intros [Hq|Hq]%elem_of_union.
  - apply elem_of_dom in Hq as [x Hx].
    apply map_lookup_filter_Some in Hx as [_ Hkeep]. simpl in Hkeep.
    apply Hkeep. by right.
  - apply elem_of_filter in Hq as [Hkeep _]. apply Hkeep. by right.
Qed.

(** X19.  When the archiver exits with 0, [createS3Assets] returns, with
    the parts zero to some [n - 1] for assets, the first missing part
    being [n]; and each of these parts is a file the archiver of this run
    has made, for the folder was cleared before it started: a part left
    there by an earlier build is never uploaded.  This holds of
    server-rendered sites and, once the build output is there, of static
    sites. *)
Theorem assets_are_parts_of_this_run (X : externals) :
  (∀ ctx s fs,
     let dir := SsrSite.zipOutDir ctx s in
     let result :=
       archiver X (SsrSite.archive_sources s) dir (SsrSite.fileSizeLimit ctx s)
         (rmSync dir fs) in
     result.1 = 0%Z →
     ∃ n, outcome (SsrSite.createS3Assets X ctx s fs) = inr (part dir <$> seq 0 n)
          ∧ existsSync result.2 (zipFilePath dir n) = false
          ∧ ∀ i, (i < n)%nat →
                 existsSync result.2 (zipFilePath dir i) = true
                 ∧ existsSync (rmSync dir fs) (zipFilePath dir i) = false)
  ∧ (∀ ctx s fs,
       let dir := StaticSite.zipPath ctx s in
       let result :=
         archiver X [(StaticSite.siteOutputPath s, "")] dir
           (StaticSite.fileSizeLimit ctx s) (rmSync dir fs) in
       existsSync fs (StaticSite.siteOutputPath s) = true →
       result.1 = 0%Z →
       ∃ n, outcome (StaticSite.createS3Assets X ctx s fs)
            = inr (part dir <$> seq 0 n)
            ∧ existsSync result.2 (zipFilePath dir n) = false
            ∧ ∀ i, (i < n)%nat →
                   existsSync result.2 (zipFilePath dir i) = true
                   ∧ existsSync (rmSync dir fs) (zipFilePath dir i) = false).
Proof.
  split.
  - intros ctx s fs dir result Hstatus.
    destruct (discover_parts_total result.2 dir) as (n & Hparts & Hgap & Hfound).
    exists n. split_and!; [|done|].
    + rewrite SsrSite_createS3Assets_run. fold dir. fold result.
      rewrite decide_False by (intros Hne; by apply Hne).
      unfold outcome. simpl. by rewrite Hfound.
    + intros i Hi. split; [by apply Hparts|].
      apply existsSync_rmSync, below_zipFilePath.
  - intros ctx s fs dir result Hout Hstatus.
    destruct (discover_parts_total result.2 dir) as (n & Hparts & Hgap & Hfound).
    exists n. split_and!; [|done|].
    + rewrite StaticSite_createS3Assets_run by done. fold dir. fold result.
      rewrite decide_False by (intros Hne; by apply Hne).
      unfold outcome. simpl. by rewrite Hfound.
    + intros i Hi. split; [by apply Hparts|].
      apply existsSync_rmSync, below_zipFilePath.
Qed.

Lemma assets_are_parts_of_this_run_witness :
  let dir := SsrSite.zipOutDir sample_context sample_site in
  (existsSync stale_fs (zipFilePath dir 0) = true
   ∧ (archiver idle_externals (SsrSite.archive_sources sample_site) dir
        (SsrSite.fileSizeLimit sample_context sample_site) (rmSync dir stale_fs)).1
     = 0%Z)
  ∧ ∃ n, outcome (SsrSite.createS3Assets idle_externals sample_context sample_site
                    stale_fs)
         = inr (part dir <$> seq 0 n).
Proof.
  intros dir. split; [split; [vm_compute; reflexivity|reflexivity]|].
  destruct (proj1 (assets_are_parts_of_this_run idle_externals) sample_context
              sample_site stale_fs eq_refl) as (n & Hrun & _).
  by exists n.
Defined.

(** The part of an earlier run is not uploaded. *)
Example stale_part_is_not_uploaded :
  outcome (SsrSite.createS3Assets idle_externals sample_context sample_site stale_fs)
  = inr []
  ∧ outcome (SsrSite.createS3Assets sample_externals sample_context sample_site
               stale_fs)
    = inr [part (SsrSite.zipOutDir sample_context sample_site) 0].
Proof. vm_compute. done. Qed.

(** *** Replacement rules *)

Lemma elem_of_concat_map_inv {A B} (f : A → list B) (l : list A) (y : B) :
  y ∈ concat (map f l) → ∃ x, x ∈ l ∧ y ∈ f x.
Proof.
  induction l as [|a l IH]; simpl; [by intros ?%elem_of_nil|].
  intros [Hy|Hy]%elem_of_app.
  - exists a. split; [apply list_elem_of_here|done].
  - destruct (IH Hy) as (x & Hx & Hyx). exists x.
    split; [by apply list_elem_of_further|done].
Qed.

(** X20.  The replacement rules a site writes itself are for unresolved
    values only: each of them replaces the token [{{ KEY }}] of a
    variable of the site by that variable's value, which is unresolved,
    in HTML, JavaScript or (server-rendered sites only) JSON files.  A
    static site gives besides them the rules of its [replaceValues]
    property, and no other. *)
Theorem replace_rules_only_for_unresolved (X : externals) (rule : replace_value) :
  (∀ p, rule ∈ SsrSite.getS3ContentReplaceValues X p →
     ∃ key, (key, rv_replace rule) ∈ default [] (SsrSite.environment p)
            ∧ isUnresolved X (rv_replace rule) = true
            ∧ rv_search rule = token_of key
            ∧ rv_files rule ∈ ["**/*.html"; "**/*.js"; "**/*.json"])
  ∧ (∀ p, rule ∈ StaticSite.getS3ContentReplaceValues X p →
       rule ∈ default [] (StaticSite.replaceValues p)
       ∨ ∃ key, (key, rv_replace rule) ∈ default [] (StaticSite.environment p)
                ∧ isUnresolved X (rv_replace rule) = true
                ∧ rv_search rule = token_of key
                ∧ rv_files rule ∈ ["**/*.html"; "**/*.js"]).
Proof.
  split.
  - intros p Hrule. unfold SsrSite.getS3ContentReplaceValues in Hrule.
    apply elem_of_concat_map_inv in Hrule as ([key value] & Hkv & Hrule).
    apply list_elem_of_filter in Hkv as [Hun Hkv]. simpl in Hun.
    exists key. rewrite !elem_of_cons, elem_of_nil in Hrule.
    destruct Hrule as [->|[->|[->|[]]]]; simpl; split_and!; try done;
      rewrite !elem_of_cons; auto.
  - intros p Hrule. unfold StaticSite.getS3ContentReplaceValues in Hrule.
    apply elem_of_app in Hrule as [Hrule|Hrule]; [by left|right].
    apply elem_of_concat_map_inv in Hrule as ([key value] & Hkv & Hrule).
    apply list_elem_of_filter in Hkv as [Hun Hkv]. simpl in Hun.
    exists key. rewrite !elem_of_cons, elem_of_nil in Hrule.
    destruct Hrule as [->|[->|[]]]; simpl; split_and!; try done;
      rewrite !elem_of_cons; auto.
Qed.

Lemma replace_rules_only_for_unresolved_witness :
  let rule := ReplaceValue "**/*.json" "{{ API_URL }}" "${Token[TOKEN.182]}" in
  let p := sample_props (Some sample_environment) None in
  rule ∈ SsrSite.getS3ContentReplaceValues sample_externals p
  ∧ ∃ key, (key, rv_replace rule) ∈ default [] (SsrSite.environment p)
           ∧ isUnresolved sample_externals (rv_replace rule) = true
           ∧ rv_search rule = token_of key
           ∧ rv_files rule ∈ ["**/*.html"; "**/*.js"; "**/*.json"].
Proof.
  intros rule p.
  assert (rule ∈ SsrSite.getS3ContentReplaceValues sample_externals p) as Hrule
    by (apply (bool_decide_unpack _); vm_compute; exact I).
  split; [exact Hrule|].
  exact (proj1 (replace_rules_only_for_unresolved sample_externals rule) p Hrule).
Defined.

End SiteMore.


(** ** The viewer-request function of a static site *)

Module ViewerRequestFacts.
Import ViewerRequest.

Lemma split_nonempty (sep : ascii) (s : string) : split sep s ≠ [].
Proof.
  destruct s as [|c s]; simpl; [done|].
  destruct (decide (c = sep)); [done|]. by destruct (split sep s).
Qed.

Lemma pop_cons (x : string) (l : list string) : l ≠ [] → pop (x :: l) = pop l.
Proof. unfold pop. by destruct l. Qed.

Lemma includes_cons (c : ascii) (s sub : string) :
  includes s sub = true → includes (String c s) sub = true.
Proof. intros Hs. simpl. rewrite Hs. apply orb_true_r. Qed.

(** What is appended after the last slash stays in the last segment. *)
Lemma pop_split_app (t : string) :
  split "/" t = [t] → includes t "." = true →
  ∀ u, includes (pop (split "/" (u +:+ t))) "." = true.
Proof.
  intros Ht Hdot u. induction u as [|c u IH]; simpl.
  - change ("" +:+ t) with t. by rewrite Ht.
  - destruct (decide (c = "/"%char)).
    + rewrite pop_cons by apply split_nonempty. done.
    + pose proof (split_nonempty "/" (u +:+ t)) as Hne.
      destruct (split "/" (u +:+ t)) as [|x [|y l]]; [done| |].
      * unfold pop in *. simpl in *. by apply includes_cons.
      * rewrite pop_cons by done. by rewrite pop_cons in IH.
Qed.

(** A string that ends with a slash has an empty last segment. *)
Lemma endsWith_slash_pop (s : string) :
  endsWith s "/" = true →
  pop (split "/" s) = "" ∧ (2 ≤ length (split "/" s))%nat.
Proof.
  induction s as [|c s IH]; [done|]. simpl. intros Hends.
  apply orb_true_iff in Hends as [Heq|Hends].
  - apply bool_decide_eq_true in Heq. injection Heq as -> ->.
    simpl. split; [done|lia].
  - destruct (IH Hends) as [Hpop Hlen].
    destruct (decide (c = "/"%char)).
    + rewrite pop_cons by apply split_nonempty. simpl. split; [done|lia].
    + destruct (split "/" s) as [|x [|y l]]; simpl in Hlen; [lia|lia|].
      rewrite pop_cons by done. rewrite pop_cons in Hpop by done.
      split; [done|simpl; lia].
Qed.

Lemma handler_dot (uri : string) :
  Construct.startsWith uri "/.well-known/" = false →
  includes (pop (split "/" (handler uri))) "." = true.
Proof.
  intros Hwk. unfold handler. rewrite Hwk.
  destruct (endsWith uri "/").
  - by apply pop_split_app.
  - destruct (includes (pop (split "/" uri)) ".") eqn:Hdot; simpl; [done|].
    by apply pop_split_app.
Qed.

(** X21.  Outside [/.well-known/], the function always hands CloudFront
    the URI of a file: the URI it returns is the URI of the request or
    that URI followed by [index.html] or [.html], and its last segment
    has a dot in it, whatever the URI of the request. *)
Theorem handler_names_a_file (uri : string) :
  Construct.startsWith uri "/.well-known/" = false →
  includes (pop (split "/" (handler uri))) "." = true
  ∧ handler uri ∈ [uri; uri +:+ "index.html"; uri +:+ ".html"].
Proof.
  intros Hwk. split; [by apply handler_dot|].
  unfold handler. rewrite Hwk. rewrite !elem_of_cons.
  destruct (endsWith uri "/"); [auto|].
  destruct (includes (pop (split "/" uri)) "."); simpl; auto.
Qed.

(** A URI that names a file is left as it is. *)
Lemma handler_file (uri : string) :
  includes (pop (split "/" uri)) "." = true → handler uri = uri.
Proof.
  intros Hdot. unfold handler.
  destruct (Construct.startsWith uri "/.well-known/"); [done|].
  destruct (endsWith uri "/") eqn:Hends.
  - apply endsWith_slash_pop in Hends as [Hpop _]. by rewrite Hpop in Hdot.
  - by rewrite Hdot.
Qed.

(** X22.  The function rewrites a URI once: applied to a URI it has
    returned, it returns it unchanged. *)
Theorem handler_idempotent (uri : string) :
  handler (handler uri) = handler uri.
Proof.
  destruct (Construct.startsWith uri "/.well-known/") eqn:Hwk.
  - unfold handler at 2. rewrite Hwk. unfold handler. by rewrite Hwk.
  - by apply handler_file, handler_dot.
Qed.

Lemma handler_names_a_file_witness :
  Construct.startsWith "/docs/guide" "/.well-known/" = false
  ∧ handler "/docs/guide" = "/docs/guide.html"
  ∧ includes (pop (split "/" (handler "/docs/guide"))) "." = true.
Proof.
  split; [reflexivity|]. split; [reflexivity|].
  exact (proj1 (handler_names_a_file "/docs/guide" eq_refl)).
Defined.

(** The four cases of the function. *)
Example handler_examples :
  handler "/" = "/index.html"
  ∧ handler "/blog/" = "/blog/index.html"
  ∧ handler "/about" = "/about.html"
  ∧ handler "/v1.2/notes" = "/v1.2/notes.html"
  ∧ handler "/app.js" = "/app.js"
  ∧ handler "/.well-known/acme-challenge/token" = "/.well-known/acme-challenge/token"
  ∧ handler "" = ".html".
Proof. vm_compute. done. Qed.

End ViewerRequestFacts.


(** ** Recognising constructs *)

Module ConstructFacts.
Import Construct.

(** X23.  The tests are nested: what [isSSTDebugStack] accepts is a
    stack for [isStackConstruct], what [isStackConstruct] accepts is a
    CDK construct for [isCDKConstruct], and what [isCDKConstruct] or
    [isSSTConstruct] accepts is a construct for [isConstruct]. *)
Theorem construct_tests_are_nested (c : value) :
  (isSSTDebugStack c = true → isStackConstruct c = true)
  ∧ (isStackConstruct c = true → isCDKConstruct c = true)
  ∧ (isCDKConstruct c = true ∨ isSSTConstruct c = true → isConstruct c = true).
Proof.
  split_and!.
  - unfold isSSTDebugStack. by intros [? _]%andb_true_iff.
  - unfold isStackConstruct, isCDKConstructOf, isCDKConstruct.
    destruct (fqn c) as [f|]; [|done].
    intros ->%bool_decide_eq_true. reflexivity.
  - unfold isConstruct. intros [->| ->]; [apply orb_true_r|done].
Qed.

Lemma construct_tests_are_nested_witness :
  let debug := {| fqn := Some "aws-cdk-lib.Stack"; has_getConstructMetadata := false;
                  constructor_name := "DebugStack" |} in
  isSSTDebugStack debug = true
  ∧ isStackConstruct debug = true
  ∧ isCDKConstruct debug = true
  ∧ isConstruct debug = true.
Proof.
  intros debug.
  pose proof (construct_tests_are_nested debug) as (Hdebug & Hstack & Hcdk).
  assert (isSSTDebugStack debug = true) as H0 by reflexivity.
  split; [exact H0|]. split; [exact (Hdebug H0)|].
  split; [exact (Hstack (Hdebug H0))|exact (Hcdk (or_introl (Hstack (Hdebug H0))))].
Defined.

End ConstructFacts.


(** ** The replacement rules of a static site and its props *)

Module StaticSitePropsFacts.
Import BaseSite StaticSiteProps SiteSamples.

(** X24.  A static site pushes its rules onto the array of its
    [replaceValues] property: what the method returns is what the
    construct gives the deployment resource, and when the property was
    given, the props hold the caller's rules followed by the site's
    afterwards, so that a second call returns the site's rules twice.
    Without the property the props are untouched and every call returns
    the same rules. *)
Theorem replace_values_are_pushed_onto_the_props
  (X : externals) (p : StaticSite.site_props) :
  let first := getS3ContentReplaceValues_in_place X p in
  let second := getS3ContentReplaceValues_in_place X first.2 in
  first.1 = StaticSite.getS3ContentReplaceValues X p
  ∧ match StaticSite.replaceValues p with
    | Some given =>
        first.1 = given ++ pushed_rules X p
        ∧ StaticSite.replaceValues first.2 = Some (given ++ pushed_rules X p)
        ∧ second.1 = given ++ pushed_rules X p ++ pushed_rules X p
    | None => first.1 = pushed_rules X p ∧ first.2 = p ∧ second.1 = first.1
    end.
Proof.
  intros first second. subst first second.
  unfold getS3ContentReplaceValues_in_place, StaticSite.getS3ContentReplaceValues.
  destruct (StaticSite.replaceValues p) as [given|] eqn:Hgiven; simpl.
  - split_and!; try done. unfold pushed_rules at 3. simpl.
    by rewrite <- app_assoc.
  - by rewrite Hgiven.
Qed.

(** A site with one unresolved variable and one rule of its own. *)
Example replace_values_twice :
  let p := {| StaticSite.cdk_id := None; StaticSite.path := Some "web";
              StaticSite.buildCommand := None; StaticSite.buildOutput := None;
              StaticSite.environment := Some sample_environment;
              StaticSite.dev := None;
              StaticSite.replaceValues :=
                Some [ReplaceValue "*.js" "{{ STAGE }}" "prod"];
              StaticSite.purgeFiles := None; StaticSite.fileOptions := None;
              StaticSite.vite_types := None;
              StaticSite.sstTestFileSizeLimitOverride := None;
              StaticSite.customDomain := None |} in
  let first := getS3ContentReplaceValues_in_place sample_externals p in
  length first.1 = 3
  ∧ length (getS3ContentReplaceValues_in_place sample_externals first.2).1 = 5.
Proof. vm_compute. done. Qed.

End StaticSitePropsFacts.


(** ** The authentication handler *)

Module AuthHandlerFacts.
Import AuthHandler AuthSamples.

Section WithSessions.
Context {Claims Session : Type}.
Variable X : externals Session.
Variable i : input Claims Session.
Implicit Types (req : request) (r : response).

Lemma truthy_Some (o : option string) :
  truthy o = true → ∃ s, o = Some s ∧ s ≠ "".
Proof.
  destruct o as [s|]; [|done]. simpl. intros Hs%negb_true_iff.
  apply bool_decide_eq_false in Hs. by exists s.
Qed.

(** Every answer of the token step but one is a refusal. *)
Lemma token_step_200 req r :
  token_step X req = Respond r → statusCode r = 200%Z →
  form req !! "grant_type" = Some "authorization_code"
  ∧ ∃ code v,
      form req !! "code" = Some code ∧ code ≠ ""
      ∧ verify X code = Some v
      ∧ v_redirect_uri v = form req !! "redirect_uri"
      ∧ v_client_id v = form req !! "client_id"
      ∧ body_of r = Some (AccessToken (v_token v)).
Proof.
  unfold token_step, bad_request.
  case_bool_decide as Hgrant; [by intros [= <-]|].
  destruct (truthy (form req !! "code")) eqn:Hcode; simpl; [|by intros [= <-]].
  apply truthy_Some in Hcode as (code & Hcode & Hne). rewrite Hcode. simpl.
  destruct (verify X code) as [v|] eqn:Hv; [|done].
  case_bool_decide as Hredirect; [by intros [= <-]|].
  case_bool_decide as Hclient; [by intros [= <-]|].
  intros [= <-] _. split; [done|]. by exists code, v.
Qed.

(** X25.  The token endpoint answers 200 only for a code that the
    verifier accepts and that was issued for the [redirect_uri] and the
    [client_id] of the request, the grant type being
    [authorization_code]; the body is then the token the code carries,
    and the endpoint has called no adapter and set no cookie. *)
Theorem token_is_given_for_a_verified_code req r :
  step req = Some "token" →
  (AuthHandler X i req).2 = Respond r → statusCode r = 200%Z →
  (AuthHandler X i req).1 = []
  ∧ form req !! "grant_type" = Some "authorization_code"
  ∧ ∃ code v,
      form req !! "code" = Some code ∧ code ≠ ""
      ∧ verify X code = Some v
      ∧ v_redirect_uri v = form req !! "redirect_uri"
      ∧ v_client_id v = form req !! "client_id"
      ∧ body_of r = Some (AccessToken (v_token v)).
Proof.
  intros Hstep. unfold AuthHandler. rewrite Hstep. simpl.
  intros Hr H200. split; [done|]. by apply token_step_200.
Qed.

(** What [authorize_step] has checked when it lets the request go on. *)
Lemma authorize_step_passed req es provider :
  authorize_step i req = (es, inr provider) →
  ∃ name client_id redirect_uri response_type,
    provider = Some name ∧ name ≠ ""
    ∧ merged req !! "client_id" = Some client_id ∧ client_id ≠ ""
    ∧ merged req !! "redirect_uri" = Some redirect_uri ∧ redirect_uri ≠ ""
    ∧ merged req !! "response_type" = Some response_type ∧ response_type ≠ ""
    ∧ (∀ cl, clients i = Some cl → get cl client_id = Some redirect_uri)
    ∧ (∀ allow, allowClient i = Some allow → allow client_id redirect_uri = true)
    ∧ es = [CookiesSet
              [ ("provider", name); ("response_type", response_type);
                ("client_id", client_id); ("redirect_uri", redirect_uri);
                ("state", if truthy (merged req !! "state")
                          then default "" (merged req !! "state") else "") ]
              false].
Proof.
  unfold authorize_step.
  set (p := match onAuthorize i with
            | Some f => if truthy (f req) then f req else query req !! "provider"
            | None => query req !! "provider"
            end).
  destruct (truthy p) eqn:Hp; simpl; [|done].
  destruct (truthy (merged req !! "redirect_uri")) eqn:Hu; simpl; [|done].
  destruct (truthy (merged req !! "response_type")) eqn:Ht; simpl; [|done].
  destruct (truthy (merged req !! "client_id")) eqn:Hc; simpl; [|done].
  apply truthy_Some in Hp as (name & Hp & Hname).
  apply truthy_Some in Hu as (u & Hu & Hune).
  apply truthy_Some in Ht as (t & Ht & Htne).
  apply truthy_Some in Hc as (c & Hc & Hcne).
  rewrite Hp, Hu, Ht, Hc. simpl.
  destruct (clients i) as [cl|] eqn:Hcl.
  - case_bool_decide as Hget; [done|].
    destruct (allowClient i) as [allow|] eqn:Hallow.
    + destruct (allow c u) eqn:Hok; simpl; [|done].
      intros [= <- <-]. exists name, c, u, t. split_and!; try done.
      * by intros cl' [= <-].
      * by intros allow' [= <-].
    + intros [= <- <-]. exists name, c, u, t. split_and!; try done.
      by intros cl' [= <-].
  - destruct (allowClient i) as [allow|] eqn:Hallow.
    + destruct (allow c u) eqn:Hok; simpl; [|done].
      intros [= <- <-]. exists name, c, u, t. split_and!; try done.
      by intros allow' [= <-].
    + intros [= <- <-]. by exists name, c, u, t.
Qed.

(** The adapter called is the provider's, and it is called first. *)
Lemma provider_step_adapter req provider name :
  AdapterCalled name ∈ (provider_step X i req provider).1 →
  provider = Some name ∧ name ≠ "" ∧ is_Some (providers i name)
  ∧ ∃ rest, (provider_step X i req provider).1 = AdapterCalled name :: rest.
Proof.
  unfold provider_step.
  destruct (truthy provider) eqn:Hp.
  - apply truthy_Some in Hp as (n & -> & Hn). simpl.
    destruct (providers i n) as [adapter|] eqn:Hadapter.
    + assert (∀ l : list effect, (∀ e, e ∈ l → e ≠ AdapterCalled name) →
                AdapterCalled name ∈ AdapterCalled n :: l →
                Some n = Some name ∧ name ≠ "" ∧ is_Some (providers i name)
                ∧ ∃ rest, AdapterCalled n :: l = AdapterCalled name :: rest) as Hgo.
      { intros l Hl [Heq|Hin]%elem_of_cons; [|by destruct (Hl _ Hin)].
        injection Heq as ->. rewrite Hadapter. split_and!; eauto. }
      destruct (adapter req) as [props|claims| | |]; simpl;
        try (apply Hgo; intros e He; by apply elem_of_nil in He).
      destruct (onSuccess i n claims) as [s|r|]; simpl; apply Hgo;
        intros e He; rewrite ?elem_of_cons, elem_of_nil in He;
        destruct He as [->|He]; try done;
        repeat (destruct He as [->|He]; try done).
    + destruct (onError i) as [f|]; [destruct (f (Some n)) as [[r|]|[r|]]|];
        simpl; by intros ?%elem_of_nil.
  - destruct (onError i) as [f|]; [destruct (f provider) as [[r|]|[r|]]|];
      simpl; by intros ?%elem_of_nil.
Qed.

(** X26.  An adapter is called only for a provider that [input.providers]
    has under that name, whatever the step; and at the step [authorize]
    only after the request has passed the tests on its client: the
    [redirect_uri], the [client_id] and the [response_type] are given,
    the redirect address is the one [clients] holds for the client when
    there is a [clients] callback, [allowClient] has accepted the two
    when there is one, and the cookies that carry them are set before the
    adapter is called. *)
Theorem adapter_is_called_for_known_providers_and_checked_clients req name :
  AdapterCalled name ∈ (AuthHandler X i req).1 →
  name ≠ "" ∧ is_Some (providers i name)
  ∧ (step req = Some "authorize" →
     ∃ client_id redirect_uri response_type rest,
       merged req !! "client_id" = Some client_id
       ∧ merged req !! "redirect_uri" = Some redirect_uri
       ∧ merged req !! "response_type" = Some response_type
       ∧ (∀ cl, clients i = Some cl → get cl client_id = Some redirect_uri)
       ∧ (∀ allow, allowClient i = Some allow → allow client_id redirect_uri = true)
       ∧ (AuthHandler X i req).1
         = CookiesSet
             [ ("provider", name); ("response_type", response_type);
               ("client_id", client_id); ("redirect_uri", redirect_uri);
               ("state", if truthy (merged req !! "state")
                         then default "" (merged req !! "state") else "") ]
             false
           :: AdapterCalled name :: rest).
Proof.
  unfold AuthHandler.
  destruct (truthy (step req)) eqn:Hstep; simpl.
  2: { destruct (onIndex i); simpl; by intros ?%elem_of_nil. }
  case_bool_decide as Hfav; [by intros ?%elem_of_nil|].
  case_bool_decide as Htoken; [by intros ?%elem_of_nil|].
  case_bool_decide as Hauth.
  - destruct (authorize_step i req) as [es [out|provider]] eqn:Hpass.
    + simpl. intros Hin. exfalso. revert Hpass Hin. unfold authorize_step.
      repeat (case_match; simpl); intros; simplify_eq;
        by match goal with H : _ ∈ [] |- _ => apply elem_of_nil in H end.
    + apply authorize_step_passed in Hpass
        as (n & c & u & t & -> & Hn & Hc & _ & Hu & _ & Ht & _ & Hcl & Hallow & ->).
      pose proof (provider_step_adapter req (Some n) name) as Hadapter.
      destruct (provider_step X i req (Some n)) as [es' out]. simpl in *.
      intros [Hin|Hin]%elem_of_cons; [done|].
      destruct (Hadapter Hin) as ([= ->] & Hne & Hsome & rest & ->).
      split_and!; try done; intros _; by exists c, u, t, rest.
  - intros Hin. apply provider_step_adapter in Hin as (_ & Hne & Hsome & _).
    split_and!; try done; intros Hs; by destruct Hauth.
Qed.

(** X27.  With a provider that is missing or unknown, the handler calls
    no adapter.  At a step other than [authorize] the provider is the one
    of the cookie: the handler sets no cookie and answers with what
    [onError] gives, and when [onError] returns a promise, as its type
    says, with what the promise resolves to, be it nothing: the answer
    400 of the handler itself is for an [input] without [onError], or an
    [onError] that returns nothing at once.  At the step [authorize] the
    provider is the one [onAuthorize] or the query gives: without one the
    answer is 400 "Missing provider" and [onError] is not asked; with one
    that [input.providers] does not have, a request that passes the tests
    on its client has its cookies set, that provider among them, and is
    then answered as at the other steps. *)
Theorem unknown_provider_is_left_to_onError req :
  truthy (step req) = true →
  step req ≠ Some "favicon.ico" → step req ≠ Some "token" →
  let answer provider :=
    let fallback :=
      Respond {| statusCode := 400; headers := [("Content-Type", "text/html")];
                 body_of := Some (Text ("Was not able to find provider " +:+ quote
                                        +:+ String_of provider +:+ quote)) |} in
    match onError i with
    | None => fallback
    | Some f =>
        match f provider with
        | Promised (Some r) | Direct (Some r) => Respond r
        | Promised None => NoResponse
        | Direct None => fallback
        end
    end in
  (step req ≠ Some "authorize" →
   let provider := cookies req !! "provider" in
   (if truthy provider then providers i (default "" provider) else None) = None →
   AuthHandler X i req = ([], answer provider))
  ∧ (step req = Some "authorize" →
     let chosen :=
       match onAuthorize i with
       | Some f => if truthy (f req) then f req else query req !! "provider"
       | None => query req !! "provider"
       end in
     (truthy chosen = false →
      AuthHandler X i req = ([], bad_request "Missing provider"))
     ∧ (∀ es name,
          authorize_step i req = (es, inr (Some name)) →
          providers i name = None →
          AuthHandler X i req = (es, answer (Some name))
          ∧ chosen = Some name
          ∧ ∃ kept, es = [CookiesSet kept false] ∧ ("provider", name) ∈ kept)).
Proof.
  intros Hstep Hfav Htoken answer.
  assert (∀ provider,
    (if truthy provider then providers i (default "" provider) else None) = None →
    provider_step X i req provider = ([], answer provider)) as Hunknown.
  { intros provider Hnone. unfold provider_step, answer. rewrite Hnone.
    destruct (onError i) as [f|]; [|done].
    by destruct (f provider) as [[r|]|[r|]]. }
  split.
  - intros Hauth provider Hnone.
    unfold AuthHandler. rewrite Hstep. simpl.
    rewrite !bool_decide_eq_false_2 by done. by apply Hunknown.
  - intros Hauth chosen. split.
    + intros Hchosen. unfold AuthHandler. rewrite Hstep. simpl.
      rewrite !bool_decide_eq_false_2 by done.
      rewrite bool_decide_eq_true_2 by done.
      unfold authorize_step. fold chosen. by rewrite Hchosen.
    + intros es name Hpass Hnone.
      assert (AuthHandler X i req = (es, answer (Some name))) as Hrun.
      { unfold AuthHandler. rewrite Hstep. simpl.
        rewrite !bool_decide_eq_false_2 by done.
        rewrite bool_decide_eq_true_2 by done.
        rewrite Hpass, Hunknown; [by rewrite app_nil_r|].
        simpl. by destruct (negb _). }
      split; [exact Hrun|].
      pose proof Hpass as Hchosen. unfold authorize_step in Hchosen.
      fold chosen in Hchosen.
      apply authorize_step_passed in Hpass
        as (n & c & u & t & [= <-] & _ & _ & _ & _ & _ & _ & _ & _ & _ & ->).
      split.
      * repeat (case_match; simplify_eq/=); done.
      * eexists. split; [reflexivity|]. apply list_elem_of_here.
Qed.


End WithSessions.

Lemma token_is_given_for_a_verified_code_witness :
  let run := AuthHandler auth_externals auth_input token_request in
  run.2 = Respond {| statusCode := 200;
                     headers := [("content-type", "application/json")];
                     body_of := Some (AccessToken (Some "jwt:ann")) |}
  ∧ run.1 = []
  ∧ ∃ code v, form token_request !! "code" = Some code
              ∧ verify auth_externals code = Some v
              ∧ v_client_id v = form token_request !! "client_id".
Proof.
  intros run.
  assert (run.2 = Respond {| statusCode := 200;
                             headers := [("content-type", "application/json")];
                             body_of := Some (AccessToken (Some "jwt:ann")) |})
    as Hrun by (vm_compute; reflexivity).
  split; [exact Hrun|].
  destruct (token_is_given_for_a_verified_code auth_externals auth_input
              token_request _ eq_refl Hrun eq_refl)
    as (Hquiet & _ & code & v & Hcode & _ & Hv & _ & Hclient & _).
  split; [exact Hquiet|]. by exists code, v.
Defined.

Lemma adapter_is_called_for_known_providers_and_checked_clients_witness :
  let run := AuthHandler auth_externals auth_input authorize_request in
  run.1 = [ CookiesSet [ ("provider", "github"); ("response_type", "token");
                         ("client_id", "web");
                         ("redirect_uri", "https://app.example/cb"); ("state", "") ]
              false;
            AdapterCalled "github" ]
  ∧ is_Some (providers auth_input "github")
  ∧ ∃ client_id redirect_uri,
      merged authorize_request !! "client_id" = Some client_id
      ∧ merged authorize_request !! "redirect_uri" = Some redirect_uri
      ∧ ∀ cl, clients auth_input = Some cl → get cl client_id = Some redirect_uri.
Proof.
  intros run.
  assert (run.1 = [ CookiesSet [ ("provider", "github"); ("response_type", "token");
                                 ("client_id", "web");
                                 ("redirect_uri", "https://app.example/cb");
                                 ("state", "") ] false;
                    AdapterCalled "github" ]) as Hrun by (vm_compute; reflexivity).
  split; [exact Hrun|].
  assert (AdapterCalled "github" ∈ run.1) as Hin
    by (rewrite Hrun; apply list_elem_of_further, list_elem_of_here).
  destruct (adapter_is_called_for_known_providers_and_checked_clients
              auth_externals auth_input authorize_request "github" Hin)
    as (_ & Hsome & Hchecked).
  split; [exact Hsome|].
  destruct (Hchecked eq_refl) as (c & u & t & rest & Hc & Hu & _ & Hcl & _).
  by exists c, u.
Defined.

Lemma unknown_provider_is_left_to_onError_witness :
  providers auth_input "gitlab" = None
  ∧ AuthHandler auth_externals auth_input unknown_request = ([], NoResponse)
  ∧ AuthHandler auth_externals auth_input unknown_authorize_request
    = ([ CookiesSet [ ("provider", "gitlab"); ("response_type", "token");
                      ("client_id", "web");
                      ("redirect_uri", "https://app.example/cb"); ("state", "") ]
           false ], NoResponse)
  ∧ AuthHandler auth_externals auth_input missing_authorize_request
    = ([], bad_request "Missing provider").
Proof.
  split; [reflexivity|].
  destruct (unknown_provider_is_left_to_onError auth_externals auth_input
              unknown_request eq_refl ltac:(discriminate) ltac:(discriminate))
    as [Hcookie _].
  destruct (unknown_provider_is_left_to_onError auth_externals auth_input
              unknown_authorize_request eq_refl ltac:(discriminate)
              ltac:(discriminate)) as [_ Hauthorize].
  destruct (unknown_provider_is_left_to_onError auth_externals auth_input
              missing_authorize_request eq_refl ltac:(discriminate)
              ltac:(discriminate)) as [_ Hmissing].
  split_and!.
  - exact (Hcookie ltac:(discriminate) eq_refl).
  - destruct (Hauthorize eq_refl) as [_ Hunknown].
    destruct (Hunknown
                [ CookiesSet [ ("provider", "gitlab"); ("response_type", "token");
                               ("client_id", "web");
                               ("redirect_uri", "https://app.example/cb");
                               ("state", "") ] false ]
                "gitlab" ltac:(vm_compute; reflexivity) eq_refl) as [Hrun _].
    exact Hrun.
  - destruct (Hmissing eq_refl) as [Hnone _].
    exact (Hnone ltac:(vm_compute; reflexivity)).
Defined.


End AuthHandlerFacts.
